(** * gmprocess: grouping, duplicate removal and colocation of station traces

    A shallow embedding of [gmprocess/streamcollection.py], of the trace of
    [gmprocess/stationtrace.py] (free-field flag, parameter store, provenance
    and validation) and of the escaping of [gmprocess/report.py], with the
    properties of the grouping and deduplication engine and of these parts
    stated and proved over it.

    Modelling conventions.
    - Python [float] values (coordinates, distances, sampling rates) are finite
      rationals [Q]; [int] values are [Z]; [str] values are [string].
    - A raised exception is the [Raise] constructor of [result]; Python's
      [None] returned where a trace is expected is [None] of an [option].
    - StationTrace objects are mutable and shared between the streams that
      hold them: they live in a [Heap], and streams hold references. *)

From Stdlib Require Import List String Ascii ZArith QArith Bool Arith Lia Permutation.
From Stdlib Require Import DecimalString DecimalNat.
Import ListNotations.

Close Scope Q_scope.
Open Scope string_scope.
Open Scope list_scope.

(** ** Exceptions and fallible computations *)

Inductive exn : Type :=
| ValueError
| KeyError
| IndexError
| GMProcessException.

Inductive result (A : Type) : Type :=
| Ok (a : A)
| Raise (e : exn).

Arguments Ok {A} a.
Arguments Raise {A} e.

Definition bind {A B : Type} (m : result A) (k : A -> result B) : result B :=
  match m with
  | Ok a => k a
  | Raise e => Raise e
  end.

Notation "x <- m ;; k" := (bind m (fun x => k))
  (at level 100, m at next level, right associativity).

(** ** Python built-ins on lists and strings *)

(** [x in l] for a list of strings. *)
Definition str_in (x : string) (l : list string) : bool :=
  existsb (String.eqb x) l.

(** [l.index(x)]: position of the first element equal to [x]; [ValueError]
    when there is none. *)
Fixpoint index (x : string) (l : list string) : result nat :=
  match l with
  | [] => Raise ValueError
  | y :: r => if String.eqb y x then Ok 0%nat
              else n <- index x r ;; Ok (S n)
  end.

(** [i in l] for a list of integers. *)
Definition nat_in (i : nat) (l : list nat) : bool := existsb (Nat.eqb i) l.

Definition is_upper (c : ascii) : bool :=
  let n := nat_of_ascii c in (65 <=? n)%nat && (n <=? 90)%nat.

Definition is_lower (c : ascii) : bool :=
  let n := nat_of_ascii c in (97 <=? n)%nat && (n <=? 122)%nat.

Definition lower_char (c : ascii) : ascii :=
  if is_upper c then ascii_of_nat (nat_of_ascii c + 32) else c.

Definition upper_char (c : ascii) : ascii :=
  if is_lower c then ascii_of_nat (nat_of_ascii c - 32) else c.

(** [s.lower()] and [s.upper()] on ASCII strings. *)
Fixpoint lower (s : string) : string :=
  match s with
  | EmptyString => EmptyString
  | String c r => String (lower_char c) (lower r)
  end.

Fixpoint upper (s : string) : string :=
  match s with
  | EmptyString => EmptyString
  | String c r => String (upper_char c) (upper r)
  end.

(** [re.search(pat, s) is not None] for a pattern without metacharacters:
    [pat] occurs somewhere in [s]. *)
Fixpoint re_search (pat s : string) : bool :=
  prefix pat s ||
  match s with
  | EmptyString => false
  | String _ r => re_search pat r
  end.

(** [re.compile(pat).match(s)] for a pattern without metacharacters: [s]
    starts with [pat]. A pattern in which [re] reads an operator (as in
    ["B?"] or ["H."]) is not covered; [regex_literal] below tells the
    patterns that are. *)
Definition re_match (pat s : string) : bool := prefix pat s.

(** [s[0:2]]. *)
Definition slice02 (s : string) : string := substring 0 2 s.

(** [s.split(sep)] for a one-character separator. *)
Fixpoint split (sep : ascii) (s : string) : list string :=
  match s with
  | EmptyString => [EmptyString]
  | String c r =>
      if Ascii.eqb c sep then EmptyString :: split sep r
      else match split sep r with
           | [] => [String c EmptyString]
           | w :: ws => String c w :: ws
           end
  end.

(** [fnmatch.fnmatch(name, pat)], for patterns built from literal characters,
    [*] and [?]; the character classes of [fnmatch] are not covered. *)
Fixpoint glob (pat name : string) : bool :=
  match pat with
  | EmptyString => match name with EmptyString => true | _ => false end
  | String p pat' =>
      if Ascii.eqb p "*"%char then
        (fix star (n : string) : bool :=
           glob pat' n ||
           match n with
           | EmptyString => false
           | String _ n' => star n'
           end) name
      else
        match name with
        | EmptyString => false
        | String c name' =>
            (Ascii.eqb p "?"%char || Ascii.eqb p c) && glob pat' name'
        end
  end.

Definition fnmatch (name pat : string) : bool := glob pat name.

(** ** Station traces ([gmprocess/stationtrace.py]) *)

Definition REV_PROCESS_LEVELS (level : string) : result string :=
  if String.eqb level "raw counts" then Ok "V0"
  else if String.eqb level "uncorrected physical units" then Ok "V1"
  else if String.eqb level "corrected physical units" then Ok "V2"
  else if String.eqb level "derived time series" then Ok "V3"
  else Raise KeyError.

Record Coordinates : Type := mkCoordinates {
  latitude : Q;
  longitude : Q
}.

(** The entries of [stats.standard] the engine reads. *)
Record Standard : Type := mkStandard {
  process_level : string;
  source_format : string;
  structure_type : string;
  source_file : string
}.

(** [trace.stats]. [starttime] counts from the epoch, so [UTCDateTime(0)] is
    [0]. [tag] is the attribute [gather_stream_parameters] writes; every read
    of it in the engine comes after such a write, and the empty string stands
    for the value written for an untagged stream. *)
Record Stats : Type := mkStats {
  network : string;
  station : string;
  location : string;
  channel : string;
  starttime : Z;
  npts : Z;
  sampling_rate : Q;
  coordinates : Coordinates;
  standard : Standard;
  tag : string
}.

(** A parameter value: a dictionary of strings. *)
Definition pyvalue : Type := list (string * string).

(** A [dict] with string keys, in insertion order. *)
Definition dict (V : Type) : Type := list (string * V).

Fixpoint dict_get {V : Type} (k : string) (d : dict V) : option V :=
  match d with
  | [] => None
  | (k', v) :: r => if String.eqb k' k then Some v else dict_get k r
  end.

Definition dict_has {V : Type} (k : string) (d : dict V) : bool :=
  match dict_get k d with Some _ => true | None => false end.

(** [d[k] = v]. *)
Fixpoint dict_set {V : Type} (k : string) (v : V) (d : dict V) : dict V :=
  match d with
  | [] => [(k, v)]
  | (k', v') :: r =>
      if String.eqb k' k then (k', v) :: r else (k', v') :: dict_set k v r
  end.

Record StationTrace : Type := mkTrace {
  stats : Stats;
  data : list Q;
  parameters : dict pyvalue
}.

Definition non_free : list string :=
  ["building"; "bridge"; "dam"; "borehole"; "hole"; "crest"; "toe";
   "foundation"; "body"; "roof"; "floor"].

(** [StationTrace.free_field]. *)
Definition free_field (tr : StationTrace) : bool :=
  let stype := structure_type (standard (stats tr)) in
  negb (existsb (fun ftype => re_search ftype (lower stype)) non_free).

Definition hasParameter (tr : StationTrace) (param_id : string) : bool :=
  dict_has param_id (parameters tr).

Definition setParameter (tr : StationTrace) (param_id : string)
    (param_attributes : pyvalue) : StationTrace :=
  mkTrace (stats tr) (data tr) (dict_set param_id param_attributes (parameters tr)).

(** [StationTrace.fail]: the name of the calling function, which the source
    reads off the interpreter stack, is passed in. *)
Definition fail (tr : StationTrace) (calling_module reason : string) : StationTrace :=
  setParameter tr "failure" [("module", calling_module); ("reason", reason)].

(** [obspy]'s equality of traces, used by [==] and [list.remove]: two traces
    are equal when their [stats] and their [data] are. *)
Definition coordinates_eqb (c1 c2 : Coordinates) : bool :=
  Qeq_bool (latitude c1) (latitude c2) && Qeq_bool (longitude c1) (longitude c2).

Definition standard_eqb (s1 s2 : Standard) : bool :=
  String.eqb (process_level s1) (process_level s2) &&
  String.eqb (source_format s1) (source_format s2) &&
  String.eqb (structure_type s1) (structure_type s2) &&
  String.eqb (source_file s1) (source_file s2).

Definition stats_eqb (s1 s2 : Stats) : bool :=
  String.eqb (network s1) (network s2) &&
  String.eqb (station s1) (station s2) &&
  String.eqb (location s1) (location s2) &&
  String.eqb (channel s1) (channel s2) &&
  Z.eqb (starttime s1) (starttime s2) &&
  Z.eqb (npts s1) (npts s2) &&
  Qeq_bool (sampling_rate s1) (sampling_rate s2) &&
  coordinates_eqb (coordinates s1) (coordinates s2) &&
  standard_eqb (standard s1) (standard s2) &&
  String.eqb (tag s1) (tag s2).

Fixpoint data_eqb (d1 d2 : list Q) : bool :=
  match d1, d2 with
  | [], [] => true
  | x :: r1, y :: r2 => Qeq_bool x y && data_eqb r1 r2
  | _, _ => false
  end.

Definition trace_eqb (tr1 tr2 : StationTrace) : bool :=
  stats_eqb (stats tr1) (stats tr2) && data_eqb (data tr1) (data tr2).

(** [trace.id]: the identifier [obspy] makes of the network, station,
    location and channel codes, the string ["net.sta.loc.cha"]. *)
Definition trace_id (tr : StationTrace) : string :=
  (network (stats tr) ++ "." ++ station (stats tr) ++ "." ++
   location (stats tr) ++ "." ++ channel (stats tr))%string.

(** [id1 == id2] on two identifiers: equality of strings. *)
Definition id_eqb (i1 i2 : string) : bool := String.eqb i1 i2.

Definition Qlt_bool (x y : Q) : bool := negb (Qle_bool y x).

(** ** The preference resolver *)

Definition choose_preferred (tr1 tr2 : StationTrace)
    (process_level_preference format_preference : list string)
  : result (option StationTrace) :=
  level1 <- REV_PROCESS_LEVELS (process_level (standard (stats tr1))) ;;
  tr1_pref <- index level1 process_level_preference ;;
  level2 <- REV_PROCESS_LEVELS (process_level (standard (stats tr2))) ;;
  tr2_pref <- index level2 process_level_preference ;;
  if (tr1_pref <? tr2_pref)%nat then Ok (Some tr1)
  else if (tr2_pref <? tr1_pref)%nat then Ok (Some tr2)
  else
    if str_in (source_format (standard (stats tr1))) format_preference &&
       str_in (source_format (standard (stats tr2))) format_preference
    then
      tr1_form_pref <- index (source_format (standard (stats tr1))) format_preference ;;
      tr2_form_pref <- index (source_format (standard (stats tr2))) format_preference ;;
      if (tr1_form_pref <? tr2_form_pref)%nat then Ok (Some tr1)
      else if (tr2_form_pref <? tr1_form_pref)%nat then Ok (Some tr2)
      else
        if Z.eqb (starttime (stats tr1)) 0 && negb (Z.eqb (starttime (stats tr2)) 0)
        then Ok (Some tr2)
        else if negb (Z.eqb (starttime (stats tr1)) 0) && Z.eqb (starttime (stats tr2)) 0
        then Ok (Some tr1)
        else
          if (npts (stats tr2) <? npts (stats tr1))%Z then Ok (Some tr1)
          else if (npts (stats tr1) <? npts (stats tr2))%Z then Ok (Some tr2)
          else
            if Qlt_bool (sampling_rate (stats tr1)) (sampling_rate (stats tr2))
            then Ok (Some tr2)
            else Ok (Some tr1)
    else
      (* the function ends here without a [return] *)
      Ok None.

(** ** Streams

    [StationStream] is defined in [gmprocess/stationstream.py], which is not
    part of the embedded sources; the definitions below give what the
    collection uses of it, as the specification describes it. *)

(** A reference to a trace object, and the store of trace objects. *)
Definition ref : Type := nat.
Definition Heap : Type := ref -> StationTrace.

Definition heap_set (h : Heap) (r : ref) (tr : StationTrace) : Heap :=
  fun x => if Nat.eqb x r then tr else h x.

(** Modelled from the spec: the StationStream object, which is missing from
    the sources. A Group is an ordered sequence of trace records that
    optionally carries a free-text tag and a parameter mapping; a newly built
    one carries neither. *)
Record StationStream : Type := mkStream {
  traces : list ref;
  st_parameters : dict pyvalue;
  st_tag : option string
}.

(** Modelled from the spec: the constructor [StationStream(traces=trs)],
    missing from the sources. The new Group holds the traces given, in their
    order, and carries no tag and an empty parameter mapping. *)
Definition new_stream (trs : list ref) : StationStream := mkStream trs [] None.

(** [st[0]], for a stream that holds a trace. *)
Definition first_trace (h : Heap) (st : StationStream) : StationTrace :=
  h (hd 0%nat (traces st)).

(** Modelled from the spec: [StationStream.get_inst], missing from the
    sources. The instrument code of a Group is the first two characters of
    the channel code its members share. *)
Definition get_inst (h : Heap) (st : StationStream) : string :=
  slice02 (channel (stats (first_trace h st))).

(** Modelled from the spec: [StationStream.get_net_sta], missing from the
    sources. The (network, station) identity of a Group; [select] reads the
    network before the first dot of it and the station after. *)
Definition get_net_sta (h : Heap) (st : StationStream) : string :=
  network (stats (first_trace h st)) ++ "." ++ station (stats (first_trace h st)).

(** Modelled from the spec: [StationStream.get_id], missing from the sources.
    The canonical identifier of a Group is derived from the identity fields
    its members share: network, station and instrument code. *)
Definition get_id (h : Heap) (st : StationStream) : string :=
  get_net_sta h st ++ "." ++ get_inst h st.

(** Modelled from the spec: [StationStream.passed], missing from the sources.
    A Group passed iff none of its traces carries a failure annotation. *)
Definition passed (h : Heap) (st : StationStream) : bool :=
  negb (existsb (fun r => hasParameter (h r) "failure") (traces st)).

Definition set_tag (tr : StationTrace) (t : string) : StationTrace :=
  let s := stats tr in
  mkTrace (mkStats (network s) (station s) (location s) (channel s)
                   (starttime s) (npts s) (sampling_rate s)
                   (coordinates s) (standard s) t)
          (data tr) (parameters tr).

(** ** Carrying tags and parameters across a regrouping *)

Definition stamp (h : Heap) (t : string) (trs : list ref) : Heap :=
  fold_left (fun h' r => heap_set h' r (set_tag (h' r) t)) trs h.

Definition gather_step (acc : Heap * dict (dict pyvalue)) (stream : StationStream)
  : Heap * dict (dict pyvalue) :=
  let '(h, stream_params) := acc in
  let stream_params' :=
    if (0 <? List.length (st_parameters stream))%nat
    then dict_set (get_id h stream) (st_parameters stream) stream_params
    else stream_params in
  let t := match st_tag stream with Some t => t | None => "" end in
  (stamp h t (traces stream), stream_params').

Definition gather_stream_parameters (h : Heap) (streams : list StationStream)
  : Heap * dict (dict pyvalue) :=
  fold_left gather_step streams (h, []).

Definition insert_one (h : Heap) (stream_params : dict (dict pyvalue))
    (st : StationStream) : StationStream :=
  if (0 <? List.length (traces st))%nat then
    let sid := get_id h st in
    let params := match dict_get sid stream_params with
                  | Some p => p
                  | None => st_parameters st
                  end in
    let t := tag (stats (first_trace h st)) in
    mkStream (traces st) params
             (if String.eqb t "" then st_tag st else Some t)
  else st.

Definition insert_stream_parameters (h : Heap) (streams : list StationStream)
    (stream_params : dict (dict pyvalue)) : list StationStream :=
  map (insert_one h stream_params) streams.

(** ** The grouping engine *)

Definition enumerate {A : Type} (l : list A) : list (nat * A) :=
  combine (seq 0 (List.length l)) l.

Section MatchLoop.
(** The clustering scan shared by [__group_by_net_sta_inst] (over traces)
    and [select_colocated] (over streams): [same x1 x2] is the comparison
    of the fields read from the two elements. *)
Variable A : Type.
Variable same : A -> A -> bool.

Definition inner_matches (all_matches : list nat) (l : list A)
    (idx1 : nat) (x1 : A) : list nat :=
  idx1 :: map fst
    (filter (fun p => negb (Nat.eqb idx1 (fst p)) &&
                      negb (nat_in idx1 all_matches) &&
                      same x1 (snd p))
            (enumerate l)).

Definition outer_step (l : list A) (acc : list nat * list (list nat))
    (p : nat * A) : list nat * list (list nat) :=
  let '(all_matches, match_list) := acc in
  let '(idx1, x1) := p in
  if nat_in idx1 all_matches then acc
  else
    let matches := inner_matches all_matches l idx1 x1 in
    if (1 <? List.length matches)%nat
    then (all_matches ++ matches, match_list ++ [matches])
    else if negb (nat_in (hd 0%nat matches) all_matches)
         then (all_matches ++ matches, match_list ++ [matches])
         else acc.

Definition match_list (l : list A) : list (list nat) :=
  snd (fold_left (outer_step l) (enumerate l) ([], [])).
End MatchLoop.

Arguments inner_matches {A} same all_matches l idx1 x1.
Arguments outer_step {A} same l acc p.
Arguments match_list {A} same l.

Definition NETWORKS_USING_LOCATION : list string := ["RE"].

Definition split_step (h : Heap) (streams_dict : dict StationStream)
    (trace : ref) : dict StationStream :=
  let loc := location (stats (h trace)) in
  match dict_get loc streams_dict with
  | Some st =>
      dict_set loc (mkStream (traces st ++ [trace]) (st_parameters st) (st_tag st))
               streams_dict
  | None => dict_set loc (new_stream [trace]) streams_dict
  end.

(** [split_station]; indexing an empty list raises [IndexError]. *)
Definition split_station (h : Heap) (grouped_trace_list : list ref)
  : result (list StationStream) :=
  match grouped_trace_list with
  | [] => Raise IndexError
  | first :: _ =>
      if str_in (network (stats (h first))) NETWORKS_USING_LOCATION
      then Ok (map snd (fold_left (split_step h) grouped_trace_list []))
      else Ok [new_stream grouped_trace_list]
  end.

Fixpoint mapM {A B : Type} (f : A -> result B) (l : list A) : result (list B) :=
  match l with
  | [] => Ok []
  | x :: r => y <- f x ;; ys <- mapM f r ;; Ok (y :: ys)
  end.

(** The comparison of two traces in the grouping scan: network, station,
    instrument code (first two characters of the channel) and free-field
    flag. *)
Definition same_net_sta_inst (h : Heap) (trace1 trace2 : ref) : bool :=
  String.eqb (network (stats (h trace1))) (network (stats (h trace2))) &&
  String.eqb (station (stats (h trace1))) (station (stats (h trace2))) &&
  String.eqb (slice02 (channel (stats (h trace1))))
             (slice02 (channel (stats (h trace2)))) &&
  Bool.eqb (free_field (h trace1)) (free_field (h trace2)).

(** [StreamCollection.__group_by_net_sta_inst], as a function of the heap and
    of [self.streams]; it returns the heap (the traces now carry their
    stream's tag) and the new [self.streams]. *)
Definition group_by_net_sta_inst (h : Heap) (streams : list StationStream)
  : result (Heap * list StationStream) :=
  let '(h1, stream_params) := gather_stream_parameters h streams in
  let trace_list := flat_map traces streams in
  let matches := match_list (same_net_sta_inst h1) trace_list in
  grouped <- mapM (fun groups =>
               let grouped_trace_list :=
                 map (fun i => nth i trace_list 0%nat) groups in
               sts <- split_station h1 grouped_trace_list ;;
               Ok (insert_stream_parameters h1 sts stream_params))
             matches ;;
  Ok (h1, List.concat grouped).

(** ** Validation of a collection *)

Definition stream_label (stream : StationStream) : result string :=
  match st_tag stream with
  | Some t =>
      match split "_" t with
      | [_; _; label] => Ok label
      | _ => Raise ValueError
      end
  | None => Ok ""
  end.

(** [StreamCollection.validate]. *)
Definition validate (streams : list StationStream) : result unit :=
  all_labels <- mapM stream_label streams ;;
  if (1 <? List.length (nodup string_dec all_labels))%nat
  then Raise GMProcessException
  else Ok tt.

(** ** Duplicate detection and removal *)

(** The [duplicate] section of the configuration, read when an argument is
    [None]. *)
Record DuplicateConfig : Type := mkConfig {
  cfg_max_dist_tolerance : Q;
  cfg_process_level_preference : list string;
  cfg_format_preference : list string
}.

Section Engine.
(** [obspy.geodetics.gps2dist_azimuth], first component: the great-circle
    distance in metres between two points given by latitude and longitude.
    It raises on coordinates it does not accept. *)
Variable gps2dist_azimuth : Q -> Q -> Q -> Q -> result Q.

(** [get_config('duplicate')]. *)
Variable config : DuplicateConfig.

Definition are_duplicates (tr1 tr2 : StationTrace) (max_dist_tolerance : Q)
  : result bool :=
  if id_eqb (trace_id tr1) (trace_id tr2) then Ok true
  else
    distance <- gps2dist_azimuth
                  (latitude (coordinates (stats tr1)))
                  (longitude (coordinates (stats tr1)))
                  (latitude (coordinates (stats tr2)))
                  (longitude (coordinates (stats tr2))) ;;
    if String.eqb (station (stats tr1)) (station (stats tr2)) &&
       String.eqb (location (stats tr1)) (location (stats tr2)) &&
       String.eqb (channel (stats tr1)) (channel (stats tr2)) &&
       Qlt_bool distance max_dist_tolerance
    then Ok true
    else Ok false.

(** The scan of [preferred_traces] for the first duplicate of [tr_to_add]. *)
Fixpoint find_duplicate (h : Heap) (max_dist_tolerance : Q) (tr_to_add : ref)
    (preferred_traces : list ref) : result (option ref) :=
  match preferred_traces with
  | [] => Ok None
  | tr_pref :: rest =>
      d <- are_duplicates (h tr_to_add) (h tr_pref) max_dist_tolerance ;;
      if d then Ok (Some tr_pref)
      else find_duplicate h max_dist_tolerance tr_to_add rest
  end.

(** [l.remove(x)]: drops the first element that is [x] or equal to it. *)
Fixpoint list_remove (h : Heap) (x : ref) (l : list ref) : list ref :=
  match l with
  | [] => []
  | y :: r =>
      if Nat.eqb y x || trace_eqb (h y) (h x) then r
      else y :: list_remove h x r
  end.

(** [choose_preferred(...) == tr_to_add]. *)
Definition is_trace (h : Heap) (chosen : option StationTrace) (r : ref) : bool :=
  match chosen with
  | Some tr => trace_eqb tr (h r)
  | None => false
  end.

Definition dedup_step (h : Heap) (max_dist_tolerance : Q)
    (process_level_preference format_preference : list string)
    (preferred_traces : list ref) (tr_to_add : ref) : result (list ref) :=
  dup <- find_duplicate h max_dist_tolerance tr_to_add preferred_traces ;;
  match dup with
  | Some tr_pref =>
      chosen <- choose_preferred (h tr_to_add) (h tr_pref)
                  process_level_preference format_preference ;;
      if is_trace h chosen tr_to_add
      then Ok (list_remove h tr_pref preferred_traces ++ [tr_to_add])
      else Ok preferred_traces
  | None => Ok (preferred_traces ++ [tr_to_add])
  end.

Fixpoint dedup (h : Heap) (max_dist_tolerance : Q)
    (process_level_preference format_preference : list string)
    (traces_left : list ref) (preferred_traces : list ref) : result (list ref) :=
  match traces_left with
  | [] => Ok preferred_traces
  | tr_to_add :: rest =>
      preferred' <- dedup_step h max_dist_tolerance process_level_preference
                      format_preference preferred_traces tr_to_add ;;
      dedup h max_dist_tolerance process_level_preference format_preference
            rest preferred'
  end.

Definition or_default {A : Type} (o : option A) (d : A) : A :=
  match o with Some a => a | None => d end.

(** [StreamCollection.__handle_duplicates]. *)
Definition handle_duplicates (h : Heap) (streams : list StationStream)
    (max_dist_tolerance : option Q)
    (process_level_preference format_preference : option (list string))
  : result (Heap * list StationStream) :=
  let tol := or_default max_dist_tolerance (cfg_max_dist_tolerance config) in
  let plp := or_default process_level_preference
                        (cfg_process_level_preference config) in
  let fp := or_default format_preference (cfg_format_preference config) in
  let '(h1, stream_params) := gather_stream_parameters h streams in
  let trs := flat_map traces streams in
  preferred_traces <- dedup h1 tol plp fp trs [] ;;
  let sts := map (fun tr => new_stream [tr]) preferred_traces in
  Ok (h1, insert_stream_parameters h1 sts stream_params).

(** ** The collection *)

(** The first loop of [StreamCollection.__init__]: keeps every stream, or
    only those whose first trace is free-field. *)
Fixpoint ingest (h : Heap) (drop_non_free : bool) (streams : list StationStream)
  : result (list StationStream) :=
  match streams with
  | [] => Ok []
  | s :: rest =>
      keep <- (if drop_non_free
               then match traces s with
                    | [] => Raise IndexError
                    | r :: _ => Ok (free_field (h r))
                    end
               else Ok true) ;;
      newstreams <- ingest h drop_non_free rest ;;
      Ok (if keep then s :: newstreams else newstreams)
  end.

(** [StreamCollection.__init__], as a function of the heap and of the
    arguments; it returns the heap and [self.streams]. *)
Definition StreamCollection_init (h : Heap) (streams : list StationStream)
    (drop_non_free handle_dups : bool) (max_dist_tolerance : option Q)
    (process_level_preference format_preference : option (list string))
  : result (Heap * list StationStream) :=
  newstreams <- ingest h drop_non_free streams ;;
  deduped <- (if handle_dups && (0 <? List.length newstreams)%nat
              then handle_duplicates h newstreams max_dist_tolerance
                     process_level_preference format_preference
              else Ok (h, newstreams)) ;;
  grouped <- group_by_net_sta_inst (fst deduped) (snd deduped) ;;
  _ <- validate (snd grouped) ;;
  Ok grouped.

Definition opt_match (value : string) (pattern : option string) : bool :=
  match pattern with
  | Some p => fnmatch (upper value) (upper p)
  | None => true
  end.

(** [StreamCollection.select]: the streams that match, as a new
    collection. *)
Definition select (h : Heap) (streams : list StationStream)
    (network_pat station_pat instrument_pat : option string)
  : result (Heap * list StationStream) :=
  let sel := filter (fun st =>
               let inst := get_inst h st in
               let net_sta := get_net_sta h st in
               let net := nth 0 (split "." net_sta) "" in
               let sta := nth 1 (split "." net_sta) "" in
               opt_match net network_pat &&
               opt_match sta station_pat &&
               opt_match inst instrument_pat) streams in
  StreamCollection_init h sel true true None None None.

Fixpoint foldM {A B : Type} (f : A -> B -> result A) (l : list B) (a : A)
  : result A :=
  match l with
  | [] => Ok a
  | x :: r => a' <- f a x ;; foldM f r a'
  end.

Definition fail_stream (reason : string) (h : Heap) (st : StationStream) : Heap :=
  fold_left (fun h' r => heap_set h' r (fail (h' r) "select_colocated" reason))
            (traces st) h.

(** The loop over [preference]: the first instrument code of the group
    matched by the first pattern that matches any. *)
Fixpoint first_preferred (preference group_insts : list string) : option string :=
  match preference with
  | [] => None
  | pref :: rest =>
      match filter (re_match (slice02 pref)) group_insts with
      | keep :: _ => Some keep
      | [] => first_preferred rest group_insts
      end
  end.

(** [l.remove(x)] on a list of strings. *)
Fixpoint str_remove (x : string) (l : list string) : list string :=
  match l with
  | [] => []
  | y :: r => if String.eqb y x then r else y :: str_remove x r
  end.

Definition no_match_reason : string :=
  "No instruments match entries in the colocated instrument preference list for this station.".

Definition colocated_group (streams : list StationStream)
    (preference : list string) (h : Heap) (group : list nat) : result Heap :=
  if (1 <? List.length group)%nat then
    let group_insts :=
      map (fun g => get_inst h (nth g streams (new_stream []))) group in
    match first_preferred preference group_insts with
    | Some keep =>
        let to_fail := str_remove keep group_insts in
        foldM (fun h' tf =>
                 sel <- select h' streams None None (Some tf) ;;
                 Ok (fold_left
                       (fail_stream ("Colocated with " ++ keep ++ " instrument."))
                       (snd sel) (fst sel)))
              to_fail h
    | None =>
        Ok (fold_left (fun h' g =>
                         fail_stream no_match_reason h' (nth g streams (new_stream [])))
                      group h)
    end
  else Ok h.

(** [StreamCollection.select_colocated]. *)
Definition select_colocated (h : Heap) (streams : list StationStream)
    (preference : list string) : result Heap :=
  let groups :=
    match_list (fun stream1 stream2 =>
                  String.eqb (get_net_sta h stream1) (get_net_sta h stream2))
               streams in
  foldM (colocated_group streams preference) groups h.

End Engine.

(** * Further parts of the sources *)

(** ** The parameter store of a trace ([gmprocess/stationtrace.py]) *)

(** [StationTrace.getParameterKeys]. *)
Definition getParameterKeys (tr : StationTrace) : list string :=
  map fst (parameters tr).

(** [StationTrace.getParameter]; [KeyError] when the key is not set. *)
Definition getParameter (tr : StationTrace) (param_id : string) : result pyvalue :=
  match dict_get param_id (parameters tr) with
  | Some param_attributes => Ok param_attributes
  | None => Raise KeyError
  end.

(** ** Python objects held in dictionaries of mixed type *)

(** The values found in [stats.standard] and in the attributes of a
    provenance entry: a [str], a [float] ([None] is [nan]), an [int], a
    [UTCDateTime] (seconds from the epoch), or [None]. *)
Inductive pyobj : Type :=
| PyStr (s : string)
| PyFloat (x : option Q)
| PyInt (n : Z)
| PyTime (t : Z)
| PyNone.

(** [d.pop(k, None)], for its effect on [d]. *)
Definition dict_pop {V : Type} (k : string) (d : dict V) : dict V :=
  filter (fun p => negb (String.eqb (fst p) k)) d.

(** ** The provenance of a trace

    [self.provenance], the one attribute of the trace these methods read and
    write, is passed to them and returned. *)

(** An entry: [{'prov_id': ..., 'prov_attributes': ...}]. *)
Record provdict : Type := mkProv {
  prov_id : string;
  prov_attributes : dict pyobj
}.

(** [StationTrace.setProvenance]. *)
Definition setProvenance (provenance : list provdict) (id : string)
    (attributes : dict pyobj) : list provdict :=
  provenance ++ [mkProv id attributes].

(** [StationTrace.getProvenanceKeys]. *)
Definition getProvenanceKeys (provenance : list provdict) : list string :=
  match provenance with
  | [] => []
  | _ => map prov_id provenance
  end.

(** [StationTrace.getProvenance]. *)
Definition getProvenance (provenance : list provdict) (id : string)
  : list (dict pyobj) :=
  match provenance with
  | [] => []
  | _ => map prov_attributes
           (filter (fun provdict => String.eqb (prov_id provdict) id) provenance)
  end.

(** [StationTrace.getAllProvenance]. *)
Definition getAllProvenance (provenance : list provdict) : list provdict :=
  provenance.

(** ** Validation of a trace *)

Definition PROCESS_LEVELS : dict string :=
  [("V0", "raw counts");
   ("V1", "uncorrected physical units");
   ("V2", "corrected physical units");
   ("V3", "derived time series")].

(** The types named in [STANDARD_KEYS], and the defaults: a string, [nan],
    or the list of the values of [PROCESS_LEVELS]. *)
Inductive pytype : Type := py_str | py_float.

Inductive pydefault : Type :=
| default_str (s : string)
| default_nan
| default_list (l : list string).

Record keydict : Type := mkKey {
  key_type : pytype;
  key_required : bool;
  key_default : pydefault
}.

(** The module-level table [STANDARD_KEYS], as the module defines it. *)
Definition STANDARD_KEYS : dict keydict :=
  [("source_file", mkKey py_str false (default_str ""));
   ("source", mkKey py_str true (default_str ""));
   ("horizontal_orientation", mkKey py_float false default_nan);
   ("station_name", mkKey py_str false (default_str ""));
   ("instrument_period", mkKey py_float false default_nan);
   ("instrument_damping", mkKey py_float false default_nan);
   ("process_time", mkKey py_str false (default_str ""));
   ("process_level", mkKey py_str true (default_list (map snd PROCESS_LEVELS)));
   ("sensor_serial_number", mkKey py_str false (default_str ""));
   ("instrument", mkKey py_str false (default_str ""));
   ("structure_type", mkKey py_str false (default_str ""));
   ("corner_frequency", mkKey py_float false default_nan);
   ("units", mkKey py_str true (default_str ""));
   ("source_format", mkKey py_str true (default_str ""));
   ("instrument_sensitivity", mkKey py_float false default_nan);
   ("comments", mkKey py_str false (default_str ""))].

(** What [StationTrace.validate] reads of a trace: [stats.npts], [data] and
    [stats.standard], the latter as the dictionary it is. *)
Record TraceHeader : Type := mkHeader {
  header_npts : Z;
  header_data : list Q;
  header_standard : dict pyobj
}.

(** [isinstance(value, vtype)]. *)
Definition isinstance (value : pyobj) (vtype : pytype) : bool :=
  match value, vtype with
  | PyStr _, py_str => true
  | PyFloat _, py_float => true
  | _, _ => false
  end.

(** [value == default]: [nan] equals nothing, and a list equals none of the
    values of [pyobj]. *)
Definition equals_default (value : pyobj) (default : pydefault) : bool :=
  match value, default with
  | PyStr s, default_str d => String.eqb s d
  | _, _ => false
  end.

(** [value in default], for a default that is a list of strings. *)
Definition in_default (value : pyobj) (default : list string) : bool :=
  match value with
  | PyStr s => str_in s default
  | _ => false
  end.

(** [value == PROCESS_LEVELS['V3']]. *)
Definition is_V3 (value : pyobj) : bool :=
  match value with
  | PyStr s => String.eqb s "derived time series"
  | _ => false
  end.

(** One round of the loop over the required keys: the key is added to
    [type_errors] and to [required_errors] as the checks fail. *)
Definition check_key (standard : dict pyobj) (acc : list string * list string)
    (entry : string * keydict) : result (list string * list string) :=
  let '(type_errors, required_errors) := acc in
  let '(key, keydict) := entry in
  match dict_get key standard with
  | None => Raise KeyError
  | Some value =>
      let type_errors :=
        if negb (isinstance value (key_type keydict))
        then type_errors ++ [key] else type_errors in
      let required_errors :=
        if key_required keydict then
          let required_errors :=
            match key_default keydict with
            | default_list l =>
                if negb (in_default value l)
                then required_errors ++ [key] else required_errors
            | _ => required_errors
            end in
          if equals_default value (key_default keydict)
          then required_errors ++ [key] else required_errors
        else required_errors in
      Ok (type_errors, required_errors)
  end.

(** [StationTrace.validate]. [standard_keys] is the module-level table when
    the method is called; the table it leaves is returned with the outcome,
    since the method removes ['units'] from it for a trace of level V3. *)
Definition StationTrace_validate (standard_keys : dict keydict) (tr : TraceHeader)
  : dict keydict * result unit :=
  match dict_get "process_level" (header_standard tr) with
  | None => (standard_keys, Raise KeyError)
  | Some level =>
      if negb (is_V3 level) &&
         negb (Z.eqb (header_npts tr) (Z.of_nat (List.length (header_data tr))))
      then (standard_keys, Raise ValueError)
      else
        let standard_keys :=
          if is_V3 level then dict_pop "units" standard_keys else standard_keys in
        (standard_keys,
         if negb (forallb (fun key => dict_has key (header_standard tr))
                          (map fst standard_keys))
         then Raise KeyError
         else
           errors <- foldM (check_key (header_standard tr)) standard_keys ([], []) ;;
           if (0 <? List.length (fst errors))%nat || (0 <? List.length (snd errors))%nat
           then Raise KeyError
           else Ok tt)
  end.

(** ** Other methods of the collection *)

(** [StreamCollection.n_passed] and [StreamCollection.n_failed]. *)
Definition n_passed (h : Heap) (streams : list StationStream) : nat :=
  List.length (filter (passed h) streams).

Definition n_failed (h : Heap) (streams : list StationStream) : nat :=
  List.length streams - n_passed h streams.

Section Constructors.
Variable gps2dist_azimuth : Q -> Q -> Q -> Q -> result Q.
Variable config : DuplicateConfig.

(** [StreamCollection.from_traces]: one stream per trace, and the
    constructor with its default arguments. *)
Definition from_traces (h : Heap) (trs : list ref)
  : result (Heap * list StationStream) :=
  let streams := map (fun tr => new_stream [tr]) trs in
  StreamCollection_init gps2dist_azimuth config h streams true true None None None.

End Constructors.

(** ** The report ([gmprocess/report.py]) *)

(** [s.replace(old, new)] for an [old] of one character. *)
Fixpoint replace (old : ascii) (new s : string) : string :=
  match s with
  | EmptyString => EmptyString
  | String c r =>
      if Ascii.eqb c old then (new ++ replace old new r)%string
      else String c (replace old new r)
  end.

(** [str_for_latex]. *)
Definition str_for_latex (string : string) : String.string :=
  let string := replace "_" "\_" string in
  let string := replace "$" "\$" string in
  let string := replace "&" "\&" string in
  let string := replace "%" "\%" string in
  let string := replace "#" "\#" string in
  let string := replace "}" "\}" string in
  let string := replace "{" "\{" string in
  let string := replace "~" "\textasciitilde " string in
  let string := replace "^" "\textasciicircum " string in
  string.

(** ** The provenance document of a trace ([gmprocess/stationtrace.py]) *)

(** [ACTIVITIES]: the code and the label of every processing step. *)
Definition ACTIVITIES : dict (string * string) :=
  [("waveform_simulation", ("ws", "Waveform Simulation"));
   ("taper", ("tp", "Taper"));
   ("stack_cross_correlations", ("sc", "Stack Cross Correlations"));
   ("simulate_response", ("sr", "Simulate Response"));
   ("rotate", ("rt", "Rotate"));
   ("resample", ("rs", "Resample"));
   ("remove_response", ("rr", "Remove Response"));
   ("pad", ("pd", "Pad"));
   ("normalize", ("nm", "Normalize"));
   ("multiply", ("nm", "Multiply"));
   ("merge", ("mg", "Merge"));
   ("lowpass_filter", ("lp", "Lowpass Filter"));
   ("interpolate", ("ip", "Interpolate"));
   ("integrate", ("ig", "Integrate"));
   ("highpass_filter", ("hp", "Highpass Filter"));
   ("divide", ("dv", "Divide"));
   ("differentiate", ("df", "Differentiate"));
   ("detrend", ("dt", "Detrend"));
   ("decimate", ("dc", "Decimate"));
   ("cut", ("ct", "Cut"));
   ("cross_correlate", ("co", "Cross Correlate"));
   ("calculate_adjoint_source", ("ca", "Calculate Adjoint Source"));
   ("bandstop_filter", ("bs", "Bandstop Filter"));
   ("bandpass_filter", ("bp", "Bandpass Filter"))].

(** ['%i' % n], for [n] that is not negative. *)
Definition str_of_nat (n : nat) : string :=
  NilEmpty.string_of_uint (Nat.to_uint n).

Fixpoint zeros (n : nat) : string :=
  match n with
  | O => EmptyString
  | S m => String "0" (zeros m)
  end.

(** ['%0<width>i' % n], for [n] that is not negative. *)
Definition zero_padded (width n : nat) : string :=
  (zeros (width - String.length (str_of_nat n)) ++ str_of_nat n)%string.

(** What the [prov] package holds as the value of an attribute: a
    [Literal] with its datatype, a [QualifiedName], or a Python object. *)
Inductive prov_value : Type :=
| Literal (value : pyobj) (datatype : string)
| QualifiedName (namespace localpart : string)
| Plain (value : pyobj).

Inductive prov_kind : Type := prov_agent | prov_entity | prov_activity.

(** A record of a [ProvDocument]; the document is the list of its records,
    in the order they were added. *)
Record prov_record : Type := mkRecord {
  record_kind : prov_kind;
  record_id : string;
  record_attributes : list (string * prov_value)
}.

Definition ProvDocument : Type := list prov_record.

Section Provenance.
(** [getpass.getuser()], the ['user'] section of [get_config()] when there
    is one, [get_versions()['version']], and [UTCDateTime.strftime] with
    [TIMEFMT]. *)
Variable username : string.
Variable config_user : option (dict string).
Variable version : string.
Variable strftime : Z -> string.

(** [_get_software_agent]. *)
Definition get_software_agent (pr : ProvDocument) : ProvDocument :=
  let software := "gmprocess" in
  let hashstr := "0000001" in
  let agent_id := ("seis_prov:sp001_sa_" ++ hashstr)%string in
  let giturl := "https://github.com/usgs/groundmotion-processing" in
  pr ++ [mkRecord prov_agent agent_id
           [("prov:label", Plain (PyStr software));
            ("prov:type", QualifiedName "prov" "SoftwareAgent");
            ("seis_prov:software_name", Plain (PyStr software));
            ("seis_prov:software_version", Plain (PyStr version));
            ("seis_prov:website", Literal (PyStr giturl) "xsd:anyURI")]].

(** [_get_person_agent]. *)
Definition get_person_agent (pr : ProvDocument) : ProvDocument :=
  let fullname :=
    match config_user with
    | Some user => match dict_get "name" user with Some n => n | None => "" end
    | None => ""
    end in
  let email :=
    match config_user with
    | Some user => match dict_get "email" user with Some e => e | None => "" end
    | None => ""
    end in
  let hashstr := "0000001" in
  let person_id := ("seis_prov:sp001_pp_" ++ hashstr)%string in
  pr ++ [mkRecord prov_agent person_id
           [("prov:label", Plain (PyStr username));
            ("prov:type", QualifiedName "prov" "Person");
            ("seis_prov:name", Plain (PyStr fullname));
            ("seis_prov:email", Plain (PyStr email))]].

(** [_get_waveform_entity]. *)
Definition get_waveform_entity (trace : StationTrace) (pr : ProvDocument)
  : ProvDocument :=
  let waveform_hash :=
    (lower (network (stats trace)) ++ "_" ++ lower (station (stats trace)) ++ "_"
     ++ lower (channel (stats trace)))%string in
  let waveform_id := ("seis_prov:sp001_wf_" ++ waveform_hash)%string in
  pr ++ [mkRecord prov_entity waveform_id
           [("prov:label", Plain (PyStr "Waveform Trace"));
            ("prov:type", Plain (PyStr "seis_prov:waveform_trace"))]].

(** The identifier [_get_activity] gives: ['sp%03i_%s_%s'] of the sequence
    number, the code and ['%07i'] of the sequence number. *)
Definition activity_id (sequence : nat) (code : string) : string :=
  ("sp" ++ zero_padded 3 sequence ++ "_" ++ code ++ "_"
   ++ zero_padded 7 sequence)%string.

(** [_get_activity]; [KeyError] for an activity that is not in
    [ACTIVITIES]. *)
Definition get_activity (pr : ProvDocument) (activity : string)
    (attributes : dict pyobj) (sequence : nat) : result ProvDocument :=
  match dict_get activity ACTIVITIES with
  | None => Raise KeyError
  | Some (code, label) =>
      let pr_attributes :=
        [("prov:label", Plain (PyStr label));
         ("prov:type", Plain (PyStr ("seis_prov:" ++ activity)%string))]
        ++ map (fun kv =>
                  let value :=
                    match snd kv with
                    | PyFloat x => Literal (PyFloat x) "xsd:double"
                    | PyInt n => Literal (PyInt n) "xsd:int"
                    | PyTime t => Literal (PyStr (strftime t)) "xsd:dateTime"
                    | other => Plain other
                    end in
                  (("seis_prov:" ++ fst kv)%string, value))
               attributes in
      Ok (pr ++ [mkRecord prov_activity
                   ("seis_prov:" ++ activity_id sequence code)%string
                   pr_attributes])
  end.

(** The loop of [getProvenanceDocument] over the provenance. *)
Fixpoint add_activities (pr : ProvDocument) (sequence : nat)
    (provenance : list provdict) : result ProvDocument :=
  match provenance with
  | [] => Ok pr
  | provdict :: rest =>
      if negb (dict_has (prov_id provdict) ACTIVITIES)
      then add_activities pr sequence rest
      else
        pr' <- get_activity pr (prov_id provdict) (prov_attributes provdict)
                 sequence ;;
        add_activities pr' (S sequence) rest
  end.

(** [StationTrace.getProvenanceDocument]. *)
Definition getProvenanceDocument (tr : StationTrace) (provenance : list provdict)
  : result ProvDocument :=
  let pr := [] in
  let pr := get_person_agent pr in
  let pr := get_software_agent pr in
  let pr := get_waveform_entity tr pr in
  add_activities pr 1 (getAllProvenance provenance).

End Provenance.

(** ** The table of the provenance *)

(** The columns [getProvDataFrame] makes its DataFrame of. *)
Record ProvDataFrame : Type := mkFrame {
  column_Index : list nat;
  column_Process_Step : list string;
  column_Process_Attribute : list string;
  column_Process_Value : list string
}.

Section ProvenanceTable.
(** [str(value)], and [value.datetime.strftime('%Y-%m-%d %H:%M:%S')] for a
    [UTCDateTime]. *)
Variable str : pyobj -> string.
Variable strftime : Z -> string.

(** One round of the loop of [getProvDataFrame] over the provenance;
    [KeyError] for an activity that is not in [ACTIVITIES]. *)
Definition frame_step (acc : ProvDataFrame * nat) (activity : provdict)
  : result (ProvDataFrame * nat) :=
  let '(df, index) := acc in
  let provid := prov_id activity in
  match dict_get provid ACTIVITIES with
  | None => Raise KeyError
  | Some (_, provstep) =>
      let prov_attrs := prov_attributes activity in
      let steps := column_Process_Step df ++ repeat provstep (List.length prov_attrs) in
      let indices := column_Index df ++ repeat index (List.length prov_attrs) in
      let attributes := column_Process_Attribute df ++ map fst prov_attrs in
      let values :=
        column_Process_Value df
        ++ map (fun kv => match snd kv with
                          | PyTime t => str (PyStr (strftime t))
                          | value => str value
                          end) prov_attrs in
      Ok (mkFrame indices steps attributes values, S index)
  end.

(** [StationTrace.getProvDataFrame]. *)
Definition getProvDataFrame (provenance : list provdict) : result ProvDataFrame :=
  acc <- foldM frame_step (getAllProvenance provenance) (mkFrame [] [] [] [], 0%nat) ;;
  Ok (fst acc).

End ProvenanceTable.

(** * Definitions used to state the properties *)

(** ** Ranks in the preference lists *)

(** The rank of a trace's process level, and of its source format, in the
    preference lists. *)
Definition level_rank (process_level_preference : list string)
    (tr : StationTrace) (i : nat) : Prop :=
  exists level,
    REV_PROCESS_LEVELS (process_level (standard (stats tr))) = Ok level /\
    index level process_level_preference = Ok i.

Definition format_rank (format_preference : list string)
    (tr : StationTrace) (j : nat) : Prop :=
  index (source_format (standard (stats tr))) format_preference = Ok j.

(** ** Classes of an equivalence given as a boolean test *)

Section ClassesOf.
Variable A : Type.
Variable same : A -> A -> bool.

(** The first element of every class, in order of appearance. *)
Fixpoint leaders (seen l : list A) : list A :=
  match l with
  | [] => []
  | x :: r =>
      if existsb (same x) seen then leaders seen r
      else x :: leaders (x :: seen) r
  end.

(** The classes of [l], in order of first appearance, each in the order
    of [l]. *)
Definition classes (l : list A) : list (list A) :=
  map (fun x => filter (same x) l) (leaders [] l).

(** The positions in [l] of the elements of the class of [x]. *)
Definition positions (l : list A) (x : A) : list nat :=
  map fst (filter (fun p => same x (snd p)) (enumerate l)).

(** Adding one element at the end: it joins the first class whose first
    member it matches, or starts a class of its own. *)
Fixpoint insert_class (y : A) (cs : list (list A)) : list (list A) :=
  match cs with
  | [] => [[y]]
  | c :: r =>
      if same (hd y c) y then (c ++ [y]) :: r else c :: insert_class y r
  end.

Definition heads (M : list (list A)) : list A :=
  flat_map (fun m => match m with [] => [] | x :: _ => [x] end) M.

(** [M] is a list of non-empty blocks, each within one class, no two in
    the same class. *)
Definition blocks (M : list (list A)) : Prop :=
  Forall (fun m => m <> [] /\
                   forall x y, In x m -> In y m -> same x y = true) M /\
  ForallOrdPairs
    (fun m m' => forall x y, In x m -> In y m' -> same x y = false) M.

End ClassesOf.

Arguments leaders {A} same seen l.
Arguments classes {A} same l.
Arguments positions {A} same l x.
Arguments insert_class {A} same y cs.
Arguments heads {A} M.
Arguments blocks {A} same M.

(** ** Heaps, clusters and groups *)

Definition agree (h h' : Heap) : Prop :=
  forall r, exists t, h' r = set_tag (h r) t.

Definition same_location (h : Heap) (r1 r2 : ref) : bool :=
  String.eqb (location (stats (h r1))) (location (stats (h r2))).

Definition uses_location (h : Heap) (r : ref) : bool :=
  str_in (network (stats (h r))) NETWORKS_USING_LOCATION.

(** The members of the streams [split_station] makes of a cluster. *)
Definition split_traces (h : Heap) (c : list ref) : list (list ref) :=
  if uses_location h (hd 0%nat c) then classes (same_location h) c else [c].

(** The members of the streams the grouping engine makes of a list of
    traces. *)
Definition grouped_traces (h : Heap) (trace_list : list ref) : list (list ref) :=
  List.concat (map (split_traces h) (classes (same_net_sta_inst h) trace_list)).

(** The dictionary [split_station] builds, as a list of classes. *)
Definition location_dict (h : Heap) (cs : list (list ref)) : dict StationStream :=
  map (fun c => (location (stats (h (hd 0%nat c))), new_stream c)) cs.

(** The tag a stream stamps on its traces: its own, or the empty string. *)
Definition stream_tag_string (s : StationStream) : string :=
  match st_tag s with Some t => t | None => "" end.

(** What a stream of the deduplicated collection carries over from the
    group of [streams] that its first trace comes from. *)
Definition carries (streams : list StationStream) (st s : StationStream) : Prop :=
  In s streams /\ In (hd 0%nat (traces st)) (traces s) /\
  st_parameters st = st_parameters s /\ st_tag st = st_tag s.

(** [x] is compared with [y] and found not to be a duplicate of it. *)
Definition distinct_from (gps2dist_azimuth : Q -> Q -> Q -> Q -> result Q)
    (h : Heap) (max_dist_tolerance : Q) (y x : ref) : Prop :=
  are_duplicates gps2dist_azimuth (h x) (h y) max_dist_tolerance = Ok false.

(** ** What the validation of a trace asks for *)

(** The requirement an entry of [STANDARD_KEYS] puts on the value of its
    key: the type, and for a required key a value that is not the default
    (one of the listed values, when the default is a list). *)
Definition meets_key (value : pyobj) (k : keydict) : Prop :=
  isinstance value (key_type k) = true /\
  (key_required k = true ->
   match key_default k with
   | default_str d => value <> PyStr d
   | default_list l => exists s, value = PyStr s /\ In s l
   | default_nan => True
   end).

(** The requirements of [StationTrace.validate], for the table it is
    called with: the process level is given; [npts] is the length of the
    data unless the level is V3; and every key of the table (but ['units'],
    when the level is V3) has a value that meets its entry. *)
Definition accepted (standard_keys : dict keydict) (tr : TraceHeader) : Prop :=
  exists level,
    dict_get "process_level" (header_standard tr) = Some level /\
    (is_V3 level = false ->
     header_npts tr = Z.of_nat (List.length (header_data tr))) /\
    forall key k,
      In (key, k) (if is_V3 level then dict_pop "units" standard_keys
                   else standard_keys) ->
      exists value,
        dict_get key (header_standard tr) = Some value /\ meets_key value k.

(** ** Strings *)

(** [pat] occurs in [s]. *)
Definition contains (pat s : string) : Prop :=
  exists before after_, s = (before ++ pat ++ after_)%string.

(** The number of occurrences of a character. *)
Fixpoint count_char (c : ascii) (s : string) : nat :=
  match s with
  | EmptyString => 0
  | String x r => (if Ascii.eqb x c then 1 else 0) + count_char c r
  end.

(** The four codes that name a channel. *)
Definition channel_codes (tr : StationTrace)
  : string * string * string * string :=
  (network (stats tr), station (stats tr), location (stats tr),
   channel (stats tr)).

(** No dot in the network, station and location codes of a trace: the codes
    can then be read back from its identifier. *)
Definition dot_free (tr : StationTrace) : bool :=
  Nat.eqb (count_char "." (network (stats tr))) 0 &&
  Nat.eqb (count_char "." (station (stats tr))) 0 &&
  Nat.eqb (count_char "." (location (stats tr))) 0.

(** The characters in which [re] reads an operator. *)
Definition regex_special (c : ascii) : bool :=
  existsb (Ascii.eqb c) (list_ascii_of_string ".^$*+?{}[]\|()").

(** A regular expression made of literal characters only: it matches the
    strings that start with it, and [re_match] is what [re] computes. *)
Fixpoint regex_literal (pat : string) : bool :=
  match pat with
  | EmptyString => true
  | String c r => negb (regex_special c) && regex_literal r
  end.

(** A pattern for [fnmatch] made of literal characters only. *)
Fixpoint literal (pat : string) : bool :=
  match pat with
  | EmptyString => true
  | String c r =>
      negb (Ascii.eqb c "*") && negb (Ascii.eqb c "?") &&
      negb (Ascii.eqb c "[") && literal r
  end.

(** ** Heaps that differ in failures *)

(** From [h] to [h'] traces were failed and tags stamped, and nothing else
    was done: every trace has its data, its header but for the tag, and its
    parameters but for ['failure']; and a trace that had failed still has. *)
Definition fails_more (h h' : Heap) : Prop :=
  forall r,
    (exists t, stats (h' r) = stats (set_tag (h r) t)) /\
    data (h' r) = data (h r) /\
    (forall param_id, param_id <> "failure" ->
       dict_get param_id (parameters (h' r))
       = dict_get param_id (parameters (h r))) /\
    (hasParameter (h r) "failure" = true ->
     hasParameter (h' r) "failure" = true).

(** ** Escaping for LaTeX, character by character *)

Definition latex_char (c : ascii) : string :=
  if Ascii.eqb c "_" then "\_"
  else if Ascii.eqb c "$" then "\$"
  else if Ascii.eqb c "&" then "\&"
  else if Ascii.eqb c "%" then "\%"
  else if Ascii.eqb c "#" then "\#"
  else if Ascii.eqb c "}" then "\}"
  else if Ascii.eqb c "{" then "\{"
  else if Ascii.eqb c "~" then "\textasciitilde "
  else if Ascii.eqb c "^" then "\textasciicircum "
  else String c EmptyString.

Fixpoint string_flat_map (f : ascii -> string) (s : string) : string :=
  match s with
  | EmptyString => EmptyString
  | String c r => (f c ++ string_flat_map f r)%string
  end.

(** ** The activities of a provenance document *)

(** The entries of the provenance a document has an activity for. *)
Definition known_activities (provenance : list provdict) : list provdict :=
  filter (fun provdict => dict_has (prov_id provdict) ACTIVITIES) provenance.

Definition activity_code (provdict : provdict) : string :=
  match dict_get (prov_id provdict) ACTIVITIES with
  | Some (code, _) => code
  | None => ""
  end.

(** The identifiers of activities numbered from [sequence] on. *)
Fixpoint numbered (sequence : nat) (known : list provdict) : list string :=
  match known with
  | [] => []
  | provdict :: rest =>
      ("seis_prov:" ++ activity_id sequence (activity_code provdict))%string
      :: numbered (S sequence) rest
  end.

Definition is_digit (c : ascii) : bool :=
  (48 <=? nat_of_ascii c)%nat && (nat_of_ascii c <=? 57)%nat.

Fixpoint digits_only (s : string) : bool :=
  match s with
  | EmptyString => true
  | String c r => is_digit c && digits_only r
  end.

(** The number a string of digits stands for. *)
Definition number_of (s : string) : nat :=
  match NilEmpty.uint_of_string s with
  | Some d => Nat.of_uint d
  | None => 0
  end.

(** ** Example data *)

(** The traces of the examples: everything but the fields named is fixed. *)
Definition example_trace (net sta loc cha : string) (lat : Q)
    (level fmt stype : string) (start n : Z) (rate : Q) : StationTrace :=
  mkTrace (mkStats net sta loc cha start n rate (mkCoordinates lat 0)
                   (mkStandard level fmt stype "") "")
          [] [].

Definition raw_cosmos : StationTrace :=
  example_trace "NP" "1737" "" "HNZ" 0 "raw counts" "cosmos" "" 10 1000 100.

Definition raw_smc : StationTrace :=
  example_trace "NP" "1737" "" "HNZ" 0 "raw counts" "smc" "" 10 2000 200.

Definition tie_a : StationTrace :=
  example_trace "NP" "1737" "" "HNZ" 0 "raw counts" "cosmos" "" 10 1000 100.

Definition tie_b : StationTrace :=
  example_trace "CE" "1737" "" "HNZ" 0 "raw counts" "cosmos" "" 20 1000 100.

Definition better_level : StationTrace :=
  example_trace "NP" "1737" "" "HNZ" 0 "corrected physical units" "smc" "" 10 1000 100.

Definition far_copy : StationTrace :=
  example_trace "NP" "1737" "" "HNZ" 45 "raw counts" "cosmos" "" 10 1000 100.

(** Two channels of different codes, far apart, whose identifiers are one
    string, ["A.B.C..HNZ"]. *)
Definition dotted_network : StationTrace :=
  example_trace "A.B" "C" "" "HNZ" 0 "raw counts" "cosmos" "" 10 1000 100.

Definition dotted_station : StationTrace :=
  example_trace "A" "B.C" "" "HNZ" 45 "raw counts" "cosmos" "" 10 1000 100.

(** A distance used to run the examples: zero between equal coordinates and
    a hundred kilometres between any others. *)
Definition example_gps2dist (lat1 lon1 lat2 lon2 : Q) : result Q :=
  Ok (if Qeq_bool lat1 lat2 && Qeq_bool lon1 lon2 then 0%Q else 100000%Q).

Definition example_config : DuplicateConfig :=
  mkConfig 500%Q ["V2"; "V1"; "V0"] ["cosmos"; "dmg"].

Definition tagged (trs : list ref) (t : string) : StationStream :=
  mkStream trs [] (Some t).

(** The four traces of the scenario: a network that uses the location code,
    one station and instrument, two locations. *)
Definition reclamation_heap : Heap :=
  fun r =>
    match r with
    | 0%nat => example_trace "RE" "GLEN" "10" "HNZ" 37 "raw counts" "cosmos" "" 10 1000 100
    | 1%nat => example_trace "RE" "GLEN" "20" "HNZ" 37 "raw counts" "cosmos" "" 10 1000 100
    | 2%nat => example_trace "RE" "GLEN" "10" "HNE" 37 "raw counts" "cosmos" "" 10 1000 100
    | _ => example_trace "RE" "GLEN" "20" "HNE" 37 "raw counts" "cosmos" "" 10 1000 100
    end.

Definition reclamation_streams : list StationStream :=
  [new_stream [0%nat]; new_stream [1%nat]; new_stream [2%nat]; new_stream [3%nat]].

(** Three recordings of one channel of station 1737: a raw one under network
    NP with coordinates one degree off, one under network CE, and a corrected
    one under NP at the site of the CE one. *)
Definition dup_heap : Heap :=
  fun r =>
    match r with
    | 0%nat => example_trace "NP" "1737" "" "HNZ" 38 "raw counts" "cosmos" "" 10 1000 100
    | 1%nat => example_trace "CE" "1737" "" "HNZ" 37 "raw counts" "cosmos" "" 10 1000 100
    | _ => example_trace "NP" "1737" "" "HNZ" 37 "corrected physical units" "cosmos" "" 10 1000 100
    end.

Definition dup_streams : list StationStream :=
  [new_stream [0%nat]; new_stream [1%nat]; new_stream [2%nat]].

Definition params_one : dict pyvalue := [("review", [("status", "accepted")])].
Definition params_two : dict pyvalue := [("review", [("status", "rejected")])].

(** The two groups the grouping engine makes of the four traces of
    [reclamation_heap], one per location, each with parameters of its own. *)
Definition reclamation_groups : list StationStream :=
  [mkStream [0%nat; 2%nat] params_one (Some "evt_GLEN_lab");
   mkStream [1%nat; 3%nat] params_two (Some "evt_GLEN_lab")].

(** A free-field sensor and a sensor in a building at one station. *)
Definition site_heap : Heap :=
  fun r =>
    match r with
    | 0%nat => example_trace "NP" "1737" "" "HNZ" 37 "raw counts" "cosmos" "" 10 1000 100
    | _ => example_trace "NP" "1737" "" "HNE" 37 "raw counts" "cosmos" "Building" 10 1000 100
    end.

Definition site_groups : list StationStream :=
  [mkStream [0%nat] params_one (Some "evt_1737_lab");
   mkStream [1%nat] params_two (Some "evt_1737_lab")].

(** Station ST01 has an accelerometer (HN) and a broadband (BN) group;
    station ST02 has a BN group only. *)
Definition colocated_heap : Heap :=
  fun r =>
    match r with
    | 0%nat => example_trace "NP" "ST01" "" "HNZ" 37 "raw counts" "cosmos" "" 10 1000 100
    | 1%nat => example_trace "NP" "ST01" "" "BNZ" 37 "raw counts" "cosmos" "" 10 1000 100
    | _ => example_trace "NP" "ST02" "" "BNZ" 38 "raw counts" "cosmos" "" 10 1000 100
    end.

Definition colocated_streams : list StationStream :=
  [new_stream [0%nat]; new_stream [1%nat]; new_stream [2%nat]].

Definition colocated_failure (inst : string) : dict pyvalue :=
  [("failure", [("module", "select_colocated");
                ("reason", ("Colocated with " ++ inst ++ " instrument.")%string)])].

(** A raw and a corrected recording of one channel. *)
Definition levels_heap : Heap :=
  fun r =>
    match r with
    | 0%nat => example_trace "NP" "1737" "" "HNZ" 37 "raw counts" "cosmos" "" 10 1000 100
    | _ => example_trace "NP" "1737" "" "HNZ" 37 "corrected physical units" "cosmos" "" 10 1000 100
    end.

(** One station with an HN group of two traces and a BN group of one. *)
Definition pair_heap : Heap :=
  fun r =>
    match r with
    | 0%nat => example_trace "NP" "ST01" "" "HNZ" 37 "raw counts" "cosmos" "" 10 1000 100
    | 1%nat => example_trace "NP" "ST01" "" "HNE" 37 "raw counts" "cosmos" "" 10 1000 100
    | _ => example_trace "NP" "ST01" "" "BNZ" 37 "raw counts" "cosmos" "" 10 1000 100
    end.

Definition pair_streams : list StationStream :=
  [new_stream [0%nat; 1%nat]; new_stream [2%nat]].

(** The same two groups, each with a tag and parameters of its own. *)
Definition pair_groups : list StationStream :=
  [mkStream [0%nat; 1%nat] params_one (Some "evt_ST01_lab");
   mkStream [2%nat] params_two (Some "evt_ST01_lab")].

(** A [stats.standard] with every key of [STANDARD_KEYS] but ['units'], and
    the same with ['units']. *)
Definition standard_without_units (level : string) : dict pyobj :=
  [("source_file", PyStr "");
   ("source", PyStr "National Strong Motion Project");
   ("horizontal_orientation", PyFloat None);
   ("station_name", PyStr "");
   ("instrument_period", PyFloat None);
   ("instrument_damping", PyFloat None);
   ("process_time", PyStr "");
   ("process_level", PyStr level);
   ("sensor_serial_number", PyStr "");
   ("instrument", PyStr "");
   ("structure_type", PyStr "");
   ("corner_frequency", PyFloat None);
   ("source_format", PyStr "cosmos");
   ("instrument_sensitivity", PyFloat None);
   ("comments", PyStr "")].

Definition derived_header : TraceHeader :=
  mkHeader 3 [] (standard_without_units "derived time series").

Definition raw_header_without_units : TraceHeader :=
  mkHeader 2 [1%Q; 2%Q] (standard_without_units "raw counts").

Definition raw_header : TraceHeader :=
  mkHeader 2 [1%Q; 2%Q]
    (standard_without_units "raw counts" ++ [("units", PyStr "acc")]).

(** Two recordings of one channel that tie on every key of the cascade. *)
Definition tie_heap : Heap :=
  fun r =>
    match r with
    | 0%nat => tie_a
    | _ => tie_b
    end.

(** * Properties *)

(** ** Basic facts about the built-ins *)

Lemma Qlt_bool_iff (x y : Q) : Qlt_bool x y = true <-> (x < y)%Q.
Proof.
  unfold Qlt_bool. rewrite negb_true_iff. split; intro H.
  - apply Qnot_le_lt. intro Hle. apply Qle_bool_iff in Hle. congruence.
  - destruct (Qle_bool y x) eqn:E; [|reflexivity].
    apply Qle_bool_iff in E. exfalso. exact (Qlt_not_le _ _ H E).
Qed.

Lemma Qlt_bool_false_iff (x y : Q) : Qlt_bool x y = false <-> (y <= x)%Q.
Proof.
  unfold Qlt_bool. rewrite negb_false_iff. apply Qle_bool_iff.
Qed.

Lemma index_str_in (x : string) (l : list string) (n : nat) :
  index x l = Ok n -> str_in x l = true.
Proof.
  revert n. induction l as [|y r IH]; intros n H; simpl in *.
  - discriminate.
  - rewrite String.eqb_sym. destruct (String.eqb y x); [reflexivity|].
    destruct (index x r) as [m|e]; simpl in H; [|discriminate].
    simpl. apply (IH m). reflexivity.
Qed.

Lemma id_eqb_eq (i1 i2 : string) :
  id_eqb i1 i2 = true <-> i1 = i2.
Proof. apply String.eqb_eq. Qed.

(** ** The preference resolver *)

(** C2 (does not hold on the code): [choose_preferred] should return one of
    its two arguments whenever both process levels are in the preference
    list, whatever [format_preference] lists. At two traces of equal process
    level, one of whose source formats is not listed, it returns neither:
    the function ends without a [return] and yields [None]. *)
Theorem choose_preferred_unlisted_format_returns_None :
  index "V0" ["V2"; "V1"; "V0"] = Ok 2%nat /\
  REV_PROCESS_LEVELS (process_level (standard (stats raw_cosmos))) = Ok "V0" /\
  REV_PROCESS_LEVELS (process_level (standard (stats raw_smc))) = Ok "V0" /\
  str_in (source_format (standard (stats raw_smc))) ["cosmos"; "dmg"] = false /\
  choose_preferred raw_cosmos raw_smc ["V2"; "V1"; "V0"] ["cosmos"; "dmg"] = Ok None /\
  choose_preferred raw_smc raw_cosmos ["V2"; "V1"; "V0"] ["cosmos"; "dmg"] = Ok None.
Proof. repeat split; reflexivity. Qed.

Section Cascade.
Variables tr1 tr2 : StationTrace.
Variables process_level_preference format_preference : list string.

Let start1 := starttime (stats tr1).
Let start2 := starttime (stats tr2).
Let npts1 := npts (stats tr1).
Let npts2 := npts (stats tr2).
Let rate1 := sampling_rate (stats tr1).
Let rate2 := sampling_rate (stats tr2).

(** The result of the last three stages. *)
Lemma choose_preferred_tied_ranks (i j : nat) :
  level_rank process_level_preference tr1 i -> level_rank process_level_preference tr2 i ->
  format_rank format_preference tr1 j -> format_rank format_preference tr2 j ->
  choose_preferred tr1 tr2 process_level_preference format_preference =
  Ok (Some
    (if Z.eqb start1 0 && negb (Z.eqb start2 0) then tr2
     else if negb (Z.eqb start1 0) && Z.eqb start2 0 then tr1
     else if (npts2 <? npts1)%Z then tr1
     else if (npts1 <? npts2)%Z then tr2
     else if Qlt_bool rate1 rate2 then tr2 else tr1)).
Proof.
  intros (l1 & Hl1 & Hi1) (l2 & Hl2 & Hi2) Hj1 Hj2.
  unfold format_rank in Hj1, Hj2. unfold choose_preferred.
  rewrite Hl1; cbn [bind]. rewrite Hi1; cbn [bind].
  rewrite Hl2; cbn [bind]. rewrite Hi2; cbn [bind].
  rewrite Nat.ltb_irrefl.
  rewrite (index_str_in _ _ _ Hj1), (index_str_in _ _ _ Hj2). cbn [andb].
  rewrite Hj1, Hj2; cbn [bind]. rewrite Nat.ltb_irrefl.
  subst start1 start2 npts1 npts2 rate1 rate2.
  repeat match goal with |- context [if ?c then _ else _] => destruct c end;
    reflexivity.
Qed.

(** C6: for two traces tied on process-level rank, with both source formats
    in [format_preference] and tied on format rank: a trace whose start
    time is the epoch loses to one whose start time is not; otherwise the
    larger sample count wins; otherwise the higher sampling rate wins; and
    on a full tie the first argument is returned. *)
Theorem choose_preferred_tie_break_cascade (i j : nat) :
  level_rank process_level_preference tr1 i -> level_rank process_level_preference tr2 i ->
  format_rank format_preference tr1 j -> format_rank format_preference tr2 j ->
  let chosen :=
    choose_preferred tr1 tr2 process_level_preference format_preference in
  (start1 = 0%Z -> start2 <> 0%Z -> chosen = Ok (Some tr2)) /\
  (start1 <> 0%Z -> start2 = 0%Z -> chosen = Ok (Some tr1)) /\
  ((start1 = 0%Z <-> start2 = 0%Z) ->
     ((npts1 > npts2)%Z -> chosen = Ok (Some tr1)) /\
     ((npts2 > npts1)%Z -> chosen = Ok (Some tr2)) /\
     (npts1 = npts2 ->
        ((rate1 > rate2)%Q -> chosen = Ok (Some tr1)) /\
        ((rate2 > rate1)%Q -> chosen = Ok (Some tr2)) /\
        ((rate1 == rate2)%Q -> chosen = Ok (Some tr1)))).
Proof.
  intros H1 H2 H3 H4 chosen. subst chosen.
  rewrite (choose_preferred_tied_ranks i j H1 H2 H3 H4).
  destruct (Z.eqb_spec start1 0) as [E1|E1], (Z.eqb_spec start2 0) as [E2|E2];
    cbn [andb negb].
  all: repeat split; intros; try tauto; try lia.
  all: repeat match goal with
         | |- context [(?a <? ?b)%Z] => destruct (Z.ltb_spec a b); try lia
         end.
  all: try reflexivity.
  all: match goal with
       | |- context [Qlt_bool ?a ?b] => destruct (Qlt_bool a b) eqn:EQ
       end; try reflexivity.
  all: try (apply Qlt_bool_iff in EQ); try (apply Qlt_bool_false_iff in EQ).
  all: exfalso.
  all: match goal with
       | H : (_ < _)%Q |- _ =>
           first [ exact (Qlt_not_le _ _ H EQ)
                 | exact (Qlt_irrefl _ (Qlt_trans _ _ _ H EQ)) ]
       | H : (_ == _)%Q |- _ =>
           rewrite H in EQ; exact (Qlt_irrefl _ EQ)
       end.
Qed.
End Cascade.

Lemma choose_preferred_tie_break_cascade_witness :
  choose_preferred tie_a tie_b ["V2"; "V1"; "V0"] ["cosmos"; "dmg"] = Ok (Some tie_a).
Proof.
  destruct (choose_preferred_tie_break_cascade tie_a tie_b
              ["V2"; "V1"; "V0"] ["cosmos"; "dmg"] 2 0) as (_ & _ & H).
  - exists "V0". split; reflexivity.
  - exists "V0". split; reflexivity.
  - reflexivity.
  - reflexivity.
  - destruct H as (_ & _ & H).
    + simpl. split; intro E; discriminate E.
    + destruct H as (_ & _ & H); [reflexivity|].
      apply H. reflexivity.
Defined.

(** C7 (as stated, refuted): two distinct traces that tie on every key of the
    cascade; each call returns its own first argument, so swapping the
    arguments changes the trace that is chosen. *)
Lemma choose_preferred_full_tie_follows_argument_order :
  tie_a <> tie_b /\
  level_rank ["V2"; "V1"; "V0"] tie_a 2 /\
  level_rank ["V2"; "V1"; "V0"] tie_b 2 /\
  choose_preferred tie_a tie_b ["V2"; "V1"; "V0"] ["cosmos"; "dmg"] = Ok (Some tie_a) /\
  choose_preferred tie_b tie_a ["V2"; "V1"; "V0"] ["cosmos"; "dmg"] = Ok (Some tie_b).
Proof.
  split; [discriminate|].
  split; [exists "V0"; split; reflexivity|].
  split; [exists "V0"; split; reflexivity|].
  split; reflexivity.
Qed.

(** C7 (amended): for two traces whose process levels are in the preference
    list and that are told apart by some key of the cascade (their
    process-level ranks differ; or both source formats are listed and they
    differ in format rank, in whether the start time is the epoch, in sample
    count or in sampling rate), [choose_preferred a b] and
    [choose_preferred b a] return the same trace, one of the two. *)
Theorem choose_preferred_symmetric_unless_tied
    (tr1 tr2 : StationTrace)
    (process_level_preference format_preference : list string)
    (i1 i2 : nat) :
  level_rank process_level_preference tr1 i1 ->
  level_rank process_level_preference tr2 i2 ->
  (i1 <> i2 \/
   exists j1 j2,
     format_rank format_preference tr1 j1 /\
     format_rank format_preference tr2 j2 /\
     (j1 <> j2 \/
      ~ (starttime (stats tr1) = 0%Z <-> starttime (stats tr2) = 0%Z) \/
      npts (stats tr1) <> npts (stats tr2) \/
      ~ (sampling_rate (stats tr1) == sampling_rate (stats tr2))%Q)) ->
  exists chosen,
    (chosen = tr1 \/ chosen = tr2) /\
    choose_preferred tr1 tr2 process_level_preference format_preference
      = Ok (Some chosen) /\
    choose_preferred tr2 tr1 process_level_preference format_preference
      = Ok (Some chosen).
Proof.
  intros (l1 & Hl1 & Hi1) (l2 & Hl2 & Hi2) Hkey.
  unfold choose_preferred.
  rewrite Hl1, Hl2; cbn [bind]. rewrite Hi1, Hi2; cbn [bind].
  destruct (Nat.ltb_spec i1 i2) as [L12|L12].
  { destruct (Nat.ltb_spec i2 i1); [lia|]. exists tr1. auto. }
  destruct (Nat.ltb_spec i2 i1) as [L21|L21].
  { exists tr2. auto. }
  destruct Hkey as [Hne | (j1 & j2 & Hj1 & Hj2 & Hkey)]; [lia|].
  unfold format_rank in Hj1, Hj2.
  rewrite (index_str_in _ _ _ Hj1), (index_str_in _ _ _ Hj2). cbn [andb].
  rewrite Hj1, Hj2; cbn [bind].
  destruct (Nat.ltb_spec j1 j2) as [J12|J12].
  { destruct (Nat.ltb_spec j2 j1); [lia|]. exists tr1. auto. }
  destruct (Nat.ltb_spec j2 j1) as [J21|J21].
  { exists tr2. auto. }
  destruct Hkey as [Hne | Hkey]; [lia|].
  destruct (Z.eqb_spec (starttime (stats tr1)) 0) as [S1|S1],
           (Z.eqb_spec (starttime (stats tr2)) 0) as [S2|S2]; cbn [andb negb].
  2: { exists tr2. auto. }
  2: { exists tr1. auto. }
  all: (destruct Hkey as [Hne | Hkey]; [tauto|]).
  all: destruct (Z.ltb_spec (npts (stats tr2)) (npts (stats tr1))) as [N21|N21].
  all: destruct (Z.ltb_spec (npts (stats tr1)) (npts (stats tr2))) as [N12|N12];
    try lia.
  all: try (exists tr1; solve [auto]).
  all: try (exists tr2; solve [auto]).
  all: (destruct Hkey as [Hne | Hkey]; [lia|]).
  all: destruct (Qlt_bool (sampling_rate (stats tr1)) (sampling_rate (stats tr2)))
         eqn:R12;
       destruct (Qlt_bool (sampling_rate (stats tr2)) (sampling_rate (stats tr1)))
         eqn:R21.
  all: try (exists tr1; solve [auto]).
  all: try (exists tr2; solve [auto]).
  all: exfalso.
  all: try (apply Qlt_bool_iff in R12); try (apply Qlt_bool_iff in R21).
  all: try (apply Qlt_bool_false_iff in R12); try (apply Qlt_bool_false_iff in R21).
  all: try exact (Qlt_irrefl _ (Qlt_trans _ _ _ R12 R21)).
  all: apply Hkey; apply Qle_antisym; assumption.
Qed.

Lemma choose_preferred_symmetric_unless_tied_witness :
  exists chosen,
    (chosen = better_level \/ chosen = tie_a) /\
    choose_preferred better_level tie_a ["V2"; "V1"; "V0"] ["cosmos"; "dmg"]
      = Ok (Some chosen) /\
    choose_preferred tie_a better_level ["V2"; "V1"; "V0"] ["cosmos"; "dmg"]
      = Ok (Some chosen).
Proof.
  apply (choose_preferred_symmetric_unless_tied better_level tie_a
           ["V2"; "V1"; "V0"] ["cosmos"; "dmg"] 0 2).
  - exists "V2". split; reflexivity.
  - exists "V0". split; reflexivity.
  - left. discriminate.
Defined.

(** ** The duplicate detector *)

Lemma dot_prefix_unique (a a' b b' : string) :
  count_char "." a = 0%nat -> count_char "." a' = 0%nat ->
  (a ++ "." ++ b)%string = (a' ++ "." ++ b')%string ->
  a = a' /\ b = b'.
Proof.
  revert a'. induction a as [|c a IH]; intros [|c' a'] Ha Ha' E;
    cbn [append count_char] in *.
  - injection E as E. auto.
  - injection E as Ec E. subst c'. discriminate Ha'.
  - injection E as Ec E. subst c. discriminate Ha.
  - injection E as Ec E. subst c'.
    destruct (Ascii.eqb c "."); [discriminate Ha|].
    destruct (IH a' Ha Ha' E) as [-> ->]. auto.
Qed.

Lemma trace_id_codes (tr1 tr2 : StationTrace) :
  dot_free tr1 = true -> dot_free tr2 = true ->
  trace_id tr1 = trace_id tr2 -> channel_codes tr1 = channel_codes tr2.
Proof.
  unfold dot_free, trace_id, channel_codes.
  rewrite !andb_true_iff, !Nat.eqb_eq.
  intros [[N1 S1] L1] [[N2 S2] L2] E.
  apply dot_prefix_unique in E; [|assumption..]. destruct E as [-> E].
  apply dot_prefix_unique in E; [|assumption..]. destruct E as [-> E].
  apply dot_prefix_unique in E; [|assumption..]. destruct E as [-> ->].
  reflexivity.
Qed.

(** C3 (as stated, refuted): two traces whose (network, station, location,
    channel) differ, whose station codes differ and that lie a hundred
    kilometres apart, for a tolerance of 500 m; their identifiers are the
    same string, ["A.B.C..HNZ"], and [are_duplicates] returns true. *)
Lemma are_duplicates_dotted_codes :
  channel_codes dotted_network <> channel_codes dotted_station /\
  station (stats dotted_network) <> station (stats dotted_station) /\
  example_gps2dist (latitude (coordinates (stats dotted_network)))
                   (longitude (coordinates (stats dotted_network)))
                   (latitude (coordinates (stats dotted_station)))
                   (longitude (coordinates (stats dotted_station)))
    = Ok 100000%Q /\
  are_duplicates example_gps2dist dotted_network dotted_station 500 = Ok true.
Proof.
  split; [discriminate|].
  split; [discriminate|].
  split; reflexivity.
Qed.

(** C3 (amended): [are_duplicates] returns true for two traces of equal
    identifier (the string ["net.sta.loc.cha"]), whatever their coordinates;
    for two traces of different identifiers it returns true iff station,
    location and channel codes are equal and the distance between the
    coordinates is strictly below the tolerance, and it returns a boolean
    whenever the distance is defined. Two traces of equal (network, station,
    location, channel) have equal identifiers; when the network, station and
    location codes of both hold no dot, the identifiers are equal exactly
    when the four codes are. The result depends on the two traces and the
    tolerance only: the function reads no heap and returns none. *)
Theorem are_duplicates_spec (gps2dist_azimuth : Q -> Q -> Q -> Q -> result Q)
    (tr1 tr2 : StationTrace) (max_dist_tolerance : Q) :
  let distance :=
    gps2dist_azimuth (latitude (coordinates (stats tr1)))
                     (longitude (coordinates (stats tr1)))
                     (latitude (coordinates (stats tr2)))
                     (longitude (coordinates (stats tr2))) in
  (trace_id tr1 = trace_id tr2 ->
   are_duplicates gps2dist_azimuth tr1 tr2 max_dist_tolerance = Ok true) /\
  (trace_id tr1 <> trace_id tr2 ->
   (are_duplicates gps2dist_azimuth tr1 tr2 max_dist_tolerance = Ok true <->
    station (stats tr1) = station (stats tr2) /\
    location (stats tr1) = location (stats tr2) /\
    channel (stats tr1) = channel (stats tr2) /\
    exists d, distance = Ok d /\ (d < max_dist_tolerance)%Q) /\
   (forall d, distance = Ok d ->
      exists b, are_duplicates gps2dist_azimuth tr1 tr2 max_dist_tolerance = Ok b)) /\
  (channel_codes tr1 = channel_codes tr2 -> trace_id tr1 = trace_id tr2) /\
  (dot_free tr1 = true -> dot_free tr2 = true ->
   (trace_id tr1 = trace_id tr2 <-> channel_codes tr1 = channel_codes tr2)).
Proof.
  intro distance.
  assert (Hcodes : channel_codes tr1 = channel_codes tr2 ->
                   trace_id tr1 = trace_id tr2).
  { unfold channel_codes, trace_id. intro E. injection E as -> -> -> ->.
    reflexivity. }
  unfold are_duplicates. fold distance. split; [|split; [|split]].
  - intro E. apply id_eqb_eq in E. rewrite E. reflexivity.
  - intro NE. destruct (id_eqb (trace_id tr1) (trace_id tr2)) eqn:E.
    { apply id_eqb_eq in E. contradiction. }
    split.
    + destruct distance as [d|e]; cbn [bind].
      * destruct (String.eqb_spec (station (stats tr1)) (station (stats tr2)));
        destruct (String.eqb_spec (location (stats tr1)) (location (stats tr2)));
        destruct (String.eqb_spec (channel (stats tr1)) (channel (stats tr2)));
        cbn [andb];
        try (split; [discriminate | tauto]).
        destruct (Qlt_bool d max_dist_tolerance) eqn:L.
        -- apply Qlt_bool_iff in L. split; [|reflexivity].
           intros _. repeat split; try assumption. exists d. auto.
        -- apply Qlt_bool_false_iff in L. split; [discriminate|].
           intros (_ & _ & _ & d' & Hd & Hlt). injection Hd as <-.
           exfalso. exact (Qlt_not_le _ _ Hlt L).
      * split; [discriminate|].
        intros (_ & _ & _ & d' & Hd & _). discriminate.
    + intros d Hd. rewrite Hd. cbn [bind].
      match goal with |- context [if ?c then _ else _] => destruct c end;
        eauto.
  - exact Hcodes.
  - intros D1 D2. split; [apply trace_id_codes; assumption | exact Hcodes].
Qed.

Lemma are_duplicates_spec_witness :
  are_duplicates example_gps2dist tie_a far_copy 500 = Ok true /\
  (are_duplicates example_gps2dist tie_a tie_b 500 = Ok true <->
   station (stats tie_a) = station (stats tie_b) /\
   location (stats tie_a) = location (stats tie_b) /\
   channel (stats tie_a) = channel (stats tie_b) /\
   exists d, example_gps2dist 0 0 0 0 = Ok d /\ (d < 500)%Q) /\
  (trace_id tie_a = trace_id far_copy <->
   channel_codes tie_a = channel_codes far_copy).
Proof.
  split; [|split].
  - apply (proj1 (are_duplicates_spec example_gps2dist tie_a far_copy 500)).
    reflexivity.
  - apply (proj1 (proj2 (are_duplicates_spec example_gps2dist tie_a tie_b 500))).
    discriminate.
  - apply (proj2 (proj2 (proj2
             (are_duplicates_spec example_gps2dist tie_a far_copy 500))));
      reflexivity.
Defined.

(** ** The clustering scan computes equivalence classes *)

Lemma enumerate_fst {A : Type} (l : list A) (s : nat) :
  map fst (combine (seq s (List.length l)) l) = seq s (List.length l).
Proof.
  revert s. induction l as [|x l IH]; intro s; simpl; [reflexivity|].
  f_equal. apply IH.
Qed.

Lemma enumerate_snd {A : Type} (l : list A) (s : nat) :
  map snd (combine (seq s (List.length l)) l) = l.
Proof.
  revert s. induction l as [|x l IH]; intro s; simpl; [reflexivity|].
  f_equal. apply IH.
Qed.

Lemma enumerate_NoDup {A : Type} (l : list A) : NoDup (map fst (enumerate l)).
Proof. unfold enumerate. rewrite enumerate_fst. apply seq_NoDup. Qed.

(** Reading back the elements at the positions a filter selected. *)
Lemma nth_filter_enumerate {A : Type} (f : A -> bool) (d : A) (l pre : list A) :
  map (fun i => nth i (pre ++ l) d)
      (map fst (filter (fun p => f (snd p))
                       (combine (seq (List.length pre) (List.length l)) l)))
  = filter f l.
Proof.
  revert pre. induction l as [|x l IH]; intro pre; simpl; [reflexivity|].
  assert (IH' := IH (pre ++ [x])).
  rewrite <- app_assoc, length_app, Nat.add_1_r in IH'. simpl in IH'.
  destruct (f x); simpl.
  - rewrite nth_middle. f_equal. exact IH'.
  - exact IH'.
Qed.

Lemma nat_in_app (i : nat) (l1 l2 : list nat) :
  nat_in i (l1 ++ l2) = nat_in i l1 || nat_in i l2.
Proof. apply existsb_app. Qed.

(** Membership of a position among those a filter selected. *)
Lemma nat_in_filter_fst {A : Type} (f : nat * A -> bool) (E : list (nat * A)) :
  NoDup (map fst E) ->
  forall p, In p E -> nat_in (fst p) (map fst (filter f E)) = f p.
Proof.
  induction E as [|q E IH]; intros ND p Hin; [destruct Hin|].
  simpl in ND. inversion ND as [|? ? Hnotin ND']; subst.
  destruct Hin as [->|Hin]; simpl.
  - destruct (f p) eqn:Ef; simpl.
    + rewrite Nat.eqb_refl. reflexivity.
    + unfold nat_in. apply not_true_is_false. intro Hex.
      apply existsb_exists in Hex. destruct Hex as (j & Hj & Hjeq).
      apply Nat.eqb_eq in Hjeq. subst j. apply Hnotin.
      apply in_map_iff in Hj. destruct Hj as (q & Hq & Hqin).
      apply filter_In in Hqin. rewrite <- Hq. apply in_map. tauto.
  - assert (fst p <> fst q) as Hne.
    { intro E'. apply Hnotin. rewrite <- E'. apply in_map. exact Hin. }
    destruct (f q); simpl.
    + apply Nat.eqb_neq in Hne. rewrite Hne. simpl. apply IH; assumption.
    + apply IH; assumption.
Qed.

Lemma Forall2_In_r {A B : Type} (R : A -> B -> Prop) (l : list A) (l' : list B) :
  Forall2 R l l' -> forall y, In y l' -> exists x, In x l /\ R x y.
Proof.
  induction 1 as [|a b l l' Hab HF IH]; intros y Hy; [destruct Hy|].
  destruct Hy as [<-|Hy].
  - exists a. split; [left; reflexivity | exact Hab].
  - destruct (IH y Hy) as (x & Hx & Hxy). exists x. split; [right|]; assumption.
Qed.

Lemma filter_none {A : Type} (f : A -> bool) (l : list A) :
  (forall x, In x l -> f x = false) -> filter f l = [].
Proof.
  induction l as [|x l IH]; intro H; [reflexivity|].
  simpl. rewrite H by (left; reflexivity).
  apply IH. intros y Hy. apply H. right. exact Hy.
Qed.

Lemma filter_all {A : Type} (f : A -> bool) (l : list A) :
  (forall x, In x l -> f x = true) -> filter f l = l.
Proof.
  induction l as [|x l IH]; intro H; [reflexivity|].
  simpl. rewrite H by (left; reflexivity).
  f_equal. apply IH. intros y Hy. apply H. right. exact Hy.
Qed.

Section ClassesFacts.
Variable A : Type.
Variable same : A -> A -> bool.

Hypothesis same_refl : forall x, same x x = true.
Hypothesis same_sym : forall x y, same x y = same y x.
Hypothesis same_trans :
  forall x y z, same x y = true -> same y z = true -> same x z = true.

Lemma seen_closed (seen : list A) (x y : A) :
  same x y = true -> existsb (same x) seen = existsb (same y) seen.
Proof.
  intro Hxy. induction seen as [|s seen IH]; simpl; [reflexivity|].
  rewrite IH. f_equal.
  destruct (same x s) eqn:Exs, (same y s) eqn:Eys; try reflexivity.
  - rewrite same_sym in Hxy. rewrite (same_trans _ _ _ Hxy Exs) in Eys.
    discriminate.
  - rewrite (same_trans _ _ _ Hxy Eys) in Exs. discriminate.
Qed.

Lemma outer_step_fold (l : list A) :
  forall R P all_matches found seen,
    enumerate l = P ++ R ->
    (forall p, In p P -> existsb (same (snd p)) seen = true) ->
    (forall p, In p (enumerate l) ->
               nat_in (fst p) all_matches = existsb (same (snd p)) seen) ->
    snd (fold_left (outer_step same l) R (all_matches, found))
    = found ++ map (positions same l) (leaders same seen (map snd R)).
Proof.
  induction R as [|[i x] R IH]; intros P am found seen HE HP Hinv.
  - simpl. rewrite app_nil_r. reflexivity.
  - assert (Hix : In (i, x) (enumerate l)).
    { rewrite HE. apply in_or_app. right. left. reflexivity. }
    assert (HE' : enumerate l = (P ++ [(i, x)]) ++ R).
    { rewrite <- app_assoc. exact HE. }
    cbn [fold_left map snd leaders].
    pose proof (Hinv _ Hix) as Hi. cbn [snd fst] in Hi.
    change (outer_step same l (am, found) (i, x))
      with (if nat_in i am then (am, found)
            else if (1 <? List.length (inner_matches same am l i x))%nat
                 then (am ++ inner_matches same am l i x,
                       found ++ [inner_matches same am l i x])
                 else if negb (nat_in (hd 0%nat (inner_matches same am l i x)) am)
                      then (am ++ inner_matches same am l i x,
                            found ++ [inner_matches same am l i x])
                      else (am, found)).
    rewrite Hi.
    destruct (existsb (same x) seen) eqn:Eseen.
    + apply (IH (P ++ [(i, x)])); try assumption.
      intros p Hp. apply in_app_or in Hp. destruct Hp as [Hp|[<-|[]]].
      * apply HP. exact Hp.
      * exact Eseen.
    + assert (Hnotin : nat_in i am = false).
      { exact Hi. }
      assert (Hmatches : inner_matches same am l i x = positions same l x).
      { unfold inner_matches, positions. rewrite HE.
        rewrite !filter_app. cbn [filter snd fst].
        rewrite Nat.eqb_refl, same_refl. cbn [negb andb].
        rewrite !map_app. cbn [map fst].
        pose proof (fun f => @filter_none _ f P) as HPnil.
        assert (HPx : forall p, In p P -> same x (snd p) = false).
        { intros p Hp. destruct (same x (snd p)) eqn:Exp; [|reflexivity].
          pose proof (HP _ Hp) as Hs.
          rewrite <- (seen_closed seen _ _ Exp) in Hs. congruence. }
        rewrite (HPnil (fun p => same x (snd p))) by exact HPx.
        rewrite HPnil.
        2:{ intros p Hp. rewrite (HPx _ Hp). apply andb_false_r. }
        cbn [map app]. f_equal. f_equal.
        apply filter_ext_in. intros p Hp.
        rewrite Hnotin. cbn [negb]. rewrite andb_true_r.
        assert (i <> fst p) as Hne.
        { pose proof (enumerate_NoDup l) as ND. rewrite HE in ND.
          rewrite map_app in ND. apply NoDup_remove_2 in ND.
          intro E'. apply ND. apply in_or_app. right.
          cbn [fst]. rewrite E'. apply in_map. exact Hp. }
        apply Nat.eqb_neq in Hne. rewrite Hne. reflexivity. }
      assert (Hstep : (if (1 <? List.length (inner_matches same am l i x))%nat
                       then (am ++ inner_matches same am l i x,
                             found ++ [inner_matches same am l i x])
                       else if negb (nat_in (hd 0%nat (inner_matches same am l i x)) am)
                            then (am ++ inner_matches same am l i x,
                                  found ++ [inner_matches same am l i x])
                            else (am, found))
                      = (am ++ positions same l x, found ++ [positions same l x])).
      { destruct (1 <? List.length (inner_matches same am l i x))%nat.
        - rewrite Hmatches. reflexivity.
        - unfold inner_matches at 1. cbn [hd]. rewrite Hnotin. cbn [negb].
          rewrite Hmatches. reflexivity. }
      rewrite Hstep.
      rewrite (IH (P ++ [(i, x)]) _ _ (x :: seen)); try assumption.
      * rewrite <- app_assoc. reflexivity.
      * intros p Hp. cbn [existsb]. apply in_app_or in Hp.
        destruct Hp as [Hp|[<-|[]]].
        -- rewrite (HP _ Hp). apply orb_true_r.
        -- cbn [snd]. rewrite same_refl. reflexivity.
      * intros p Hp. rewrite nat_in_app. cbn [existsb].
        rewrite (Hinv _ Hp). rewrite orb_comm. f_equal.
        unfold positions.
        rewrite (nat_in_filter_fst (fun p => same x (snd p)) (enumerate l)
                   (enumerate_NoDup l) p Hp).
        apply same_sym.
Qed.

(** The scan returns, class by class, the positions of the members. *)
Lemma match_list_positions (l : list A) :
  match_list same l = map (positions same l) (leaders same [] l).
Proof.
  unfold match_list.
  rewrite (outer_step_fold l (enumerate l) [] [] [] []); try reflexivity.
  - unfold enumerate. rewrite enumerate_snd. reflexivity.
  - intros p [].
Qed.

(** Reading the traces back at those positions gives the classes. *)
Lemma match_list_classes (l : list A) (d : A) :
  map (fun groups => map (fun i => nth i l d) groups) (match_list same l)
  = classes same l.
Proof.
  rewrite match_list_positions. unfold classes. rewrite map_map.
  apply map_ext. intro x. unfold positions, enumerate.
  exact (nth_filter_enumerate (same x) d l []).
Qed.

Lemma same_congr (x y z : A) : same x y = true -> same x z = same y z.
Proof.
  intro Hxy. destruct (same y z) eqn:Eyz.
  - exact (same_trans _ _ _ Hxy Eyz).
  - destruct (same x z) eqn:Exz; [|reflexivity].
    rewrite same_sym in Hxy. rewrite (same_trans _ _ _ Hxy Exz) in Eyz.
    discriminate.
Qed.

Lemma leaders_In (l seen : list A) (x : A) :
  In x (leaders same seen l) -> In x l /\ existsb (same x) seen = false.
Proof.
  revert seen. induction l as [|y l IH]; intros seen H; simpl in H; [destruct H|].
  destruct (existsb (same y) seen) eqn:E.
  - destruct (IH _ H). split; [right|]; assumption.
  - destruct H as [<-|H]; [split; [left; reflexivity | exact E]|].
    destruct (IH _ H) as [Hin Hs]. split; [right; exact Hin|].
    simpl in Hs. apply orb_false_iff in Hs. tauto.
Qed.

(** Two leaders are never in the same class. *)
Lemma leaders_apart (l seen : list A) :
  ForallOrdPairs (fun a b => same a b = false) (leaders same seen l).
Proof.
  revert seen. induction l as [|y l IH]; intro seen; simpl; [constructor|].
  destruct (existsb (same y) seen); [apply IH|].
  constructor; [|apply IH].
  apply Forall_forall. intros z Hz. apply leaders_In in Hz.
  destruct Hz as [_ Hz]. simpl in Hz. apply orb_false_iff in Hz.
  rewrite same_sym. tauto.
Qed.

(** Every element is in the class of a leader, or of an element seen. *)
Lemma leaders_cover (l seen : list A) (x : A) :
  In x l ->
  existsb (same x) seen || existsb (same x) (leaders same seen l) = true.
Proof.
  revert seen. induction l as [|y l IH]; intros seen H; [destruct H|].
  simpl. destruct H as [->|H].
  - destruct (existsb (same x) seen) eqn:E; [reflexivity|].
    simpl. rewrite same_refl. reflexivity.
  - destruct (existsb (same y) seen) eqn:E; [apply IH; exact H|].
    specialize (IH (y :: seen) H). simpl in *.
    destruct (same x y), (existsb (same x) seen); simpl in *; auto.
Qed.

Lemma leaders_app (l seen : list A) (y : A) :
  leaders same seen (l ++ [y])
  = leaders same seen l ++
    (if existsb (same y) seen || existsb (same y) (leaders same seen l)
     then [] else [y]).
Proof.
  revert seen. induction l as [|x l IH]; intro seen; simpl.
  - rewrite orb_false_r. destruct (existsb (same y) seen); reflexivity.
  - destruct (existsb (same x) seen) eqn:E; [apply IH|].
    simpl. rewrite IH. simpl. f_equal. f_equal.
    destruct (same y x), (existsb (same y) seen); reflexivity.
Qed.

Lemma classes_In (l : list A) (c : list A) :
  In c (classes same l) ->
  exists x, In x (leaders same [] l) /\ c = filter (same x) l.
Proof.
  unfold classes. intro H. apply in_map_iff in H.
  destruct H as (x & <- & Hx). exists x. auto.
Qed.

(** The members of a class are in the same class, and are elements. *)
Lemma classes_members (l c : list A) (x y : A) :
  In c (classes same l) -> In x c -> In y c ->
  In x l /\ In y l /\ same x y = true.
Proof.
  intros Hc Hx Hy. apply classes_In in Hc. destruct Hc as (z & _ & ->).
  apply filter_In in Hx, Hy. destruct Hx as [Hx Hzx], Hy as [Hy Hzy].
  repeat split; try assumption.
  rewrite same_sym in Hzx. exact (same_trans _ _ _ Hzx Hzy).
Qed.

(** Two elements of the same class are members of one class. *)
Lemma classes_complete (l : list A) (x y : A) :
  In x l -> In y l -> same x y = true ->
  exists c, In c (classes same l) /\ In x c /\ In y c.
Proof.
  intros Hx Hy Hxy. pose proof (leaders_cover l [] x Hx) as Hc.
  simpl in Hc. apply existsb_exists in Hc. destruct Hc as (z & Hz & Hxz).
  exists (filter (same z) l). split; [|split].
  - unfold classes. apply in_map_iff. exists z. auto.
  - apply filter_In. split; [exact Hx|]. rewrite same_sym. exact Hxz.
  - apply filter_In. split; [exact Hy|].
    rewrite same_sym in Hxz. exact (same_trans _ _ _ Hxz Hxy).
Qed.

Lemma classes_nonempty (l c : list A) : In c (classes same l) -> c <> [].
Proof.
  intro Hc. apply classes_In in Hc. destruct Hc as (z & Hz & ->).
  apply leaders_In in Hz. destruct Hz as [Hz _].
  intro E. assert (In z (filter (same z) l)) as Hin.
  { apply filter_In. split; [exact Hz | apply same_refl]. }
  rewrite E in Hin. destruct Hin.
Qed.

Lemma filters_cons (L l : list A) (x : A) :
  ForallOrdPairs (fun a b => same a b = false) L ->
  existsb (same x) L = true ->
  Permutation (List.concat (map (fun z => filter (same z) (x :: l)) L))
              (x :: List.concat (map (fun z => filter (same z) l) L)).
Proof.
  intros HL. induction HL as [|z L Hz HL IHL]; intro Hcov; [discriminate|].
  cbn [map List.concat].
  change (filter (same z) (x :: l))
    with (if same z x then x :: filter (same z) l else filter (same z) l).
  destruct (same z x) eqn:Ezx.
  - assert (map (fun w => filter (same w) (x :: l)) L
            = map (fun w => filter (same w) l) L) as ->; [|reflexivity].
    apply map_ext_in. intros w Hw. cbn [filter].
    rewrite Forall_forall in Hz. specialize (Hz w Hw).
    destruct (same w x) eqn:Ewx; [|reflexivity].
    rewrite same_sym in Ewx. rewrite (same_trans _ _ _ Ezx Ewx) in Hz.
    discriminate.
  - cbn [existsb] in Hcov. rewrite same_sym, Ezx in Hcov. cbn [orb] in Hcov.
    apply Permutation_trans
      with (filter (same z) l ++
            x :: List.concat (map (fun w => filter (same w) l) L)).
    + apply Permutation_app_head. apply IHL. exact Hcov.
    + apply Permutation_sym. apply Permutation_middle.
Qed.

(** No element is lost or repeated by the classification. *)
Lemma filters_Permutation (L l : list A) :
  ForallOrdPairs (fun a b => same a b = false) L ->
  (forall x, In x l -> existsb (same x) L = true) ->
  Permutation (List.concat (map (fun z => filter (same z) l) L)) l.
Proof.
  intros HL. induction l as [|x l IH]; intro Hcov.
  - clear. induction L as [|z L IH]; simpl; [constructor | exact IH].
  - eapply Permutation_trans.
    + apply filters_cons; [exact HL|]. apply Hcov. left. reflexivity.
    + constructor. apply IH. intros y Hy. apply Hcov. right. exact Hy.
Qed.

Lemma classes_Permutation (l : list A) :
  Permutation (List.concat (classes same l)) l.
Proof.
  unfold classes. apply filters_Permutation.
  - apply leaders_apart.
  - intros x Hx. exact (leaders_cover l [] x Hx).
Qed.

Lemma class_head (l : list A) (z y : A) :
  In z l -> same (hd y (filter (same z) l)) y = same z y.
Proof.
  intro Hz.
  assert (In z (filter (same z) l)) as Hin.
  { apply filter_In. split; [exact Hz | apply same_refl]. }
  destruct (filter (same z) l) as [|w r] eqn:E; [destruct Hin|].
  assert (In w (filter (same z) l)) as Hw by (rewrite E; left; reflexivity).
  apply filter_In in Hw. destruct Hw as [_ Hw]. simpl.
  symmetry. apply same_congr; assumption.
Qed.

Lemma filter_snoc (f : A -> bool) (l : list A) (y : A) :
  filter f (l ++ [y]) = filter f l ++ (if f y then [y] else []).
Proof. rewrite filter_app. reflexivity. Qed.

Lemma insert_class_filters (l L : list A) (y : A) :
  ForallOrdPairs (fun a b => same a b = false) L ->
  (forall z, In z L -> In z l) ->
  map (fun x => filter (same x) (l ++ [y])) L
  = if existsb (same y) L
    then insert_class same y (map (fun x => filter (same x) l) L)
    else map (fun x => filter (same x) l) L.
Proof.
  intro HL. induction HL as [|z L Hz HL IH]; intro Hin; [reflexivity|].
  cbn [map existsb insert_class].
  rewrite (class_head l z y) by (apply Hin; left; reflexivity).
  rewrite filter_snoc. rewrite (same_sym y z).
  destruct (same z y) eqn:Ezy; cbn [orb].
  - f_equal. apply map_ext_in. intros w Hw. rewrite filter_snoc.
    rewrite Forall_forall in Hz. specialize (Hz w Hw).
    destruct (same w y) eqn:Ewy; [|apply app_nil_r].
    rewrite same_sym in Ewy. rewrite (same_trans _ _ _ Ezy Ewy) in Hz.
    discriminate.
  - rewrite app_nil_r. rewrite IH by (intros w Hw; apply Hin; right; exact Hw).
    destruct (existsb (same y) L); reflexivity.
Qed.

Lemma insert_class_new (cs : list (list A)) (y : A) :
  (forall c, In c cs -> same (hd y c) y = false) ->
  insert_class same y cs = cs ++ [[y]].
Proof.
  induction cs as [|c cs IH]; intro H; [reflexivity|].
  simpl. rewrite H by (left; reflexivity). f_equal.
  apply IH. intros c' Hc'. apply H. right. exact Hc'.
Qed.

Lemma classes_snoc (l : list A) (y : A) :
  classes same (l ++ [y]) = insert_class same y (classes same l).
Proof.
  unfold classes. rewrite leaders_app. cbn [existsb orb].
  rewrite map_app.
  rewrite insert_class_filters.
  2: apply leaders_apart; assumption.
  2: intros z Hz; apply leaders_In in Hz; tauto.
  destruct (existsb (same y) (leaders same [] l)) eqn:E.
  - apply app_nil_r.
  - cbn [map]. rewrite filter_snoc, same_refl.
    rewrite (filter_none (same y) l).
    + rewrite insert_class_new; [reflexivity|].
      intros c Hc. apply in_map_iff in Hc. destruct Hc as (z & <- & Hz).
      assert (In z l) as Hzl by (apply leaders_In in Hz; tauto).
      rewrite class_head by exact Hzl.
      rewrite same_sym.
      destruct (same y z) eqn:Eyz; [|reflexivity].
      assert (existsb (same y) (leaders same [] l) = true); [|congruence].
      apply existsb_exists. exists z. auto.
    + intros x Hx. destruct (same y x) eqn:Eyx; [|reflexivity].
      pose proof (leaders_cover l [] x Hx) as Hc.
      cbn [existsb orb] in Hc.
      rewrite <- (seen_closed _ _ _ Eyx) in Hc.
      congruence.
Qed.

Lemma fold_insert_class (l : list A) :
  fold_left (fun cs y => insert_class same y cs) l [] = classes same l.
Proof.
  induction l as [|y l IH] using rev_ind; [reflexivity|].
  rewrite fold_left_app. cbn [fold_left]. rewrite IH.
  symmetry. apply classes_snoc.
Qed.

(** ** Classifying a list that is already arranged in classes *)

Lemma blocks_tail (m : list A) (M : list (list A)) :
  blocks same (m :: M) -> blocks same M.
Proof.
  intros [H1 H2]. inversion H1; subst. inversion H2; subst. split; assumption.
Qed.

Lemma leaders_skip (m rest seen : list A) :
  (forall w, In w m -> existsb (same w) seen = true) ->
  leaders same seen (m ++ rest) = leaders same seen rest.
Proof.
  induction m as [|w m IH]; intro H; [reflexivity|].
  simpl. rewrite H by (left; reflexivity).
  apply IH. intros w' Hw'. apply H. right. exact Hw'.
Qed.

Lemma leaders_blocks (M : list (list A)) :
  blocks same M ->
  forall seen,
    (forall m x, In m M -> In x m -> existsb (same x) seen = false) ->
    leaders same seen (List.concat M) = heads M.
Proof.
  induction M as [|m M IH]; intros HB seen Hseen; [reflexivity|].
  pose proof HB as [H1 H2]. inversion H1 as [|? ? [Hne Hin] H1']; subst.
  inversion H2 as [|? ? Hacross H2']; subst.
  destruct m as [|x m]; [contradiction|].
  cbn [List.concat heads flat_map app leaders].
  rewrite (Hseen (x :: m) x) by (left; reflexivity).
  f_equal. rewrite leaders_skip.
  - apply IH; [exact (blocks_tail _ _ HB)|].
    intros m' w Hm' Hw. cbn [existsb].
    rewrite (Hseen m' w (or_intror Hm') Hw).
    rewrite Forall_forall in Hacross.
    rewrite same_sym.
    rewrite (Hacross m' Hm' x w (or_introl eq_refl) Hw).
    reflexivity.
  - intros w Hw. cbn [existsb].
    rewrite (Hin w x (or_intror Hw) (or_introl eq_refl)). reflexivity.
Qed.

Lemma heads_In (M : list (list A)) (z : A) :
  In z (heads M) -> exists m, In m M /\ In z m.
Proof.
  unfold heads. intro H. apply in_flat_map in H.
  destruct H as (m & Hm & Hz). exists m. split; [exact Hm|].
  destruct m as [|x m]; [destruct Hz|].
  destruct Hz as [<-|[]]. left. reflexivity.
Qed.

Lemma filters_blocks (M : list (list A)) :
  blocks same M ->
  map (fun x => filter (same x) (List.concat M)) (heads M) = M.
Proof.
  induction M as [|m M IH]; intro HB; [reflexivity|].
  pose proof HB as [H1 H2]. inversion H1 as [|? ? [Hne Hin] H1']; subst.
  inversion H2 as [|? ? Hacross H2']; subst.
  rewrite Forall_forall in Hacross.
  destruct m as [|x m]; [contradiction|].
  change (heads ((x :: m) :: M)) with (x :: heads M).
  change (List.concat ((x :: m) :: M)) with ((x :: m) ++ List.concat M).
  cbn [map]. f_equal.
  - rewrite filter_app.
    rewrite (filter_all (same x) (x :: m)).
    2: intros w Hw; apply Hin; [left; reflexivity | exact Hw].
    rewrite (filter_none (same x) (List.concat M)); [apply app_nil_r|].
    intros w Hw. apply in_concat in Hw. destruct Hw as (m' & Hm' & Hw).
    apply (Hacross m' Hm'); [left; reflexivity | exact Hw].
  - rewrite <- (IH (blocks_tail _ _ HB)) at 2.
    apply map_ext_in. intros z Hz. rewrite filter_app.
    rewrite (filter_none (same z) (x :: m)); [reflexivity|].
    intros w Hw. apply heads_In in Hz. destruct Hz as (m' & Hm' & Hz).
    rewrite same_sym. apply (Hacross m' Hm'); assumption.
Qed.

(** Classifying the concatenation of such blocks gives the blocks back. *)
Lemma classes_blocks (M : list (list A)) :
  blocks same M -> classes same (List.concat M) = M.
Proof.
  intro HB. unfold classes. rewrite (leaders_blocks _ HB).
  - apply filters_blocks. exact HB.
  - reflexivity.
Qed.

Lemma blocks_classes (l : list A) : blocks same (classes same l).
Proof.
  split.
  - apply Forall_forall. intros c Hc. split.
    + exact (classes_nonempty l c Hc).
    + intros x y Hx Hy.
      apply (classes_members l c x y Hc Hx Hy).
  - unfold classes.
    pose proof (leaders_apart l []) as HL.
    induction HL as [|z L Hz HL IH]; [constructor|].
    cbn [map]. constructor; [|exact IH].
    apply Forall_forall. intros c Hc. apply in_map_iff in Hc.
    destruct Hc as (w & <- & Hw). intros x y Hx Hy.
    apply filter_In in Hx, Hy. destruct Hx as [_ Hx], Hy as [_ Hy].
    rewrite Forall_forall in Hz. specialize (Hz w Hw).
    destruct (same x y) eqn:Exy; [|reflexivity].
    rewrite same_sym in Hy.
    rewrite (same_trans _ _ _ Hx (same_trans _ _ _ Exy Hy)) in Hz.
    discriminate.
Qed.

(** Replacing every block by a list with the same members keeps the
    property. *)
Lemma blocks_members (M M' : list (list A)) :
  Forall2 (fun m m' => forall x, In x m' <-> In x m) M M' ->
  blocks same M -> blocks same M'.
Proof.
  intros HF [H1 H2]. split.
  - clear H2. induction HF as [|m m' M M' Hm HF IH]; [constructor|].
    inversion H1 as [|? ? [Hne Hin] H1']; subst.
    constructor; [|apply IH; exact H1'].
    split.
    + destruct m as [|x m]; [contradiction|].
      intro E. assert (In x m') as Hx by (apply Hm; left; reflexivity).
      rewrite E in Hx. destruct Hx.
    + intros x y Hx Hy. apply Hin; apply Hm; assumption.
  - clear H1. induction HF as [|m m' M M' Hm HF IH]; [constructor|].
    inversion H2 as [|? ? Hacross H2']; subst.
    constructor; [|apply IH; exact H2'].
    rewrite Forall_forall in Hacross. apply Forall_forall.
    intros m2' Hm2'.
    destruct (Forall2_In_r _ _ _ HF _ Hm2') as (m2 & Hm2 & Heq).
    intros x y Hx Hy. apply (Hacross m2 Hm2); [apply Hm | apply Heq]; assumption.
Qed.
End ClassesFacts.

Lemma existsb_pointwise {A : Type} (f g : A -> bool) (l : list A) :
  (forall x, f x = g x) -> existsb f l = existsb g l.
Proof.
  intro H. induction l as [|x l IH]; [reflexivity|].
  simpl. rewrite H, IH. reflexivity.
Qed.

Lemma leaders_ext {A : Type} (same same' : A -> A -> bool) :
  (forall x y, same x y = same' x y) ->
  forall l seen, leaders same seen l = leaders same' seen l.
Proof.
  intros H l. induction l as [|x l IH]; intro seen; [reflexivity|].
  simpl. rewrite (existsb_pointwise _ _ seen (H x)). rewrite !IH. reflexivity.
Qed.

Lemma classes_ext {A : Type} (same same' : A -> A -> bool) :
  (forall x y, same x y = same' x y) ->
  forall l, classes same l = classes same' l.
Proof.
  intros H l. unfold classes. rewrite (leaders_ext _ _ H).
  apply map_ext. intro x. apply filter_ext. apply H.
Qed.

(** ** Heaps that differ in the stamped tags only *)

Lemma set_tag_same (tr : StationTrace) : set_tag tr (tag (stats tr)) = tr.
Proof. destruct tr as [[] ? ?]. reflexivity. Qed.

Lemma set_tag_twice (tr : StationTrace) (t t' : string) :
  set_tag (set_tag tr t) t' = set_tag tr t'.
Proof. reflexivity. Qed.

Lemma agree_refl (h : Heap) : agree h h.
Proof. intro r. exists (tag (stats (h r))). symmetry. apply set_tag_same. Qed.

Lemma agree_trans (h1 h2 h3 : Heap) : agree h1 h2 -> agree h2 h3 -> agree h1 h3.
Proof.
  intros H12 H23 r. destruct (H12 r) as [t Ht], (H23 r) as [t' Ht'].
  exists t'. rewrite Ht', Ht. apply set_tag_twice.
Qed.

Lemma agree_sym (h h' : Heap) : agree h h' -> agree h' h.
Proof.
  intros H r. destruct (H r) as [t Ht]. exists (tag (stats (h r))).
  rewrite Ht, set_tag_twice. symmetry. apply set_tag_same.
Qed.

Lemma stamp_agree (trs : list ref) (t : string) (h : Heap) : agree h (stamp h t trs).
Proof.
  unfold stamp. revert h. induction trs as [|r trs IH]; intro h; simpl.
  - apply agree_refl.
  - eapply agree_trans; [|apply IH].
    intro x. unfold heap_set. destruct (Nat.eqb_spec x r) as [->|_].
    + exists t. reflexivity.
    + exists (tag (stats (h x))). symmetry. apply set_tag_same.
Qed.

Lemma gather_fold_agree (streams : list StationStream) (h : Heap)
    (params : dict (dict pyvalue)) :
  agree h (fst (fold_left gather_step streams (h, params))).
Proof.
  revert h params. induction streams as [|s streams IH]; intros h params; simpl.
  - apply agree_refl.
  - eapply agree_trans; [|apply IH]. apply stamp_agree.
Qed.

Lemma gather_agree (h : Heap) (streams : list StationStream) :
  agree h (fst (gather_stream_parameters h streams)).
Proof. apply gather_fold_agree. Qed.

(** ** The grouping engine, characterised *)

Lemma same_net_sta_inst_refl (h : Heap) (x : ref) : same_net_sta_inst h x x = true.
Proof.
  unfold same_net_sta_inst. rewrite !String.eqb_refl, eqb_reflx. reflexivity.
Qed.

Lemma same_net_sta_inst_sym (h : Heap) (x y : ref) :
  same_net_sta_inst h x y = same_net_sta_inst h y x.
Proof.
  unfold same_net_sta_inst.
  rewrite (String.eqb_sym (network _)), (String.eqb_sym (station _)),
          (String.eqb_sym (slice02 _)).
  f_equal. destruct (free_field (h x)), (free_field (h y)); reflexivity.
Qed.

Lemma same_net_sta_inst_true (h : Heap) (x y : ref) :
  same_net_sta_inst h x y = true <->
  network (stats (h x)) = network (stats (h y)) /\
  station (stats (h x)) = station (stats (h y)) /\
  slice02 (channel (stats (h x))) = slice02 (channel (stats (h y))) /\
  free_field (h x) = free_field (h y).
Proof.
  unfold same_net_sta_inst.
  rewrite !andb_true_iff, !String.eqb_eq, eqb_true_iff. tauto.
Qed.

Lemma same_net_sta_inst_trans (h : Heap) (x y z : ref) :
  same_net_sta_inst h x y = true -> same_net_sta_inst h y z = true ->
  same_net_sta_inst h x z = true.
Proof.
  rewrite !same_net_sta_inst_true.
  intros (A1 & A2 & A3 & A4) (B1 & B2 & B3 & B4).
  repeat split; congruence.
Qed.

Lemma same_location_refl (h : Heap) (x : ref) : same_location h x x = true.
Proof. apply String.eqb_refl. Qed.

Lemma same_location_sym (h : Heap) (x y : ref) :
  same_location h x y = same_location h y x.
Proof. apply String.eqb_sym. Qed.

Lemma same_location_trans (h : Heap) (x y z : ref) :
  same_location h x y = true -> same_location h y z = true ->
  same_location h x z = true.
Proof.
  unfold same_location. rewrite !String.eqb_eq. congruence.
Qed.

Lemma agree_same_net_sta_inst (h h' : Heap) :
  agree h h' ->
  forall x y, same_net_sta_inst h' x y = same_net_sta_inst h x y.
Proof.
  intros H x y. unfold same_net_sta_inst.
  destruct (H x) as [t ->], (H y) as [t' ->]. reflexivity.
Qed.

Lemma agree_same_location (h h' : Heap) :
  agree h h' -> forall x y, same_location h' x y = same_location h x y.
Proof.
  intros H x y. unfold same_location.
  destruct (H x) as [t ->], (H y) as [t' ->]. reflexivity.
Qed.

Lemma agree_uses_location (h h' : Heap) :
  agree h h' -> forall x, uses_location h' x = uses_location h x.
Proof.
  intros H x. unfold uses_location. destruct (H x) as [t ->]. reflexivity.
Qed.

Lemma agree_split_traces (h h' : Heap) :
  agree h h' -> forall c, split_traces h' c = split_traces h c.
Proof.
  intros H c. unfold split_traces. rewrite (agree_uses_location _ _ H).
  rewrite (classes_ext _ _ (agree_same_location _ _ H)). reflexivity.
Qed.

Lemma agree_grouped_traces (h h' : Heap) :
  agree h h' -> forall l, grouped_traces h' l = grouped_traces h l.
Proof.
  intros H l. unfold grouped_traces.
  rewrite (classes_ext _ _ (agree_same_net_sta_inst _ _ H)).
  f_equal. apply map_ext. apply (agree_split_traces _ _ H).
Qed.

Lemma split_step_insert (h : Heap) (y : ref) (cs : list (list ref)) :
  Forall (fun c => c <> []) cs ->
  split_step h (location_dict h cs) y
  = location_dict h (insert_class (same_location h) y cs).
Proof.
  unfold split_step. induction cs as [|c cs IH]; intro HF; [reflexivity|].
  inversion HF as [|? ? Hc HF']; subst. specialize (IH HF').
  destruct c as [|x c]; [contradiction|].
  cbn [location_dict map insert_class hd dict_get dict_set].
  unfold same_location at 1.
  destruct (String.eqb (location (stats (h x))) (location (stats (h y)))) eqn:E.
  - reflexivity.
  - fold (location_dict h cs).
    cbn [map hd].
    fold (location_dict h (insert_class (same_location h) y cs)).
    rewrite <- IH.
    destruct (dict_get (location (stats (h y))) (location_dict h cs)) as [st|];
      reflexivity.
Qed.

Lemma insert_class_nonempty {A : Type} (same : A -> A -> bool) (y : A)
    (cs : list (list A)) :
  Forall (fun c => c <> []) cs -> Forall (fun c => c <> []) (insert_class same y cs).
Proof.
  induction cs as [|c cs IH]; intro HF; simpl.
  - constructor; [discriminate | constructor].
  - inversion HF as [|? ? Hc HF']; subst.
    destruct (same (hd y c) y).
    + constructor; [|exact HF'].
      intro E. apply app_eq_nil in E. destruct E as [_ E]. discriminate.
    + constructor; [exact Hc | apply IH; exact HF'].
Qed.

Lemma fold_split_step (h : Heap) (l : list ref) (cs : list (list ref)) :
  Forall (fun c => c <> []) cs ->
  fold_left (split_step h) l (location_dict h cs)
  = location_dict h (fold_left (fun cs y => insert_class (same_location h) y cs) l cs).
Proof.
  revert cs. induction l as [|y l IH]; intros cs HF; [reflexivity|].
  cbn [fold_left]. rewrite split_step_insert by exact HF.
  apply IH. apply insert_class_nonempty. exact HF.
Qed.

Lemma location_dict_values (h : Heap) (cs : list (list ref)) :
  map snd (location_dict h cs) = map new_stream cs.
Proof. unfold location_dict. rewrite map_map. reflexivity. Qed.

(** [split_station] on a non-empty cluster. *)
Lemma split_station_spec (h : Heap) (c : list ref) :
  c <> [] -> split_station h c = Ok (map new_stream (split_traces h c)).
Proof.
  intro Hc. destruct c as [|x c]; [contradiction|].
  unfold split_station, split_traces, uses_location. cbn [hd].
  destruct (str_in (network (stats (h x))) NETWORKS_USING_LOCATION);
    [|reflexivity].
  f_equal. change (@nil (string * StationStream)) with (location_dict h []).
  rewrite fold_split_step by constructor.
  rewrite location_dict_values. f_equal.
  apply fold_insert_class.
  - apply same_location_refl.
  - apply same_location_sym.
  - apply same_location_trans.
Qed.

Lemma mapM_ok {A B : Type} (f : A -> result B) (g : A -> B) (l : list A) :
  (forall x, In x l -> f x = Ok (g x)) -> mapM f l = Ok (map g l).
Proof.
  induction l as [|x l IH]; intro H; [reflexivity|].
  simpl. rewrite H by (left; reflexivity). cbn [bind].
  rewrite IH by (intros y Hy; apply H; right; exact Hy). reflexivity.
Qed.

Lemma mapM_map {A B C : Type} (f : B -> result C) (g : A -> B) (l : list A) :
  mapM (fun x => f (g x)) l = mapM f (map g l).
Proof.
  induction l as [|x l IH]; [reflexivity|]. simpl. rewrite IH. reflexivity.
Qed.

Lemma insert_traces (h : Heap) (params : dict (dict pyvalue))
    (sts : list StationStream) :
  map traces (insert_stream_parameters h sts params) = map traces sts.
Proof.
  unfold insert_stream_parameters. rewrite map_map. apply map_ext.
  intro st. unfold insert_one.
  destruct (0 <? List.length (traces st))%nat; reflexivity.
Qed.

Lemma map_traces_new (cs : list (list ref)) : map traces (map new_stream cs) = cs.
Proof. rewrite map_map. apply map_id. Qed.

(** The grouping engine never raises; it makes one stream per class of the
    traces, classes of a network that uses the location code being split by
    location. *)
Lemma group_by_net_sta_inst_spec (h : Heap) (streams : list StationStream) :
  let h1 := fst (gather_stream_parameters h streams) in
  let stream_params := snd (gather_stream_parameters h streams) in
  exists groups,
    group_by_net_sta_inst h streams = Ok (h1, groups) /\
    groups = List.concat
               (map (fun c => insert_stream_parameters h1
                                (map new_stream (split_traces h1 c)) stream_params)
                    (classes (same_net_sta_inst h1) (flat_map traces streams))) /\
    map traces groups = grouped_traces h (flat_map traces streams).
Proof.
  intros h1 stream_params. eexists. split; [|split; [reflexivity|]].
  - unfold group_by_net_sta_inst.
    destruct (gather_stream_parameters h streams) as [h1' params'] eqn:EG.
    subst h1 stream_params. cbn [fst snd].
    rewrite (mapM_map
               (fun c => sts <- split_station h1' c ;;
                         Ok (insert_stream_parameters h1' sts params'))
               (fun groups => map (fun i => nth i (flat_map traces streams) 0%nat) groups)).
    rewrite (match_list_classes _ (same_net_sta_inst h1')
               (same_net_sta_inst_refl h1') (same_net_sta_inst_sym h1')
               (same_net_sta_inst_trans h1')).
    rewrite (mapM_ok _ (fun c => insert_stream_parameters h1'
                                   (map new_stream (split_traces h1' c)) params')).
    + reflexivity.
    + intros c Hc. rewrite split_station_spec; [reflexivity|].
      exact (classes_nonempty _ _ (same_net_sta_inst_refl h1') _ _ Hc).
  - rewrite concat_map, map_map.
    rewrite <- (agree_grouped_traces h h1 (gather_agree h streams)).
    unfold grouped_traces. f_equal. apply map_ext. intro c.
    rewrite insert_traces. apply map_traces_new.
Qed.

Lemma hd_In (c : list ref) : c <> [] -> In (hd 0%nat c) c.
Proof. destruct c; [contradiction | intros _; left; reflexivity]. Qed.

Lemma class_uses_location (h : Heap) (l c : list ref) (r : ref) :
  In c (classes (same_net_sta_inst h) l) -> In r c ->
  uses_location h (hd 0%nat c) = uses_location h r.
Proof.
  intros Hc Hr.
  assert (In (hd 0%nat c) c) as Hhd.
  { apply hd_In. exact (classes_nonempty _ _ (same_net_sta_inst_refl h) _ _ Hc). }
  destruct (classes_members _ _ (same_net_sta_inst_sym h)
              (same_net_sta_inst_trans h) _ _ _ _ Hc Hhd Hr) as (_ & _ & Hs).
  apply same_net_sta_inst_true in Hs. destruct Hs as (Hn & _).
  unfold uses_location. rewrite Hn. reflexivity.
Qed.

Lemma grouped_traces_In (h : Heap) (l g : list ref) :
  In g (grouped_traces h l) <->
  exists c, In c (classes (same_net_sta_inst h) l) /\ In g (split_traces h c).
Proof.
  unfold grouped_traces. rewrite in_concat. split.
  - intros (gs & Hgs & Hg). apply in_map_iff in Hgs.
    destruct Hgs as (c & <- & Hc). exists c. auto.
  - intros (c & Hc & Hg). exists (split_traces h c). split; [|exact Hg].
    apply in_map. exact Hc.
Qed.

(** Two traces are members of one group iff they are in the same class and,
    where the network uses the location code, at the same location. *)
Lemma grouped_traces_iff (h : Heap) (l : list ref) (r1 r2 : ref) :
  In r1 l -> In r2 l ->
  ((exists g, In g (grouped_traces h l) /\ In r1 g /\ In r2 g) <->
   same_net_sta_inst h r1 r2 = true /\
   (uses_location h r1 = true -> same_location h r1 r2 = true)).
Proof.
  intros H1 H2. split.
  - intros (g & Hg & Hr1 & Hr2). apply grouped_traces_In in Hg.
    destruct Hg as (c & Hc & Hg). unfold split_traces in Hg.
    destruct (uses_location h (hd 0%nat c)) eqn:EU.
    + destruct (classes_members _ _ (same_location_sym h) (same_location_trans h)
                  _ _ _ _ Hg Hr1 Hr2) as (Hc1 & Hc2 & Hloc).
      destruct (classes_members _ _ (same_net_sta_inst_sym h)
                  (same_net_sta_inst_trans h) _ _ _ _ Hc Hc1 Hc2) as (_ & _ & Hs).
      auto.
    + destruct Hg as [<-|[]].
      destruct (classes_members _ _ (same_net_sta_inst_sym h)
                  (same_net_sta_inst_trans h) _ _ _ _ Hc Hr1 Hr2) as (_ & _ & Hs).
      split; [exact Hs|].
      rewrite <- (class_uses_location h l c r1 Hc Hr1). congruence.
  - intros [Hs Hloc].
    destruct (classes_complete _ _ (same_net_sta_inst_refl h)
                (same_net_sta_inst_sym h) (same_net_sta_inst_trans h)
                l r1 r2 H1 H2 Hs) as (c & Hc & Hc1 & Hc2).
    pose proof (class_uses_location h l c r1 Hc Hc1) as EU.
    destruct (uses_location h r1) eqn:E1.
    + destruct (classes_complete _ _ (same_location_refl h)
                  (same_location_sym h) (same_location_trans h)
                  c r1 r2 Hc1 Hc2 (Hloc eq_refl)) as (g & Hg & Hg1 & Hg2).
      exists g. split; [|auto]. apply grouped_traces_In. exists c.
      split; [exact Hc|]. unfold split_traces. rewrite EU. exact Hg.
    + exists c. split; [|auto]. apply grouped_traces_In. exists c.
      split; [exact Hc|]. unfold split_traces. rewrite EU. left. reflexivity.
Qed.

Lemma split_traces_Permutation (h : Heap) (c : list ref) :
  Permutation (List.concat (split_traces h c)) c.
Proof.
  unfold split_traces. destruct (uses_location h (hd 0%nat c)).
  - apply classes_Permutation.
    + apply same_location_refl.
    + apply same_location_sym.
    + apply same_location_trans.
  - simpl. rewrite app_nil_r. apply Permutation_refl.
Qed.

Lemma concat_concat_map {A B : Type} (f : A -> list (list B)) (l : list A) :
  List.concat (List.concat (map f l)) = List.concat (map (fun x => List.concat (f x)) l).
Proof.
  induction l as [|x l IH]; [reflexivity|].
  simpl. rewrite concat_app, IH. reflexivity.
Qed.

Lemma grouped_traces_Permutation (h : Heap) (l : list ref) :
  Permutation (List.concat (grouped_traces h l)) l.
Proof.
  unfold grouped_traces. rewrite concat_concat_map.
  eapply Permutation_trans;
    [|exact (classes_Permutation _ _ (same_net_sta_inst_refl h)
               (same_net_sta_inst_sym h) (same_net_sta_inst_trans h) l)].
  induction (classes (same_net_sta_inst h) l) as [|c cs IH]; [constructor|].
  simpl. apply Permutation_app; [apply split_traces_Permutation | exact IH].
Qed.

Lemma grouped_traces_nonempty (h : Heap) (l g : list ref) :
  In g (grouped_traces h l) -> g <> [].
Proof.
  intro Hg. apply grouped_traces_In in Hg. destruct Hg as (c & Hc & Hg).
  pose proof (classes_nonempty _ _ (same_net_sta_inst_refl h) _ _ Hc) as Hne.
  unfold split_traces in Hg. destruct (uses_location h (hd 0%nat c)).
  - exact (classes_nonempty _ _ (same_location_refl h) _ _ Hg).
  - destruct Hg as [<-|[]]. exact Hne.
Qed.

(** C4: the grouping engine never raises and partitions the traces: no trace
    is lost or repeated and no group is empty; two traces are members of one
    group iff network, station, instrument code and free-field flag match
    and, when the network is one that uses the location code, so does the
    location; a trace that matches no other is a group of its own; and the
    four traces of the scenario make exactly two groups, one per location. *)
Theorem group_by_net_sta_inst_partition (h : Heap) (streams : list StationStream) :
  let trace_list := flat_map traces streams in
  exists h1 groups,
    group_by_net_sta_inst h streams = Ok (h1, groups) /\
    Permutation (flat_map traces groups) trace_list /\
    (forall g, In g groups -> traces g <> []) /\
    (forall r1 r2, In r1 trace_list -> In r2 trace_list ->
       ((exists g, In g groups /\ In r1 (traces g) /\ In r2 (traces g)) <->
        network (stats (h r1)) = network (stats (h r2)) /\
        station (stats (h r1)) = station (stats (h r2)) /\
        slice02 (channel (stats (h r1))) = slice02 (channel (stats (h r2))) /\
        free_field (h r1) = free_field (h r2) /\
        (str_in (network (stats (h r1))) NETWORKS_USING_LOCATION = true ->
         location (stats (h r1)) = location (stats (h r2))))) /\
    (forall r, In r trace_list ->
       (forall r', In r' trace_list -> r' <> r ->
                   same_net_sta_inst h r r' = false) ->
       exists g, In g groups /\ forall x, In x (traces g) <-> x = r) /\
    (exists h', group_by_net_sta_inst reclamation_heap reclamation_streams
                = Ok (h', [new_stream [0%nat; 2%nat]; new_stream [1%nat; 3%nat]])).
Proof.
  intro trace_list.
  destruct (group_by_net_sta_inst_spec h streams) as (groups & Hrun & _ & Htr).
  fold trace_list in Htr.
  assert (Hperm : Permutation (flat_map traces groups) trace_list).
  { rewrite flat_map_concat_map, Htr. apply grouped_traces_Permutation. }
  assert (Hiff : forall r1 r2, In r1 trace_list -> In r2 trace_list ->
            ((exists g, In g groups /\ In r1 (traces g) /\ In r2 (traces g)) <->
             same_net_sta_inst h r1 r2 = true /\
             (uses_location h r1 = true -> same_location h r1 r2 = true))).
  { intros r1 r2 H1 H2.
    rewrite <- (grouped_traces_iff h trace_list r1 r2 H1 H2). rewrite <- Htr.
    split.
    - intros (g & Hg & Hr). exists (traces g). split; [apply in_map; exact Hg | exact Hr].
    - intros (t & Ht & Hr). apply in_map_iff in Ht. destruct Ht as (g & <- & Hg).
      exists g. auto. }
  exists (fst (gather_stream_parameters h streams)), groups.
  split; [exact Hrun|]. split; [exact Hperm|]. split; [|split; [|split]].
  - intros g Hg. apply (grouped_traces_nonempty h trace_list).
    rewrite <- Htr. apply in_map. exact Hg.
  - intros r1 r2 H1 H2. rewrite (Hiff r1 r2 H1 H2).
    rewrite same_net_sta_inst_true. unfold uses_location, same_location.
    rewrite String.eqb_eq. tauto.
  - intros r Hr Halone.
    destruct (proj2 (Hiff r r Hr Hr)) as (g & Hg & Hrg & _).
    { split; [apply same_net_sta_inst_refl|]. intros _. apply same_location_refl. }
    exists g. split; [exact Hg|]. intro x. split; [|intros ->; exact Hrg].
    intro Hx. destruct (Nat.eq_dec x r) as [E|NE]; [exact E|]. exfalso.
    assert (In x trace_list) as Hxl.
    { apply (Permutation_in _ Hperm). apply in_flat_map. exists g. auto. }
    assert (same_net_sta_inst h r x = true) as Hs.
    { apply (proj1 (Hiff r x Hr Hxl)). exists g. auto. }
    rewrite (Halone x Hxl NE) in Hs. discriminate.
  - eexists. vm_compute. reflexivity.
Qed.

(** ** Grouping what is already grouped *)

Lemma hd_concat_classes {A : Type} (same : A -> A -> bool) (d x : A) (r : list A) :
  same x x = true -> hd d (List.concat (classes same (x :: r))) = x.
Proof.
  intro Hx. unfold classes. cbn [leaders existsb map List.concat filter].
  rewrite Hx. reflexivity.
Qed.

Lemma split_traces_idem (h : Heap) (c : list ref) :
  split_traces h (List.concat (split_traces h c)) = split_traces h c.
Proof.
  unfold split_traces at 2 3. destruct (uses_location h (hd 0%nat c)) eqn:EU.
  - unfold split_traces.
    destruct c as [|x r].
    { change (List.concat (classes (same_location h) [])) with (@nil ref).
      rewrite EU. reflexivity. }
    assert (Hhd : hd 0%nat (List.concat (classes (same_location h) (x :: r))) = x).
    { apply (hd_concat_classes (same_location h)). apply same_location_refl. }
    rewrite Hhd. cbn [hd] in EU. rewrite EU.
    apply classes_blocks.
    + apply same_location_sym.
    + apply blocks_classes.
      * apply same_location_refl.
      * apply same_location_sym.
      * apply same_location_trans.
  - cbn [List.concat]. rewrite app_nil_r. unfold split_traces. rewrite EU.
    reflexivity.
Qed.

Lemma Forall2_map_r {A B : Type} (R : A -> B -> Prop) (f : A -> B) (l : list A) :
  (forall x, In x l -> R x (f x)) -> Forall2 R l (map f l).
Proof.
  induction l as [|x l IH]; intro H; [constructor|].
  simpl. constructor; [apply H; left; reflexivity|].
  apply IH. intros y Hy. apply H. right. exact Hy.
Qed.

Lemma grouped_traces_idem (h : Heap) (l : list ref) :
  grouped_traces h (List.concat (grouped_traces h l)) = grouped_traces h l.
Proof.
  unfold grouped_traces at 2. rewrite concat_concat_map.
  unfold grouped_traces.
  rewrite (classes_blocks _ (same_net_sta_inst h) (same_net_sta_inst_sym h)).
  - rewrite map_map. f_equal. apply map_ext. intro c. apply split_traces_idem.
  - apply blocks_members with (M := classes (same_net_sta_inst h) l).
    + apply Forall2_map_r. intros c _ x. split; intro Hx.
      * exact (Permutation_in _ (split_traces_Permutation h c) Hx).
      * exact (Permutation_in _ (Permutation_sym (split_traces_Permutation h c)) Hx).
    + apply blocks_classes.
      * apply same_net_sta_inst_refl.
      * apply same_net_sta_inst_sym.
      * apply same_net_sta_inst_trans.
Qed.

(** C9: grouping the output of the grouping engine again changes no group:
    the second run returns groups with the same members as the first, in the
    same order. *)
Theorem group_by_net_sta_inst_idempotent (h : Heap) (streams : list StationStream) :
  exists h1 groups h2 groups',
    group_by_net_sta_inst h streams = Ok (h1, groups) /\
    group_by_net_sta_inst h1 groups = Ok (h2, groups') /\
    map traces groups' = map traces groups.
Proof.
  destruct (group_by_net_sta_inst_spec h streams) as (groups & Hrun & _ & Htr).
  destruct (group_by_net_sta_inst_spec (fst (gather_stream_parameters h streams)) groups)
    as (groups' & Hrun' & _ & Htr').
  do 4 eexists. split; [exact Hrun|]. split; [exact Hrun'|].
  rewrite Htr', Htr.
  rewrite (agree_grouped_traces h _ (gather_agree h streams)).
  rewrite flat_map_concat_map, Htr.
  apply grouped_traces_idem.
Qed.

(** ** Duplicate removal leaves duplicates *)

(** C10 (does not hold on the code): after [__handle_duplicates] the traces
    kept should be pairwise non-duplicates. Here the third trace replaces the
    first, its first duplicate among those kept, without being compared with
    the second, of which it is a duplicate too: both are kept. *)
Theorem handle_duplicates_keeps_duplicates
    (gps2dist_azimuth : Q -> Q -> Q -> Q -> result Q) (config : DuplicateConfig)
    (far : Q) :
  gps2dist_azimuth 37%Q 0%Q 38%Q 0%Q = Ok far -> (500 <= far)%Q ->
  gps2dist_azimuth 37%Q 0%Q 37%Q 0%Q = Ok 0%Q ->
  exists h1 streams,
    handle_duplicates gps2dist_azimuth config dup_heap dup_streams
      (Some 500%Q) (Some ["V2"; "V1"; "V0"]) (Some ["cosmos"; "dmg"])
    = Ok (h1, streams) /\
    map traces streams = [[1%nat]; [2%nat]] /\
    are_duplicates gps2dist_azimuth (h1 1%nat) (h1 2%nat) 500 = Ok true /\
    are_duplicates gps2dist_azimuth (h1 2%nat) (h1 1%nat) 500 = Ok true.
Proof.
  intros Hfar Hle Hnear.
  assert (Hlt : Qlt_bool far 500 = false) by (apply Qlt_bool_false_iff; exact Hle).
  unfold handle_duplicates.
  cbn [or_default dup_streams gather_stream_parameters fold_left gather_step
       st_parameters new_stream List.length Nat.ltb Nat.leb st_tag traces
       flat_map app].
  set (h1 := stamp (stamp (stamp dup_heap "" [0%nat]) "" [1%nat]) "" [2%nat]).
  assert (E10 : are_duplicates gps2dist_azimuth (h1 1%nat) (h1 0%nat) 500 = Ok false).
  { unfold are_duplicates. cbn. rewrite Hfar. cbn [bind]. rewrite Hlt. reflexivity. }
  assert (E20 : are_duplicates gps2dist_azimuth (h1 2%nat) (h1 0%nat) 500 = Ok true)
    by reflexivity.
  assert (E12 : are_duplicates gps2dist_azimuth (h1 1%nat) (h1 2%nat) 500 = Ok true).
  { unfold are_duplicates. cbn. rewrite Hnear. reflexivity. }
  assert (E21 : are_duplicates gps2dist_azimuth (h1 2%nat) (h1 1%nat) 500 = Ok true).
  { unfold are_duplicates. cbn. rewrite Hnear. reflexivity. }
  do 2 eexists.
  match goal with
  | |- context [dedup ?g ?h ?tol ?plp ?fp ?trs ?kept] =>
      assert (Hrun : dedup g h tol plp fp trs kept = Ok [1%nat; 2%nat])
  end.
  { cbn [dedup]. unfold dedup_step. cbn [find_duplicate bind app].
    rewrite E10. cbn [find_duplicate bind app].
    rewrite E20. cbn [bind]. reflexivity. }
  rewrite Hrun. cbn [bind].
  split; [reflexivity|]. split; [reflexivity|].
  split; [exact E12 | exact E21].
Qed.

Lemma handle_duplicates_keeps_duplicates_witness :
  exists h1 streams,
    handle_duplicates example_gps2dist example_config dup_heap dup_streams
      (Some 500%Q) (Some ["V2"; "V1"; "V0"]) (Some ["cosmos"; "dmg"])
    = Ok (h1, streams) /\
    map traces streams = [[1%nat]; [2%nat]] /\
    are_duplicates example_gps2dist (h1 1%nat) (h1 2%nat) 500 = Ok true /\
    are_duplicates example_gps2dist (h1 2%nat) (h1 1%nat) 500 = Ok true.
Proof.
  apply (handle_duplicates_keeps_duplicates example_gps2dist example_config 100000).
  - reflexivity.
  - discriminate.
  - reflexivity.
Defined.

(** ** Collections without duplicates *)

Lemma are_duplicates_false (gps2dist_azimuth : Q -> Q -> Q -> Q -> result Q)
    (tr1 tr2 : StationTrace) (max_dist_tolerance d : Q) :
  id_eqb (trace_id tr1) (trace_id tr2) = false ->
  gps2dist_azimuth (latitude (coordinates (stats tr1)))
                   (longitude (coordinates (stats tr1)))
                   (latitude (coordinates (stats tr2)))
                   (longitude (coordinates (stats tr2))) = Ok d ->
  String.eqb (station (stats tr1)) (station (stats tr2)) &&
  String.eqb (location (stats tr1)) (location (stats tr2)) &&
  String.eqb (channel (stats tr1)) (channel (stats tr2)) = false ->
  are_duplicates gps2dist_azimuth tr1 tr2 max_dist_tolerance = Ok false.
Proof.
  intros Hid Hd Hcodes. unfold are_duplicates.
  rewrite Hid, Hd. cbn [bind]. rewrite Hcodes. reflexivity.
Qed.

Section NoDuplicates.
Variable gps2dist_azimuth : Q -> Q -> Q -> Q -> result Q.
Variable h : Heap.
Variable max_dist_tolerance : Q.
Variables process_level_preference format_preference : list string.

Lemma find_duplicate_none (x : ref) (kept : list ref) :
  Forall (fun y => distinct_from gps2dist_azimuth h max_dist_tolerance y x) kept ->
  find_duplicate gps2dist_azimuth h max_dist_tolerance x kept = Ok None.
Proof.
  induction 1 as [|y kept Hy _ IH]; [reflexivity|].
  cbn [find_duplicate]. rewrite Hy. cbn [bind]. exact IH.
Qed.

(** Traces none of which is a duplicate of one before it are all kept, in
    their order. *)
Lemma dedup_all_kept (trs kept : list ref) :
  ForallOrdPairs (distinct_from gps2dist_azimuth h max_dist_tolerance) (kept ++ trs) ->
  dedup gps2dist_azimuth h max_dist_tolerance process_level_preference
        format_preference trs kept = Ok (kept ++ trs).
Proof.
  revert kept. induction trs as [|x trs IH]; intros kept HF.
  - rewrite app_nil_r. reflexivity.
  - cbn [dedup]. unfold dedup_step. rewrite find_duplicate_none.
    + cbn [bind]. rewrite IH; rewrite <- app_assoc; [reflexivity | exact HF].
    + clear IH. induction kept as [|y kept IHk]; [constructor|].
      cbn [app] in HF. inversion HF as [|? ? Hy HF']; subst.
      constructor; [|apply IHk; exact HF'].
      rewrite Forall_forall in Hy. apply Hy. apply in_or_app. right. left.
      reflexivity.
Qed.
End NoDuplicates.

(** The constructor, once the streams it keeps and the traces that survive
    the removal of duplicates are known. *)
Lemma StreamCollection_init_unfold
    (gps2dist_azimuth : Q -> Q -> Q -> Q -> result Q) (config : DuplicateConfig)
    (h : Heap) (streams newstreams : list StationStream) (drop_non_free : bool)
    (max_dist_tolerance : option Q)
    (process_level_preference format_preference : option (list string))
    (kept : list ref) :
  ingest h drop_non_free streams = Ok newstreams ->
  newstreams <> [] ->
  dedup gps2dist_azimuth (fst (gather_stream_parameters h newstreams))
        (or_default max_dist_tolerance (cfg_max_dist_tolerance config))
        (or_default process_level_preference (cfg_process_level_preference config))
        (or_default format_preference (cfg_format_preference config))
        (flat_map traces newstreams) [] = Ok kept ->
  StreamCollection_init gps2dist_azimuth config h streams drop_non_free true
    max_dist_tolerance process_level_preference format_preference
  = (grouped <- group_by_net_sta_inst
                  (fst (gather_stream_parameters h newstreams))
                  (insert_stream_parameters
                     (fst (gather_stream_parameters h newstreams))
                     (map (fun tr => new_stream [tr]) kept)
                     (snd (gather_stream_parameters h newstreams))) ;;
     _ <- validate (snd grouped) ;;
     Ok grouped).
Proof.
  intros Hin Hne Hdedup. unfold StreamCollection_init.
  rewrite Hin. cbn [bind andb].
  destruct newstreams as [|s rest]; [contradiction|].
  cbn [List.length Nat.ltb Nat.leb]. unfold handle_duplicates.
  destruct (gather_stream_parameters h (s :: rest)) as [h1 params].
  cbn [fst snd] in *. rewrite Hdedup. reflexivity.
Qed.

(** ** Parameters across a dedup and regroup cycle *)

Ltac not_a_duplicate Hd :=
  unfold distinct_from;
  eapply are_duplicates_false; [reflexivity | exact Hd | reflexivity].

(** C1 (does not hold on the code): a group whose canonical identifier is
    unchanged by a dedup and regroup cycle should carry the same tag and
    parameters after it. The snapshot is keyed by the identifier alone, and
    two groups that the grouping engine keeps apart (by location, for a
    network that uses the location code; by free-field flag) have the same
    identifier: after the cycle both carry the parameters of the last one.
    The groups, their members, their identifiers and their tags are
    unchanged; the parameters of the first group are not. *)
Theorem regroup_overwrites_parameters
    (gps2dist_azimuth : Q -> Q -> Q -> Q -> result Q) (config : DuplicateConfig)
    (d : Q) :
  gps2dist_azimuth 37%Q 0%Q 37%Q 0%Q = Ok d ->
  (exists h' first second,
     StreamCollection_init gps2dist_azimuth config reclamation_heap
       reclamation_groups true true None None None = Ok (h', [first; second]) /\
     map traces [first; second] = map traces reclamation_groups /\
     map (get_id h') [first; second]
       = map (get_id reclamation_heap) reclamation_groups /\
     map st_tag [first; second] = map st_tag reclamation_groups /\
     st_parameters first = params_two /\ st_parameters second = params_two) /\
  (exists h' first second,
     StreamCollection_init gps2dist_azimuth config site_heap
       site_groups false true None None None = Ok (h', [first; second]) /\
     map traces [first; second] = map traces site_groups /\
     map (get_id h') [first; second] = map (get_id site_heap) site_groups /\
     map st_tag [first; second] = map st_tag site_groups /\
     st_parameters first = params_two /\ st_parameters second = params_two).
Proof.
  intro Hd. split.
  - rewrite (StreamCollection_init_unfold gps2dist_azimuth config
               reclamation_heap reclamation_groups reclamation_groups
               true None None None [0%nat; 2%nat; 1%nat; 3%nat]).
    + do 3 eexists. split; [vm_compute; reflexivity|].
      repeat split; reflexivity.
    + reflexivity.
    + discriminate.
    + apply (dedup_all_kept gps2dist_azimuth _ _ _ _
               [0%nat; 2%nat; 1%nat; 3%nat] []).
      repeat (constructor; [repeat (constructor; [not_a_duplicate Hd|]);
                            constructor|]).
      constructor.
  - rewrite (StreamCollection_init_unfold gps2dist_azimuth config
               site_heap site_groups site_groups
               false None None None [0%nat; 1%nat]).
    + do 3 eexists. split; [vm_compute; reflexivity|].
      repeat split; reflexivity.
    + reflexivity.
    + discriminate.
    + apply (dedup_all_kept gps2dist_azimuth _ _ _ _ [0%nat; 1%nat] []).
      repeat (constructor; [repeat (constructor; [not_a_duplicate Hd|]);
                            constructor|]).
      constructor.
Qed.

Lemma regroup_overwrites_parameters_witness :
  exists h' first second,
    StreamCollection_init example_gps2dist example_config reclamation_heap
      reclamation_groups true true None None None = Ok (h', [first; second]) /\
    map traces [first; second] = map traces reclamation_groups /\
    map (get_id h') [first; second]
      = map (get_id reclamation_heap) reclamation_groups /\
    map st_tag [first; second] = map st_tag reclamation_groups /\
    st_parameters first = params_two /\ st_parameters second = params_two.
Proof.
  apply (proj1 (regroup_overwrites_parameters example_gps2dist example_config 0
                  eq_refl)).
Defined.

(** ** Colocated instruments *)

(** C5 (does not hold on the code): [select_colocated] should fail the
    traces of the losing groups of a (network, station) cluster and no
    others. The losers are failed through [self.select(instrument=tf)],
    which selects by instrument code over the whole collection: the BN group
    of ST02, alone at its station, is failed together with the BN group of
    ST01, which lost to the HN group there. *)
Theorem select_colocated_fails_other_stations
    (gps2dist_azimuth : Q -> Q -> Q -> Q -> result Q) (config : DuplicateConfig)
    (d : Q) :
  gps2dist_azimuth 38%Q 0%Q 37%Q 0%Q = Ok d ->
  match_list (fun stream1 stream2 =>
                String.eqb (get_net_sta colocated_heap stream1)
                           (get_net_sta colocated_heap stream2))
             colocated_streams
  = [[0%nat; 1%nat]; [2%nat]] /\
  exists h',
    select_colocated gps2dist_azimuth config colocated_heap colocated_streams
      ["HN?"; "BN?"; "HH?"; "BH?"] = Ok h' /\
    parameters (h' 0%nat) = [] /\
    parameters (h' 1%nat) = colocated_failure "HN" /\
    parameters (h' 2%nat) = colocated_failure "HN" /\
    map (passed h') colocated_streams = [true; false; false].
Proof.
  intro Hd. split; [reflexivity|].
  evar (selected : result (Heap * list StationStream)).
  assert (Hsel : select gps2dist_azimuth config colocated_heap colocated_streams
                   None None (Some "BN") = selected).
  { unfold select.
    match goal with
    | |- StreamCollection_init _ _ _ ?sel _ _ _ _ _ = _ =>
        replace sel with [new_stream [1%nat]; new_stream [2%nat]]
          by (vm_compute; reflexivity)
    end.
    subst selected.
    apply (StreamCollection_init_unfold gps2dist_azimuth config colocated_heap
             [new_stream [1%nat]; new_stream [2%nat]]
             [new_stream [1%nat]; new_stream [2%nat]]
             true None None None [1%nat; 2%nat]).
    - reflexivity.
    - discriminate.
    - apply (dedup_all_kept gps2dist_azimuth _ _ _ _ [1%nat; 2%nat] []).
      repeat (constructor; [repeat (constructor; [not_a_duplicate Hd|]);
                            constructor|]).
      constructor. }
  destruct (select_colocated gps2dist_azimuth config colocated_heap
              colocated_streams ["HN?"; "BN?"; "HH?"; "BH?"]) as [h'|e] eqn:E;
    unfold select_colocated in E;
    match type of E with
    | context [match_list ?f ?l] =>
        replace (match_list f l) with [[0%nat; 1%nat]; [2%nat]] in E
          by (vm_compute; reflexivity)
    end;
    cbn [foldM] in E; unfold colocated_group at 1 in E;
    cbn [List.length Nat.ltb Nat.leb] in E;
    match type of E with
    | context [first_preferred ?p ?i] =>
        replace (first_preferred p i) with (Some "HN") in E
          by (vm_compute; reflexivity)
    end;
    match type of E with
    | context [str_remove ?k ?i] =>
        replace (str_remove k i) with ["BN"] in E by (vm_compute; reflexivity)
    end;
    cbn [foldM bind] in E; rewrite Hsel in E; subst selected;
    vm_compute in E.
  - injection E as <-. eexists. repeat split; reflexivity.
  - discriminate E.
Qed.

Lemma select_colocated_fails_other_stations_witness :
  exists h',
    select_colocated example_gps2dist example_config colocated_heap
      colocated_streams ["HN?"; "BN?"; "HH?"; "BH?"] = Ok h' /\
    parameters (h' 0%nat) = [] /\
    parameters (h' 1%nat) = colocated_failure "HN" /\
    parameters (h' 2%nat) = colocated_failure "HN" /\
    map (passed h') colocated_streams = [true; false; false].
Proof.
  apply (proj2 (select_colocated_fails_other_stations example_gps2dist
                  example_config 100000 eq_refl)).
Defined.

(** ** Validation *)

Lemma nodup_short (l : list string) :
  (List.length (nodup string_dec l) <= 1)%nat <->
  (forall x y, In x l -> In y l -> x = y).
Proof.
  pose proof (NoDup_nodup string_dec l) as ND.
  pose proof (nodup_In string_dec l) as IN.
  destruct (nodup string_dec l) as [|a [|b r]]; simpl.
  - split; [|lia]. intros _ x y Hx. apply IN in Hx. destruct Hx.
  - split; [|lia]. intros _ x y Hx Hy. apply IN in Hx, Hy.
    simpl in Hx, Hy. destruct Hx as [<-|[]], Hy as [<-|[]]. reflexivity.
  - split; [lia|]. intro H. exfalso.
    assert (a = b) as -> by (apply H; apply IN; simpl; auto).
    inversion ND as [|? ? Hnin _]. apply Hnin. simpl. auto.
Qed.

(** C8 (as stated, refuted): two groups with two distinct tags, which share
    the label, pass [validate]; a group whose tag has no label makes it
    raise another error although all tags are the same; and constructing a
    collection from a group tagged "evt_sta_A" and a group tagged "evt_sta_B"
    whose traces the grouping engine puts in one group raises nothing: the
    group made of them carries the tag of its first trace. (The distance of
    the example is the distance between two equal points, zero.) *)
Lemma validate_accepts_distinct_tags :
  st_tag (tagged [0%nat] "evt_sta1_lab") <> st_tag (tagged [1%nat] "evt_sta2_lab") /\
  validate [tagged [0%nat] "evt_sta1_lab"; tagged [1%nat] "evt_sta2_lab"] = Ok tt /\
  validate [tagged [0%nat] "evt"; tagged [1%nat] "evt"] = Raise ValueError /\
  exists h',
    StreamCollection_init example_gps2dist example_config reclamation_heap
      [tagged [0%nat] "evt_sta_A"; tagged [2%nat] "evt_sta_B"]
      true true None None None
    = Ok (h', [tagged [0%nat; 2%nat] "evt_sta_A"]).
Proof.
  split; [discriminate|]. split; [reflexivity|]. split; [reflexivity|].
  eexists. vm_compute. reflexivity.
Qed.

(** C8 (amended): when every tag has its three fields (event, station,
    label), [validate] raises the consistency error iff the groups carry more
    than one distinct label, an untagged group counting as the empty label,
    and returns normally iff all labels are equal. In particular it raises on
    groups tagged "evt_sta_A" and "evt_sta_B", and so does the construction of
    a collection from two such groups of different stations, which the
    grouping engine keeps apart. *)
Theorem validate_single_label (streams : list StationStream)
    (all_labels : list string) :
  mapM stream_label streams = Ok all_labels ->
  (validate streams = Raise GMProcessException <->
   exists x y, In x all_labels /\ In y all_labels /\ x <> y) /\
  (validate streams = Ok tt <->
   forall x y, In x all_labels -> In y all_labels -> x = y) /\
  (forall trs1 trs2,
     validate [tagged trs1 "evt_sta_A"; tagged trs2 "evt_sta_B"]
     = Raise GMProcessException) /\
  (forall gps2dist_azimuth config d,
     gps2dist_azimuth 38%Q 0%Q 37%Q 0%Q = Ok d ->
     StreamCollection_init gps2dist_azimuth config colocated_heap
       [tagged [1%nat] "evt_sta_A"; tagged [2%nat] "evt_sta_B"]
       true true None None None
     = Raise GMProcessException).
Proof.
  intro H.
  assert (Hinit : forall gps2dist_azimuth config d,
            gps2dist_azimuth 38%Q 0%Q 37%Q 0%Q = Ok d ->
            StreamCollection_init gps2dist_azimuth config colocated_heap
              [tagged [1%nat] "evt_sta_A"; tagged [2%nat] "evt_sta_B"]
              true true None None None
            = Raise GMProcessException).
  { intros gps config d Hd.
    rewrite (StreamCollection_init_unfold gps config colocated_heap
               [tagged [1%nat] "evt_sta_A"; tagged [2%nat] "evt_sta_B"]
               [tagged [1%nat] "evt_sta_A"; tagged [2%nat] "evt_sta_B"]
               true None None None [1%nat; 2%nat]).
    - vm_compute. reflexivity.
    - reflexivity.
    - discriminate.
    - apply (dedup_all_kept gps _ _ _ _ [1%nat; 2%nat] []).
      repeat (constructor; [repeat (constructor; [not_a_duplicate Hd|]);
                            constructor|]).
      constructor. }
  unfold validate. rewrite H. cbn [bind].
  pose proof (nodup_short all_labels) as S.
  destruct (Nat.ltb_spec 1 (List.length (nodup string_dec all_labels))) as [L|L].
  - split; [|split].
    + split; [|reflexivity]. intros _.
      destruct (nodup string_dec all_labels) as [|a [|b r]] eqn:E;
        simpl in L; try lia.
      pose proof (NoDup_nodup string_dec all_labels) as ND.
      pose proof (nodup_In string_dec all_labels) as IN.
      rewrite E in ND, IN. exists a, b. repeat split.
      * apply IN. simpl. auto.
      * apply IN. simpl. auto.
      * intros ->. inversion ND as [|? ? Hnin _]. apply Hnin. simpl. auto.
    + split; [discriminate|]. intro A. apply S in A. lia.
    + split; [reflexivity | exact Hinit].
  - split; [|split].
    + split; [discriminate|]. intros (x & y & Hx & Hy & Hne).
      exfalso. apply Hne. apply S; assumption.
    + split; [|reflexivity]. intros _. apply S. exact L.
    + split; [reflexivity | exact Hinit].
Qed.

Lemma validate_single_label_witness :
  validate [tagged [0%nat] "evt_sta1_lab"; new_stream [1%nat]]
  = Raise GMProcessException.
Proof.
  apply (proj1 (validate_single_label
                  [tagged [0%nat] "evt_sta1_lab"; new_stream [1%nat]]
                  ["lab"; ""] eq_refl)).
  exists "lab", "". repeat split; simpl; auto. discriminate.
Defined.


(** ** Scenarios of the specification *)

(** Two traces of one identifier, one of raw counts and one of corrected
    physical units, with the corrected level preferred: the collection built
    from them holds the corrected trace alone, whichever comes first. *)
Theorem init_keeps_corrected_trace
    (gps2dist_azimuth : Q -> Q -> Q -> Q -> result Q) (config : DuplicateConfig) :
  (exists h',
     StreamCollection_init gps2dist_azimuth config levels_heap
       [new_stream [0%nat]; new_stream [1%nat]] true true None
       (Some ["V2"; "V0"]) None = Ok (h', [new_stream [1%nat]])) /\
  (exists h',
     StreamCollection_init gps2dist_azimuth config levels_heap
       [new_stream [1%nat]; new_stream [0%nat]] true true None
       (Some ["V2"; "V0"]) None = Ok (h', [new_stream [1%nat]])).
Proof. split; eexists; vm_compute; reflexivity. Qed.

(** Three traces of one station, in an HN group and a BN group, with
    HN preferred to BN: the HN group passes and the trace of the BN group is
    failed with a reason that names HN. *)
Theorem select_colocated_prefers_HN
    (gps2dist_azimuth : Q -> Q -> Q -> Q -> result Q) (config : DuplicateConfig) :
  exists h',
    select_colocated gps2dist_azimuth config pair_heap pair_streams
      ["HN?"; "BN?"] = Ok h' /\
    map (passed h') pair_streams = [true; false] /\
    parameters (h' 0%nat) = [] /\ parameters (h' 1%nat) = [] /\
    parameters (h' 2%nat) = colocated_failure "HN".
Proof.
  eexists. split; [vm_compute; reflexivity|]. repeat split; reflexivity.
Qed.

(** Two traces of different identifiers whose distance is not below the
    tolerance are not duplicates. *)
Theorem are_duplicates_far_apart
    (gps2dist_azimuth : Q -> Q -> Q -> Q -> result Q)
    (tr1 tr2 : StationTrace) (max_dist_tolerance d : Q) :
  trace_id tr1 <> trace_id tr2 ->
  gps2dist_azimuth (latitude (coordinates (stats tr1)))
                   (longitude (coordinates (stats tr1)))
                   (latitude (coordinates (stats tr2)))
                   (longitude (coordinates (stats tr2))) = Ok d ->
  (max_dist_tolerance <= d)%Q ->
  are_duplicates gps2dist_azimuth tr1 tr2 max_dist_tolerance = Ok false.
Proof.
  intros Hid Hd Hle. unfold are_duplicates.
  destruct (id_eqb (trace_id tr1) (trace_id tr2)) eqn:E.
  { apply id_eqb_eq in E. contradiction. }
  rewrite Hd. cbn [bind].
  apply Qlt_bool_false_iff in Hle. rewrite Hle.
  rewrite !andb_false_r. reflexivity.
Qed.

Lemma are_duplicates_far_apart_witness :
  are_duplicates example_gps2dist (dup_heap 1%nat) (dup_heap 0%nat) 500 = Ok false.
Proof.
  apply (are_duplicates_far_apart example_gps2dist (dup_heap 1%nat)
           (dup_heap 0%nat) 500 100000).
  - discriminate.
  - reflexivity.
  - discriminate.
Defined.

(** ** The carry-over of tags and parameters, when identifiers are distinct *)

Lemma dict_get_set_same {V : Type} (k : string) (v : V) (d : dict V) :
  dict_get k (dict_set k v d) = Some v.
Proof.
  induction d as [|[k' v'] d IH]; simpl.
  - rewrite String.eqb_refl. reflexivity.
  - destruct (String.eqb k' k) eqn:E; simpl; rewrite E; [reflexivity | exact IH].
Qed.

Lemma dict_get_set_other {V : Type} (k k' : string) (v : V) (d : dict V) :
  k' <> k -> dict_get k (dict_set k' v d) = dict_get k d.
Proof.
  intro Hne. induction d as [|[k0 v0] d IH]; simpl.
  - apply String.eqb_neq in Hne. rewrite Hne. reflexivity.
  - destruct (String.eqb k0 k') eqn:E; simpl.
    + apply String.eqb_eq in E. subst k0.
      apply String.eqb_neq in Hne. rewrite Hne. reflexivity.
    + destruct (String.eqb k0 k); [reflexivity | exact IH].
Qed.

Lemma stamp_out (trs : list ref) (t : string) (h : Heap) (r : ref) :
  ~ In r trs -> stamp h t trs r = h r.
Proof.
  unfold stamp. revert h. induction trs as [|x trs IH]; intros h Hr; [reflexivity|].
  simpl. rewrite IH by (intro H; apply Hr; right; exact H).
  unfold heap_set. destruct (Nat.eqb_spec r x) as [->|_]; [|reflexivity].
  exfalso. apply Hr. left. reflexivity.
Qed.

Lemma stamp_in (trs : list ref) (t : string) (h : Heap) (r : ref) :
  In r trs -> tag (stats (stamp h t trs r)) = t.
Proof.
  revert h. induction trs as [|x trs IH]; intros h Hr; [destruct Hr|].
  destruct (in_dec Nat.eq_dec r trs) as [Hin|Hout].
  - unfold stamp. simpl. apply (IH _ Hin).
  - destruct Hr as [->|Hr]; [|contradiction].
    unfold stamp. simpl.
    change (fold_left (fun h' r0 => heap_set h' r0 (set_tag (h' r0) t)) trs
              (heap_set h r (set_tag (h r) t)))
      with (stamp (heap_set h r (set_tag (h r) t)) t trs).
    rewrite stamp_out by exact Hout.
    unfold heap_set. rewrite Nat.eqb_refl. reflexivity.
Qed.

Lemma agree_get_id (h h' : Heap) :
  agree h h' -> forall st, get_id h' st = get_id h st.
Proof.
  intros H st. unfold get_id, get_net_sta, get_inst, first_trace.
  destruct (H (hd 0%nat (traces st))) as [t ->]. reflexivity.
Qed.

Lemma gather_snoc (h : Heap) (L : list StationStream) (s : StationStream) :
  gather_stream_parameters h (L ++ [s])
  = gather_step (gather_stream_parameters h L) s.
Proof. unfold gather_stream_parameters. rewrite fold_left_app. reflexivity. Qed.

(** The tag a stream stamps on its traces. *)
Lemma gather_step_heap (h : Heap) (d : dict (dict pyvalue)) (s : StationStream) :
  fst (gather_step (h, d) s) = stamp h (stream_tag_string s) (traces s).
Proof. reflexivity. Qed.

Lemma gather_step_params (h : Heap) (d : dict (dict pyvalue)) (s : StationStream) :
  snd (gather_step (h, d) s)
  = if (0 <? List.length (st_parameters s))%nat
    then dict_set (get_id h s) (st_parameters s) d else d.
Proof. reflexivity. Qed.

Section Gather.
Variable h : Heap.

(** After [gather_stream_parameters] every trace carries the tag of its
    stream, if the streams that share a trace have one tag. *)
Lemma gather_tag (L : list StationStream) :
  (forall s s' r, In s L -> In s' L -> In r (traces s) -> In r (traces s') ->
                  stream_tag_string s = stream_tag_string s') ->
  forall s r, In s L -> In r (traces s) ->
    tag (stats (fst (gather_stream_parameters h L) r)) = stream_tag_string s.
Proof.
  induction L as [|s0 L IH] using rev_ind; intros Hcons s r Hs Hr; [destruct Hs|].
  rewrite gather_snoc.
  destruct (gather_stream_parameters h L) as [h' d] eqn:EG.
  rewrite gather_step_heap.
  destruct (in_dec Nat.eq_dec r (traces s0)) as [Hin|Hout].
  - rewrite stamp_in by exact Hin.
    apply (Hcons s0 s r); try assumption.
    apply in_or_app. right. left. reflexivity.
  - rewrite stamp_out by exact Hout.
    apply in_app_or in Hs. destruct Hs as [Hs|[<-|[]]]; [|contradiction].
    change h' with (fst (h', d)).
    apply IH; try assumption.
    intros a b x Ha Hb. apply Hcons; apply in_or_app; left; assumption.
Qed.

(** A snapshot entry comes from a stream with that identifier and with
    parameters. *)
Lemma gather_params_inv (L : list StationStream) (k : string) (p : dict pyvalue) :
  dict_get k (snd (gather_stream_parameters h L)) = Some p ->
  exists s, In s L /\ get_id h s = k /\ st_parameters s = p /\
            (0 <? List.length (st_parameters s))%nat = true.
Proof.
  induction L as [|s0 L IH] using rev_ind; intro H; [discriminate H|].
  rewrite gather_snoc in H.
  pose proof (gather_agree h L) as Hag.
  destruct (gather_stream_parameters h L) as [h' d] eqn:EG.
  rewrite gather_step_params in H. cbn [fst snd] in *.
  rewrite (agree_get_id _ _ Hag) in H.
  destruct (0 <? List.length (st_parameters s0))%nat eqn:Elen.
  - destruct (string_dec (get_id h s0) k) as [Ek|Ek].
    + subst k. rewrite dict_get_set_same in H. injection H as <-.
      exists s0. repeat split; try assumption.
      apply in_or_app. right. left. reflexivity.
    + rewrite dict_get_set_other in H by exact Ek.
      destruct (IH H) as (s & Hs & Hrest). exists s. split; [|exact Hrest].
      apply in_or_app. left. exact Hs.
  - destruct (IH H) as (s & Hs & Hrest). exists s. split; [|exact Hrest].
    apply in_or_app. left. exact Hs.
Qed.

(** The snapshot holds the parameters of every stream that has some, under
    its identifier, if the streams that share an identifier have the same
    parameters. *)
Lemma gather_params (L : list StationStream) :
  (forall s s', In s L -> In s' L -> get_id h s = get_id h s' ->
                st_parameters s = st_parameters s') ->
  forall s, In s L ->
    dict_get (get_id h s) (snd (gather_stream_parameters h L))
    = if (0 <? List.length (st_parameters s))%nat
      then Some (st_parameters s) else None.
Proof.
  intros Hcons s Hs.
  destruct (dict_get (get_id h s) (snd (gather_stream_parameters h L)))
    as [p|] eqn:E.
  - destruct (gather_params_inv L _ _ E) as (s' & Hs' & Hid & Hp & Hlen).
    rewrite <- (Hcons s' s Hs' Hs Hid). rewrite Hlen, Hp. reflexivity.
  - destruct (0 <? List.length (st_parameters s))%nat eqn:Elen; [|reflexivity].
    exfalso. revert E. clear Hcons.
    induction L as [|s0 L IH] using rev_ind; [destruct Hs|].
    rewrite gather_snoc.
    pose proof (gather_agree h L) as Hag.
    destruct (gather_stream_parameters h L) as [h' d] eqn:EG.
    rewrite gather_step_params. cbn [fst snd] in *.
    rewrite (agree_get_id _ _ Hag).
    apply in_app_or in Hs. destruct Hs as [Hs|[<-|[]]].
    + destruct (0 <? List.length (st_parameters s0))%nat.
      * destruct (string_dec (get_id h s0) (get_id h s)) as [Ek|Ek].
        -- rewrite Ek, dict_get_set_same. discriminate.
        -- rewrite dict_get_set_other by exact Ek. apply IH. exact Hs.
      * apply IH. exact Hs.
    + rewrite Elen, dict_get_set_same. discriminate.
Qed.
End Gather.

Lemma list_remove_In (h : Heap) (x r : ref) (l : list ref) :
  In r (list_remove h x l) -> In r l.
Proof.
  induction l as [|y l IH]; intro H; [exact H|].
  simpl in H. destruct (Nat.eqb y x || trace_eqb (h y) (h x)).
  - right. exact H.
  - destruct H as [<-|H]; [left; reflexivity | right; apply IH; exact H].
Qed.

(** The traces kept by the removal of duplicates are traces of the input. *)
Lemma dedup_In (gps2dist_azimuth : Q -> Q -> Q -> Q -> result Q) (h : Heap)
    (max_dist_tolerance : Q) (process_level_preference format_preference : list string)
    (trs kept res : list ref) :
  dedup gps2dist_azimuth h max_dist_tolerance process_level_preference
        format_preference trs kept = Ok res ->
  forall r, In r res -> In r kept \/ In r trs.
Proof.
  revert kept. induction trs as [|x trs IH]; intros kept H r Hr.
  - injection H as <-. left. exact Hr.
  - cbn [dedup] in H.
    destruct (dedup_step gps2dist_azimuth h max_dist_tolerance
                process_level_preference format_preference kept x)
      as [kept'|e] eqn:Estep; [|discriminate H].
    cbn [bind] in H. destruct (IH _ H r Hr) as [Hk|Ht]; [|right; right; exact Ht].
    unfold dedup_step in Estep.
    destruct (find_duplicate gps2dist_azimuth h max_dist_tolerance x kept)
      as [[tr_pref|]|e]; cbn [bind] in Estep; try discriminate Estep.
    + destruct (choose_preferred (h x) (h tr_pref) process_level_preference
                  format_preference) as [chosen|e]; cbn [bind] in Estep;
        [|discriminate Estep].
      destruct (is_trace h chosen x); injection Estep as <-.
      * apply in_app_or in Hk. destruct Hk as [Hk|[<-|[]]].
        -- left. exact (list_remove_In _ _ _ _ Hk).
        -- right. left. reflexivity.
      * left. exact Hk.
    + injection Estep as <-. apply in_app_or in Hk.
      destruct Hk as [Hk|[<-|[]]]; [left; exact Hk | right; left; reflexivity].
Qed.

Lemma NoDup_map_In {A B : Type} (f : A -> B) (l : list A) (x y : A) :
  NoDup (map f l) -> In x l -> In y l -> f x = f y -> x = y.
Proof.
  induction l as [|a l IH]; intros ND Hx Hy E; [destruct Hx|].
  simpl in ND. inversion ND as [|? ? Hnotin ND']; subst.
  destruct Hx as [->|Hx], Hy as [->|Hy].
  - reflexivity.
  - exfalso. apply Hnotin. rewrite E. apply in_map. exact Hy.
  - exfalso. apply Hnotin. rewrite <- E. apply in_map. exact Hx.
  - apply IH; assumption.
Qed.

Lemma get_id_hd (h : Heap) (st st' : StationStream) :
  hd 0%nat (traces st) = hd 0%nat (traces st') -> get_id h st = get_id h st'.
Proof.
  intro E. unfold get_id, get_net_sta, get_inst, first_trace. rewrite E.
  reflexivity.
Qed.

Lemma carried_parameters (p : dict pyvalue) :
  match (if (0 <? List.length p)%nat then Some p else None) with
  | Some q => q
  | None => []
  end = p.
Proof. destruct p; reflexivity. Qed.

Lemma carried_tag (s : StationStream) :
  st_tag s <> Some "" ->
  (if String.eqb (stream_tag_string s) "" then None
   else Some (stream_tag_string s)) = st_tag s.
Proof.
  unfold stream_tag_string. destruct (st_tag s) as [t|]; intro H; [|reflexivity].
  destruct (String.eqb_spec t ""); [subst; contradiction | reflexivity].
Qed.

(** [insert_stream_parameters] on a newly built stream that holds a trace. *)
Lemma insert_one_new (h : Heap) (params : dict (dict pyvalue)) (c : list ref) :
  c <> [] ->
  insert_one h params (new_stream c)
  = mkStream c
      (match dict_get (get_id h (new_stream c)) params with
       | Some p => p
       | None => []
       end)
      (if String.eqb (tag (stats (h (hd 0%nat c)))) "" then None
       else Some (tag (stats (h (hd 0%nat c))))).
Proof.
  intro Hc. destruct c as [|x c]; [contradiction|]. reflexivity.
Qed.

Section CarryOver.
Variable gps2dist_azimuth : Q -> Q -> Q -> Q -> result Q.
Variable config : DuplicateConfig.
Variable h : Heap.
Variable streams : list StationStream.

(** The members of a group share the fields its identifier is made of. *)
Hypothesis members_share_identity :
  forall s r, In s streams -> In r (traces s) ->
    network (stats (h r)) = network (stats (first_trace h s)) /\
    station (stats (h r)) = station (stats (first_trace h s)) /\
    slice02 (channel (stats (h r))) = slice02 (channel (stats (first_trace h s))).

(** No two groups have the same identifier. *)
Hypothesis identifiers_distinct : NoDup (map (get_id h) streams).

(** A tag, where there is one, is not the empty string. *)
Hypothesis tags_not_empty : forall s, In s streams -> st_tag s <> Some "".

Lemma member_identifier (s : StationStream) (r : ref) :
  In s streams -> In r (traces s) -> get_id h (new_stream [r]) = get_id h s.
Proof.
  intros Hs Hr. destruct (members_share_identity s r Hs Hr) as (Hn & Hst & Hc).
  unfold get_id, get_net_sta, get_inst, first_trace in Hn, Hst, Hc |- *.
  cbn [new_stream traces hd]. rewrite Hn, Hst, Hc. reflexivity.
Qed.

Lemma one_group_per_trace (s s' : StationStream) (r : ref) :
  In s streams -> In s' streams -> In r (traces s) -> In r (traces s') -> s = s'.
Proof.
  intros Hs Hs' Hr Hr'.
  apply (NoDup_map_In (get_id h) streams); try assumption.
  rewrite <- (member_identifier s r Hs Hr). apply member_identifier; assumption.
Qed.

Lemma handle_duplicates_carries
    (max_dist_tolerance : option Q)
    (process_level_preference format_preference : option (list string))
    (h1 : Heap) (streams1 : list StationStream) :
  handle_duplicates gps2dist_azimuth config h streams max_dist_tolerance
    process_level_preference format_preference = Ok (h1, streams1) ->
  agree h h1 /\
  forall st, In st streams1 ->
    (exists r, traces st = [r]) /\ exists s, carries streams st s.
Proof.
  unfold handle_duplicates. intro H.
  pose proof (gather_agree h streams) as Hag.
  pose proof (gather_tag h streams) as Htag.
  pose proof (gather_params h streams) as Hpar.
  destruct (gather_stream_parameters h streams) as [h' params] eqn:EG.
  cbn [fst snd] in *.
  destruct (dedup gps2dist_azimuth h' _ _ _ (flat_map traces streams) [])
    as [kept|e] eqn:Ededup; [|discriminate H].
  cbn [bind] in H. injection H as <- <-. split; [exact Hag|].
  intros st Hst. unfold insert_stream_parameters in Hst.
  rewrite map_map in Hst. apply in_map_iff in Hst. destruct Hst as (r & <- & Hr).
  destruct (dedup_In _ _ _ _ _ _ _ _ Ededup r Hr) as [[]|Hr'].
  apply in_flat_map in Hr'. destruct Hr' as (s & Hs & Hrs).
  rewrite insert_one_new by discriminate. cbn [traces hd].
  split; [exists r; reflexivity|]. exists s. split; [exact Hs|].
  split; [exact Hrs|]. cbn [st_parameters st_tag]. split.
  - rewrite (agree_get_id _ _ Hag), (member_identifier s r Hs Hrs).
    rewrite Hpar; [apply carried_parameters | | exact Hs].
    intros a b Ha Hb E. f_equal.
    apply (NoDup_map_In (get_id h) streams); assumption.
  - rewrite (Htag (fun a b x Ha Hb Hxa Hxb =>
                     f_equal stream_tag_string
                       (one_group_per_trace a b x Ha Hb Hxa Hxb)) s r Hs Hrs).
    apply carried_tag. apply tags_not_empty. exact Hs.
Qed.

Lemma carries_identifier (h' : Heap) (st s : StationStream) :
  agree h h' -> carries streams st s -> get_id h' st = get_id h s.
Proof.
  intros Hag (Hs & Hr & _). rewrite (agree_get_id _ _ Hag).
  rewrite <- (member_identifier s _ Hs Hr). apply get_id_hd. reflexivity.
Qed.

(** X1: when no two groups of the collection have the same identifier, the
    members of a group share the fields the identifier is made of, and no
    tag is empty, then after a dedup and regroup cycle every group carries
    the tag and the parameters of the group of the collection that has its
    identifier. *)
Theorem regroup_preserves_tag_and_parameters
    (max_dist_tolerance : option Q)
    (process_level_preference format_preference : option (list string))
    (h1 h2 : Heap) (streams1 groups : list StationStream) :
  handle_duplicates gps2dist_azimuth config h streams max_dist_tolerance
    process_level_preference format_preference = Ok (h1, streams1) ->
  group_by_net_sta_inst h1 streams1 = Ok (h2, groups) ->
  forall g s, In g groups -> In s streams -> get_id h2 g = get_id h s ->
    st_tag g = st_tag s /\ st_parameters g = st_parameters s.
Proof.
  intros Hdedup Hgroup g s Hg Hs Hid.
  destruct (handle_duplicates_carries _ _ _ _ _ Hdedup) as [Hag1 Hsingle].
  destruct (group_by_net_sta_inst_spec h1 streams1) as (G & Hrun & HG & Htr).
  rewrite Hrun in Hgroup. injection Hgroup as <- <-.
  pose proof (gather_agree h1 streams1) as Hag2.
  set (h2 := fst (gather_stream_parameters h1 streams1)) in *.
  set (params2 := snd (gather_stream_parameters h1 streams1)) in *.
  (* the streams of the deduplicated collection that share a trace or an
     identifier come from one group *)
  assert (Hsame : forall a b sa sb, carries streams a sa -> carries streams b sb ->
                    get_id h1 a = get_id h1 b -> sa = sb).
  { intros a b sa sb Ha Hb E.
    rewrite (carries_identifier h1 a sa Hag1 Ha) in E.
    rewrite (carries_identifier h1 b sb Hag1 Hb) in E.
    destruct Ha as (Ha & _), Hb as (Hb & _).
    apply (NoDup_map_In (get_id h) streams); assumption. }
  (* the group [g] and its first trace *)
  rewrite HG in Hg. apply in_concat in Hg. destruct Hg as (gs & Hgs & Hg).
  apply in_map_iff in Hgs. destruct Hgs as (c & <- & Hc).
  unfold insert_stream_parameters in Hg. rewrite map_map in Hg.
  apply in_map_iff in Hg. destruct Hg as (c' & <- & Hc').
  assert (Hin : In c' (grouped_traces h2 (flat_map traces streams1))).
  { apply grouped_traces_In. exists c. auto. }
  pose proof (grouped_traces_nonempty _ _ _ Hin) as Hne.
  assert (Hr0 : In (hd 0%nat c') (flat_map traces streams1)).
  { apply (Permutation_in _ (grouped_traces_Permutation h2 _)).
    apply in_concat. exists c'. split; [exact Hin | apply hd_In; exact Hne]. }
  apply in_flat_map in Hr0. destruct Hr0 as (st & Hst & Hr0).
  destruct (Hsingle st Hst) as [[r Hr] [s0 Hcar]].
  rewrite Hr in Hr0. destruct Hr0 as [Hr0|[]].
  assert (Hhd : hd 0%nat (traces (new_stream c')) = hd 0%nat (traces st)).
  { rewrite Hr. cbn [new_stream traces hd]. symmetry. exact Hr0. }
  rewrite insert_one_new in Hid |- * by exact Hne.
  cbn [st_tag st_parameters].
  (* its identifier is that of [s0], hence [s0] is [s] *)
  assert (Hkey : get_id h2 (new_stream c') = get_id h1 st).
  { rewrite (agree_get_id _ _ Hag2). apply get_id_hd. exact Hhd. }
  assert (s0 = s) as <-.
  { apply (NoDup_map_In (get_id h) streams); try assumption.
    - destruct Hcar as (H0 & _). exact H0.
    - rewrite <- Hid. rewrite <- (carries_identifier h1 st s0 Hag1 Hcar).
      rewrite <- Hkey. apply get_id_hd. reflexivity. }
  destruct Hcar as (Hs0 & Hmem & Hpar & Htag). split.
  - rewrite <- Hr0.
    replace (tag (stats (h2 r))) with (stream_tag_string st).
    + rewrite <- Htag. apply carried_tag. rewrite Htag.
      apply tags_not_empty. exact Hs0.
    + symmetry.
      apply (gather_tag h1 streams1);
        [|exact Hst | rewrite Hr; left; reflexivity].
      intros a b x Ha Hb Hxa Hxb.
      destruct (Hsingle a Ha) as [[ra Hra] [sa Hca]].
      destruct (Hsingle b Hb) as [[rb Hrb] [sb Hcb]].
      assert (sa = sb) as Esab.
      { destruct Hca as (Hsa & Hma & _), Hcb as (Hsb & Hmb & _).
        rewrite Hra in Hxa, Hma. rewrite Hrb in Hxb, Hmb.
        destruct Hxa as [<-|[]], Hxb as [<-|[]]. cbn [hd] in Hma, Hmb.
        exact (one_group_per_trace sa sb _ Hsa Hsb Hma Hmb). }
      destruct Hca as (_ & _ & _ & Hta), Hcb as (_ & _ & _ & Htb).
      unfold stream_tag_string. rewrite Hta, Htb, Esab. reflexivity.
  - rewrite Hkey. rewrite (gather_params h1 streams1); [|  | exact Hst].
    + rewrite carried_parameters. exact Hpar.
    + intros a b Ha Hb E.
      destruct (Hsingle a Ha) as [_ [sa Hca]].
      destruct (Hsingle b Hb) as [_ [sb Hcb]].
      pose proof (Hsame a b sa sb Hca Hcb E) as Esab.
      destruct Hca as (_ & _ & Hpa & _), Hcb as (_ & _ & Hpb & _).
      rewrite Hpa, Hpb, Esab. reflexivity.
Qed.
End CarryOver.

Lemma regroup_preserves_tag_and_parameters_witness :
  exists h1 streams1 h2 groups,
    handle_duplicates example_gps2dist example_config pair_heap pair_groups
      None None None = Ok (h1, streams1) /\
    group_by_net_sta_inst h1 streams1 = Ok (h2, groups) /\
    map traces groups = [[0%nat; 1%nat]; [2%nat]] /\
    forall g s, In g groups -> In s pair_groups ->
      get_id h2 g = get_id pair_heap s ->
      st_tag g = st_tag s /\ st_parameters g = st_parameters s.
Proof.
  do 4 eexists.
  split; [vm_compute; reflexivity|].
  split; [vm_compute; reflexivity|].
  split; [reflexivity|].
  eapply (regroup_preserves_tag_and_parameters example_gps2dist example_config
            pair_heap pair_groups) with (max_dist_tolerance := None)
            (process_level_preference := None) (format_preference := None).
  - intros s r [<-|[<-|[]]] Hr; cbn [traces] in Hr.
    + destruct Hr as [<-|[<-|[]]]; repeat split; reflexivity.
    + destruct Hr as [<-|[]]; repeat split; reflexivity.
  - constructor; [intros [H|[]]; discriminate H|].
    constructor; [intros []|]. constructor.
  - intros s [<-|[<-|[]]]; discriminate.
  - vm_compute; reflexivity.
  - vm_compute; reflexivity.
Defined.

(** * Further properties of the sources *)

(** ** The parameter store of a trace *)

Lemma dict_has_get {V : Type} (k : string) (d : dict V) :
  dict_has k d = true <-> exists v, dict_get k d = Some v.
Proof.
  unfold dict_has. destruct (dict_get k d) as [v|].
  - split; [intros _; exists v; reflexivity | reflexivity].
  - split; [discriminate | intros [v H]; discriminate H].
Qed.

Lemma dict_has_keys {V : Type} (k : string) (d : dict V) :
  dict_has k d = true <-> In k (map fst d).
Proof.
  unfold dict_has. induction d as [|[k' v] d IH]; simpl.
  - split; [discriminate | intros []].
  - destruct (String.eqb_spec k' k) as [->|Hne].
    + split; [intros _; left; reflexivity | reflexivity].
    + rewrite IH. split; [intro H; right; exact H|].
      intros [H|H]; [contradiction | exact H].
Qed.

Lemma dict_set_keys {V : Type} (k : string) (v : V) (d : dict V) :
  map fst (dict_set k v d)
  = if dict_has k d then map fst d else map fst d ++ [k].
Proof.
  unfold dict_has. induction d as [|[k' v'] d IH]; simpl; [reflexivity|].
  destruct (String.eqb k' k); simpl; [reflexivity|].
  rewrite IH. destruct (dict_get k d); reflexivity.
Qed.

(** X2: a parameter that was set is read back, and setting it changes the
    value of no other key, nor the header and the data of the trace; reading
    a key raises [KeyError] exactly when [hasParameter] is false for it. *)
Theorem getParameter_setParameter (tr : StationTrace) (param_id other : string)
    (param_attributes : pyvalue) :
  other <> param_id ->
  let tr' := setParameter tr param_id param_attributes in
  getParameter tr' param_id = Ok param_attributes /\
  hasParameter tr' param_id = true /\
  getParameter tr' other = getParameter tr other /\
  hasParameter tr' other = hasParameter tr other /\
  (getParameter tr other = Raise KeyError <-> hasParameter tr other = false) /\
  stats tr' = stats tr /\ data tr' = data tr.
Proof.
  intros Hne tr'. subst tr'.
  unfold getParameter, hasParameter, dict_has, setParameter.
  cbn [parameters stats data].
  rewrite dict_get_set_same, (dict_get_set_other other param_id) by congruence.
  repeat split; try reflexivity.
  - destruct (dict_get other (parameters tr)); [discriminate | reflexivity].
  - destruct (dict_get other (parameters tr)); [discriminate | reflexivity].
Qed.

Lemma getParameter_setParameter_witness :
  getParameter (setParameter raw_cosmos "snr" [("threshold", "3.0")]) "snr"
  = Ok [("threshold", "3.0")] /\
  getParameter (setParameter raw_cosmos "snr" [("threshold", "3.0")]) "failure"
  = Raise KeyError.
Proof.
  destruct (getParameter_setParameter raw_cosmos "snr" "failure"
              [("threshold", "3.0")]) as (H1 & _ & H2 & _).
  - discriminate.
  - split; [exact H1 | exact H2].
Defined.

(** X3: the keys of a trace's parameters stay distinct: setting a key
    that is there leaves the list of keys as it is, and setting a new key
    adds it at the end. *)
Theorem getParameterKeys_setParameter (tr : StationTrace) (param_id : string)
    (param_attributes : pyvalue) :
  NoDup (getParameterKeys tr) ->
  let tr' := setParameter tr param_id param_attributes in
  NoDup (getParameterKeys tr') /\
  getParameterKeys tr'
  = (if hasParameter tr param_id then getParameterKeys tr
     else getParameterKeys tr ++ [param_id]).
Proof.
  intros ND tr'. subst tr'.
  unfold getParameterKeys, hasParameter, setParameter in *. cbn [parameters].
  rewrite dict_set_keys. split; [|reflexivity].
  destruct (dict_has param_id (parameters tr)) eqn:E; [exact ND|].
  apply NoDup_app.
  - exact ND.
  - constructor; [intros [] | constructor].
  - intros x Hx [<-|[]]. apply dict_has_keys in Hx. congruence.
Qed.

Lemma getParameterKeys_setParameter_witness :
  getParameterKeys
    (setParameter (setParameter raw_cosmos "snr" []) "corner" [])
  = ["snr"; "corner"].
Proof.
  destruct (getParameterKeys_setParameter (setParameter raw_cosmos "snr" [])
              "corner" []) as [_ H].
  - repeat constructor. intros [].
  - exact H.
Defined.

(** X4: a failed trace has the parameter ['failure']; failing it again
    replaces the module and the reason recorded, adds no second entry, and
    no other parameter is touched. *)
Theorem fail_keeps_last_reason (tr : StationTrace)
    (module1 reason1 module2 reason2 : string) :
  let tr1 := fail tr module1 reason1 in
  let tr2 := fail tr1 module2 reason2 in
  hasParameter tr1 "failure" = true /\
  getParameter tr2 "failure" = Ok [("module", module2); ("reason", reason2)] /\
  getParameterKeys tr2 = getParameterKeys tr1 /\
  (forall param_id, param_id <> "failure" ->
     getParameter tr2 param_id = getParameter tr param_id) /\
  stats tr2 = stats tr /\ data tr2 = data tr.
Proof.
  intros tr1 tr2. subst tr1 tr2.
  unfold fail, getParameter, getParameterKeys, hasParameter, setParameter.
  cbn [parameters stats data]. unfold dict_has.
  rewrite !dict_get_set_same. repeat split; try reflexivity.
  - rewrite dict_set_keys. unfold dict_has. rewrite dict_get_set_same.
    reflexivity.
  - intros k Hk. rewrite !(dict_get_set_other k "failure") by congruence.
    reflexivity.
Qed.

(** ** The provenance of a trace *)

Lemma getProvenanceKeys_map (provenance : list provdict) :
  getProvenanceKeys provenance = map prov_id provenance.
Proof. destruct provenance; reflexivity. Qed.

Lemma getProvenance_filter (provenance : list provdict) (id : string) :
  getProvenance provenance id
  = map prov_attributes
      (filter (fun provdict => String.eqb (prov_id provdict) id) provenance).
Proof. destruct provenance; reflexivity. Qed.

Lemma setProvenance_fold (calls provenance : list provdict) :
  fold_left (fun p c => setProvenance p (prov_id c) (prov_attributes c))
            calls provenance
  = provenance ++ calls.
Proof.
  revert provenance. induction calls as [|[id a] calls IH]; intro p; simpl.
  - symmetry. apply app_nil_r.
  - rewrite IH. unfold setProvenance. rewrite <- app_assoc. reflexivity.
Qed.

(** X5: the provenance is a log: after any sequence of [setProvenance]
    calls, the entries that were there and the ones added are all there, in
    the order of the calls; [getProvenanceKeys] lists their identifiers and
    [getProvenance] the attributes of the entries of one identifier, in that
    order. *)
Theorem provenance_is_a_log (provenance calls : list provdict) (id : string) :
  let log :=
    fold_left (fun p c => setProvenance p (prov_id c) (prov_attributes c))
              calls provenance in
  getAllProvenance log = provenance ++ calls /\
  getProvenanceKeys log = getProvenanceKeys provenance ++ map prov_id calls /\
  getProvenance log id = getProvenance provenance id ++ getProvenance calls id.
Proof.
  intro log. subst log. rewrite setProvenance_fold.
  unfold getAllProvenance. rewrite !getProvenanceKeys_map, !getProvenance_filter.
  rewrite map_app, filter_app, map_app. repeat split; reflexivity.
Qed.

(** ** Validation of a trace *)

Lemma forallb_dict_has (standard : dict pyobj) (keys : dict keydict) :
  forallb (fun key => dict_has key standard) (map fst keys) = true <->
  forall key k, In (key, k) keys -> exists value, dict_get key standard = Some value.
Proof.
  rewrite forallb_forall. split.
  - intros H key k Hin. apply dict_has_get. apply H.
    apply in_map_iff. exists (key, k). auto.
  - intros H key Hin. apply in_map_iff in Hin. destruct Hin as ([key' k] & <- & Hin).
    apply dict_has_get. exact (H _ _ Hin).
Qed.

Lemma equals_default_str (value : pyobj) (d : string) :
  equals_default value (default_str d) = true <-> value = PyStr d.
Proof.
  destruct value; simpl; try (split; [discriminate | intro H; discriminate H]).
  rewrite String.eqb_eq. split; [intros ->; reflexivity | intro H; congruence].
Qed.

Lemma in_default_In (value : pyobj) (l : list string) :
  in_default value l = true <-> exists s, value = PyStr s /\ In s l.
Proof.
  destruct value; simpl;
    try (split; [discriminate | intros (s0 & H & _); discriminate H]).
  unfold str_in. rewrite existsb_exists. split.
  - intros (x & Hx & E). apply String.eqb_eq in E. subst x. exists s. auto.
  - intros (s0 & E & Hs). injection E as <-. exists s.
    split; [exact Hs | apply String.eqb_refl].
Qed.

Lemma check_key_meets (standard : dict pyobj) (key : string) (k : keydict)
    (value : pyobj) (type_errors required_errors : list string) :
  dict_get key standard = Some value ->
  exists te re,
    check_key standard (type_errors, required_errors) (key, k)
    = Ok (type_errors ++ te, required_errors ++ re) /\
    (te = [] /\ re = [] <-> meets_key value k).
Proof.
  intro Hget. unfold check_key. rewrite Hget.
  exists (if negb (isinstance value (key_type k)) then [key] else []),
         (if key_required k then
            (match key_default k with
             | default_list l => if negb (in_default value l) then [key] else []
             | _ => []
             end) ++ (if equals_default value (key_default k) then [key] else [])
          else []).
  split.
  - destruct (negb (isinstance value (key_type k))), (key_required k);
      rewrite ?app_nil_r; try reflexivity;
      destruct (key_default k); destruct (equals_default value _);
      try destruct (negb (in_default value _));
      rewrite ?app_nil_r, <- ?app_assoc; reflexivity.
  - unfold meets_key. destruct (isinstance value (key_type k)); cbn [negb];
      [|split; [intros [H _]; discriminate H | intros [H _]; discriminate H]].
    destruct (key_required k);
      [|split; [intros _; split; [reflexivity | discriminate] | auto]].
    destruct (key_default k) as [d| |l].
    + pose proof (equals_default_str value d) as Hd.
      destruct (equals_default value (default_str d)); cbn [app].
      * split; [intros [_ H]; discriminate H|].
        intros [_ H]. exfalso. apply (H eq_refl). apply Hd. reflexivity.
      * split; [|auto]. intros _. split; [reflexivity|]. intros _ E.
        apply Hd in E. discriminate E.
    + split; [|destruct value; auto]. intros _. auto.
    + assert (equals_default value (default_list l) = false) as ->
        by (destruct value; reflexivity).
      pose proof (in_default_In value l) as Hl.
      destruct (in_default value l); cbn [negb app].
      * split; [|auto]. intros _. split; [reflexivity|]. intros _.
        apply Hl. reflexivity.
      * split; [intros [_ H]; discriminate H|].
        intros [_ H]. apply Hl in H; [discriminate H | reflexivity].
Qed.

Lemma check_keys_meet (standard : dict pyobj) (keys : dict keydict) :
  forall type_errors required_errors,
  (forall key k, In (key, k) keys ->
     exists value, dict_get key standard = Some value) ->
  exists te re,
    foldM (check_key standard) keys (type_errors, required_errors)
    = Ok (type_errors ++ te, required_errors ++ re) /\
    (te = [] /\ re = [] <->
     forall key k, In (key, k) keys ->
       exists value, dict_get key standard = Some value /\ meets_key value k).
Proof.
  induction keys as [|[key k] keys IH]; intros te0 re0 Hall.
  - exists [], []. rewrite !app_nil_r. split; [reflexivity|].
    split; [intros _ ? ? [] | auto].
  - destruct (Hall key k (or_introl eq_refl)) as [value Hget].
    destruct (check_key_meets standard key k value te0 re0 Hget)
      as (te1 & re1 & Hstep & Hmeets).
    destruct (IH (te0 ++ te1) (re0 ++ re1)
                 (fun key' k' H => Hall key' k' (or_intror H)))
      as (te2 & re2 & Hrest & Hall2).
    exists (te1 ++ te2), (re1 ++ re2). cbn [foldM]. rewrite Hstep. cbn [bind].
    rewrite Hrest, <- !app_assoc. split; [reflexivity|]. split.
    + intros [Hte Hre]. apply app_eq_nil in Hte, Hre.
      destruct Hte as [-> ->], Hre as [-> ->].
      intros key' k' [E|Hin].
      * injection E as <- <-. exists value. split; [exact Hget|].
        apply Hmeets. auto.
      * apply Hall2; auto.
    + intro H. assert (te1 = [] /\ re1 = []) as [-> ->].
      { apply Hmeets. destruct (H key k (or_introl eq_refl)) as (v & Hv & Hm).
        congruence. }
      assert (te2 = [] /\ re2 = []) as [-> ->].
      { apply Hall2. intros key' k' Hin. apply H. right. exact Hin. }
      auto.
Qed.

(** The outcome of the validation, for any table. *)
Lemma StationTrace_validate_outcome (standard_keys : dict keydict)
    (tr : TraceHeader) :
  snd (StationTrace_validate standard_keys tr) = Ok tt <-> accepted standard_keys tr.
Proof.
  unfold StationTrace_validate, accepted.
  destruct (dict_get "process_level" (header_standard tr)) as [level|];
    [|split; [discriminate | intros (l & H & _); discriminate H]].
  destruct (is_V3 level) eqn:EV3; cbn [negb andb].
  - cbn [snd].
    set (keys := dict_pop "units" standard_keys).
    destruct (forallb (fun key => dict_has key (header_standard tr)) (map fst keys))
      eqn:Eall; cbn [negb].
    + pose proof (proj1 (forallb_dict_has _ _) Eall) as Hall.
      destruct (check_keys_meet (header_standard tr) keys [] [] Hall)
        as (te & re & Hrun & Hiff).
      rewrite Hrun. cbn [bind fst snd app]. split.
      * intro H. exists level. split; [reflexivity|].
        split; [intro C; congruence|].
        rewrite EV3. apply Hiff. destruct te, re; try discriminate H. auto.
      * intros (l & E & _ & H). injection E as <-. rewrite EV3 in H.
        apply Hiff in H. destruct H as [-> ->]. reflexivity.
    + split; [discriminate|]. intros (l & E & _ & H). injection E as <-.
      rewrite EV3 in H.
      assert (forallb (fun key => dict_has key (header_standard tr)) (map fst keys)
              = true) as E'.
      { apply forallb_dict_has. intros key k Hin.
        destruct (H key k Hin) as (v & Hv & _). exists v. exact Hv. }
      congruence.
  - destruct (Z.eqb_spec (header_npts tr) (Z.of_nat (List.length (header_data tr))))
      as [En|En]; cbn [negb snd].
    + destruct (forallb (fun key => dict_has key (header_standard tr))
                        (map fst standard_keys)) eqn:Eall; cbn [negb].
      * pose proof (proj1 (forallb_dict_has _ _) Eall) as Hall.
        destruct (check_keys_meet (header_standard tr) standard_keys [] [] Hall)
          as (te & re & Hrun & Hiff).
        rewrite Hrun. cbn [bind fst snd app]. split.
        -- intro H. exists level. split; [reflexivity|]. split; [auto|].
           rewrite EV3. apply Hiff. destruct te, re; try discriminate H. auto.
        -- intros (l & E & _ & H). injection E as <-. rewrite EV3 in H.
           apply Hiff in H. destruct H as [-> ->]. reflexivity.
      * split; [discriminate|]. intros (l & E & _ & H). injection E as <-.
        rewrite EV3 in H.
        assert (forallb (fun key => dict_has key (header_standard tr))
                        (map fst standard_keys) = true) as E'.
        { apply forallb_dict_has. intros key k Hin.
          destruct (H key k Hin) as (v & Hv & _). exists v. exact Hv. }
        congruence.
    + split; [discriminate|]. intros (l & E & Hn & _). injection E as <-.
      exfalso. apply En. apply Hn. exact EV3.
Qed.

(** X6: [StationTrace.validate] returns normally exactly when the process
    level is given, [npts] is the length of the data unless the level is
    V3, and every key of [STANDARD_KEYS] (but ['units'] for level V3) is
    there with a value of its type that, for a required key, is not the
    default. A missing process level raises [KeyError] before anything
    else is looked at, and a wrong [npts] raises [ValueError] whatever the
    other entries are. *)
Theorem StationTrace_validate_accepts (standard_keys : dict keydict)
    (tr : TraceHeader) :
  (snd (StationTrace_validate standard_keys tr) = Ok tt <->
   accepted standard_keys tr) /\
  (dict_get "process_level" (header_standard tr) = None ->
   StationTrace_validate standard_keys tr = (standard_keys, Raise KeyError)) /\
  (forall level,
     dict_get "process_level" (header_standard tr) = Some level ->
     is_V3 level = false ->
     header_npts tr <> Z.of_nat (List.length (header_data tr)) ->
     StationTrace_validate standard_keys tr = (standard_keys, Raise ValueError)).
Proof.
  split; [apply StationTrace_validate_outcome|]. split.
  - intro H. unfold StationTrace_validate. rewrite H. reflexivity.
  - intros level H HV3 Hn. unfold StationTrace_validate. rewrite H, HV3.
    apply Z.eqb_neq in Hn. rewrite Hn. reflexivity.
Qed.

(** X7: validating a trace of level V3 removes ['units'] from the
    module-level table for good: a trace of another level that lacks
    ['units'] and meets the other requirements is refused with [KeyError]
    by the table as the module defines it, and accepted once a trace of
    level V3 has been validated; the table stays without ['units']. *)
Theorem StationTrace_validate_forgets_units (tr1 tr2 : TraceHeader)
    (level1 level2 : pyobj) :
  dict_get "process_level" (header_standard tr1) = Some level1 ->
  is_V3 level1 = true ->
  dict_get "process_level" (header_standard tr2) = Some level2 ->
  is_V3 level2 = false ->
  dict_get "units" (header_standard tr2) = None ->
  accepted (dict_pop "units" STANDARD_KEYS) tr2 ->
  let standard_keys := fst (StationTrace_validate STANDARD_KEYS tr1) in
  standard_keys = dict_pop "units" STANDARD_KEYS /\
  snd (StationTrace_validate STANDARD_KEYS tr2) = Raise KeyError /\
  StationTrace_validate standard_keys tr2 = (standard_keys, Ok tt).
Proof.
  intros H1 HV1 H2 HV2 Hunits Hacc standard_keys.
  assert (Hkeys : standard_keys = dict_pop "units" STANDARD_KEYS).
  { subst standard_keys. unfold StationTrace_validate. rewrite H1, HV1. reflexivity. }
  split; [exact Hkeys|]. rewrite Hkeys. clear standard_keys Hkeys.
  assert (Hn : header_npts tr2 = Z.of_nat (List.length (header_data tr2))).
  { destruct Hacc as (l & E & Hn & _). rewrite H2 in E. injection E as <-. auto. }
  split.
  - unfold StationTrace_validate. rewrite H2, HV2, Hn, Z.eqb_refl. cbn [negb andb snd].
    assert (forallb (fun key => dict_has key (header_standard tr2))
                    (map fst STANDARD_KEYS) = false) as ->; [|reflexivity].
    apply not_true_is_false. intro H. rewrite forallb_forall in H.
    assert (dict_has "units" (header_standard tr2) = true) as C.
    { apply H. apply in_map_iff. eexists (_, _). split; [reflexivity|].
      unfold STANDARD_KEYS. do 12 right. left. reflexivity. }
    unfold dict_has in C. rewrite Hunits in C. discriminate C.
  - pose proof (proj2 (StationTrace_validate_outcome
                         (dict_pop "units" STANDARD_KEYS) tr2)) as Hok.
    revert Hok. unfold StationTrace_validate.
    rewrite H2, HV2, Hn, Z.eqb_refl. cbn [negb andb snd].
    intro Hok. rewrite Hok; [reflexivity | exact Hacc].
Qed.

Lemma StationTrace_validate_forgets_units_witness :
  snd (StationTrace_validate STANDARD_KEYS raw_header_without_units)
  = Raise KeyError /\
  snd (StationTrace_validate
         (fst (StationTrace_validate STANDARD_KEYS derived_header))
         raw_header_without_units) = Ok tt.
Proof.
  destruct (StationTrace_validate_forgets_units derived_header
              raw_header_without_units (PyStr "derived time series")
              (PyStr "raw counts")) as (_ & H1 & H2); try reflexivity.
  - apply StationTrace_validate_outcome. reflexivity.
  - split; [exact H1|]. rewrite H2. reflexivity.
Defined.

(** ** Free-field sensors *)

Lemma prefix_app (p s : string) :
  prefix p s = true <-> exists rest, s = (p ++ rest)%string.
Proof.
  revert s. induction p as [|a p IH]; intro s; simpl.
  - split; [intros _; exists s; reflexivity | destruct s; reflexivity].
  - destruct s as [|b s].
    + split; [discriminate | intros [r H]; discriminate H].
    + cbn [prefix]. destruct (ascii_dec a b) as [->|Hne].
      * split.
        -- intro H. apply IH in H. destruct H as [r ->]. exists r. reflexivity.
        -- intros [r H]. apply IH. exists r. congruence.
      * split; [discriminate | intros [r H]; congruence].
Qed.

Lemma re_search_contains (pat s : string) :
  re_search pat s = true <-> contains pat s.
Proof.
  unfold contains. induction s as [|c s IH].
  - cbn [re_search]. rewrite orb_false_r, prefix_app. split.
    + intros [r H]. exists "", r. exact H.
    + intros (b & a & H). destruct b; [exists a; exact H | discriminate H].
  - cbn [re_search]. rewrite orb_true_iff, IH, prefix_app. split.
    + intros [[r H]|(b & a & H)].
      * exists "", r. exact H.
      * exists (String c b), a. simpl. rewrite H. reflexivity.
    + intros (b & a & H). destruct b as [|x b].
      * left. exists a. exact H.
      * right. simpl in H. injection H as _ H. exists b, a. exact H.
Qed.

(** X8: a trace is not free-field exactly when its structure type, put in
    lower case, contains one of the eleven words of the list, anywhere and
    not only as a word of its own; a trace without structure type is
    free-field. *)
Theorem free_field_contains (tr : StationTrace) :
  (free_field tr = false <->
   exists ftype, In ftype non_free /\
                 contains ftype (lower (structure_type (standard (stats tr))))) /\
  (structure_type (standard (stats tr)) = "" -> free_field tr = true).
Proof.
  split.
  - unfold free_field. rewrite negb_false_iff, existsb_exists.
    split; intros (ftype & Hin & H); exists ftype; (split; [exact Hin|]);
      apply re_search_contains; exact H.
  - intro H. unfold free_field. rewrite H. reflexivity.
Qed.

(** ** The tags of a collection *)

Lemma split_length (sep : ascii) (s : string) :
  List.length (split sep s) = S (count_char sep s).
Proof.
  induction s as [|c s IH]; [reflexivity|].
  cbn [split count_char]. destruct (Ascii.eqb c sep).
  - simpl. rewrite IH. reflexivity.
  - destruct (split sep s); simpl in *; [discriminate IH | exact IH].
Qed.

Lemma stream_label_outcome (stream : StationStream) :
  (exists label, stream_label stream = Ok label) \/
  stream_label stream = Raise ValueError /\
  exists t, st_tag stream = Some t /\ count_char "_" t <> 2%nat.
Proof.
  unfold stream_label. destruct (st_tag stream) as [t|]; [|left; eauto].
  pose proof (split_length "_" t) as Hlen.
  destruct (split "_" t) as [|a [|b [|c [|d l]]]]; simpl in Hlen;
    try (right; split; [reflexivity|]; exists t; split; [reflexivity | lia]).
  left. eauto.
Qed.

Lemma stream_label_ok (stream : StationStream) (label : string) :
  stream_label stream = Ok label ->
  forall t, st_tag stream = Some t -> count_char "_" t = 2%nat.
Proof.
  unfold stream_label. intros H t Ht. rewrite Ht in H.
  pose proof (split_length "_" t) as Hlen.
  destruct (split "_" t) as [|a [|b [|c [|d l]]]]; simpl in Hlen;
    try discriminate H. lia.
Qed.

(** X9: [validate] raises [ValueError] exactly when a group carries a tag
    that does not have two underscores, that is three fields; this comes
    before the comparison of the labels. *)
Theorem validate_tag_fields (streams : list StationStream) :
  validate streams = Raise ValueError <->
  exists stream t, In stream streams /\ st_tag stream = Some t /\
                   count_char "_" t <> 2%nat.
Proof.
  unfold validate. induction streams as [|s streams IH].
  - simpl. split; [discriminate | intros (s & t & [] & _)].
  - cbn [mapM]. destruct (stream_label_outcome s) as [[label Hs]|[Hs (t & Ht & Hc)]].
    + rewrite Hs. cbn [bind].
      destruct (mapM stream_label streams) as [labels|e]; cbn [bind] in *.
      * split.
        -- intro H. match type of H with
           | context [if ?c then _ else _] => destruct c
           end; discriminate H.
        -- intros (x & t & [<-|Hin] & Ht & Hc).
           ++ exfalso. apply Hc. exact (stream_label_ok _ _ Hs _ Ht).
           ++ exfalso.
              assert (exists stream t, In stream streams /\ st_tag stream = Some t /\
                                       count_char "_" t <> 2%nat) as Hex by eauto.
              apply IH in Hex. match type of Hex with
              | context [if ?c then _ else _] => destruct c
              end; discriminate Hex.
      * rewrite IH. split.
        -- intros (x & t & Hin & H). exists x, t. split; [right; exact Hin | exact H].
        -- intros (x & t & [<-|Hin] & Ht & Hc).
           ++ exfalso. apply Hc. exact (stream_label_ok _ _ Hs _ Ht).
           ++ eauto.
    + rewrite Hs. cbn [bind]. split; [|reflexivity].
      intros _. exists s, t. split; [left; reflexivity | auto].
Qed.

(** ** Errors of the preference resolver *)

Lemma index_outcome (x : string) (l : list string) :
  (exists n, index x l = Ok n) \/ index x l = Raise ValueError.
Proof.
  induction l as [|y l IH]; simpl; [right; reflexivity|].
  destruct (String.eqb y x); [left; eauto|].
  destruct IH as [[n ->]| ->]; simpl; [left; eauto | right; reflexivity].
Qed.

Lemma index_not_in (x : string) (l : list string) :
  str_in x l = false -> index x l = Raise ValueError.
Proof.
  destruct (index_outcome x l) as [[n H]|H]; [|auto].
  intro C. rewrite (index_str_in _ _ _ H) in C. discriminate C.
Qed.

Lemma index_not_in_conv (x : string) (l : list string) :
  index x l = Raise ValueError -> str_in x l = false.
Proof.
  induction l as [|y l IH]; simpl; [reflexivity|].
  rewrite (String.eqb_sym x y). destruct (String.eqb y x); [discriminate|].
  revert IH. destruct (index x l) as [n|e]; simpl; [discriminate|].
  intros IH H. apply IH. exact H.
Qed.

Lemma REV_PROCESS_LEVELS_outcome (level : string) :
  (exists v, REV_PROCESS_LEVELS level = Ok v) \/
  REV_PROCESS_LEVELS level = Raise KeyError.
Proof.
  unfold REV_PROCESS_LEVELS.
  repeat match goal with
         | |- context [if ?c then _ else _] => destruct c; [left; eauto|]
         end.
  right. reflexivity.
Qed.

(** X10: [choose_preferred] returns normally exactly when the process
    levels of both traces are in [process_level_preference]. It raises
    [KeyError] for a level that is none of the four level names and
    [ValueError] for a level that is not in the list, the first trace being
    looked at first. *)
Theorem choose_preferred_errors (tr1 tr2 : StationTrace)
    (process_level_preference format_preference : list string) :
  let chosen :=
    choose_preferred tr1 tr2 process_level_preference format_preference in
  let level1 := REV_PROCESS_LEVELS (process_level (standard (stats tr1))) in
  let level2 := REV_PROCESS_LEVELS (process_level (standard (stats tr2))) in
  ((exists r, chosen = Ok r) <->
   (exists i, level_rank process_level_preference tr1 i) /\
   (exists j, level_rank process_level_preference tr2 j)) /\
  (level1 = Raise KeyError -> chosen = Raise KeyError) /\
  (forall v, level1 = Ok v -> str_in v process_level_preference = false ->
             chosen = Raise ValueError) /\
  (forall i, level_rank process_level_preference tr1 i ->
     (level2 = Raise KeyError -> chosen = Raise KeyError) /\
     (forall v, level2 = Ok v -> str_in v process_level_preference = false ->
                chosen = Raise ValueError)).
Proof.
  intros chosen level1 level2. subst chosen level1 level2.
  unfold level_rank, choose_preferred.
  destruct (REV_PROCESS_LEVELS_outcome (process_level (standard (stats tr1))))
    as [[v1 E1]|E1]; rewrite E1; cbn [bind].
  2: { split; [|split; [reflexivity|split; [discriminate|]]].
       - split; [intros [r H]; discriminate H|].
         intros [(i & l & H & _) _]. discriminate H.
       - intros i (l & H & _). discriminate H. }
  destruct (index_outcome v1 process_level_preference) as [[i1 I1]|I1];
    rewrite I1; cbn [bind].
  2: { split; [|split; [discriminate|split; [reflexivity|]]].
       - split; [intros [r H]; discriminate H|].
         intros [(i & l & H & H') _]. injection H as <-. congruence.
       - intros i (l & H & H'). injection H as <-. congruence. }
  destruct (REV_PROCESS_LEVELS_outcome (process_level (standard (stats tr2))))
    as [[v2 E2]|E2]; rewrite E2; cbn [bind].
  2: { split; [|split; [discriminate|split]].
       - split; [intros [r H]; discriminate H|].
         intros [_ (i & l & H & _)]. discriminate H.
       - intros v H C. injection H as <-.
         rewrite (index_str_in _ _ _ I1) in C. discriminate C.
       - intros i _. split; [reflexivity | discriminate]. }
  destruct (index_outcome v2 process_level_preference) as [[i2 I2]|I2];
    rewrite I2; cbn [bind].
  2: { split; [|split; [discriminate|split]].
       - split; [intros [r H]; discriminate H|].
         intros [_ (i & l & H & H')]. injection H as <-. congruence.
       - intros v H C. injection H as <-.
         rewrite (index_str_in _ _ _ I1) in C. discriminate C.
       - intros i _. split; [discriminate | reflexivity]. }
  split; [|split; [discriminate|split]].
  - split; [|].
    + intros _. split; [exists i1, v1 | exists i2, v2]; auto.
    + intros _.
      destruct (i1 <? i2)%nat; [eauto|]. destruct (i2 <? i1)%nat; [eauto|].
      destruct (str_in (source_format (standard (stats tr1))) format_preference)
        eqn:F1; [|cbn [andb]; eauto].
      destruct (str_in (source_format (standard (stats tr2))) format_preference)
        eqn:F2; [|cbn [andb]; eauto].
      cbn [andb].
      destruct (index_outcome (source_format (standard (stats tr1))) format_preference)
        as [[j1 J1]|J1]; [|rewrite (index_not_in_conv _ _ J1) in F1; discriminate F1].
      destruct (index_outcome (source_format (standard (stats tr2))) format_preference)
        as [[j2 J2]|J2]; [|rewrite (index_not_in_conv _ _ J2) in F2; discriminate F2].
      rewrite J1, J2. cbn [bind].
      repeat match goal with
             | |- context [if ?c then _ else _] => destruct c; [eauto|]
             end.
      eauto.
  - intros v H C. injection H as <-.
    rewrite (index_str_in _ _ _ I1) in C. discriminate C.
  - intros i _. split; [discriminate|].
    intros v H C. injection H as <-.
    rewrite (index_str_in _ _ _ I2) in C. discriminate C.
Qed.

(** X11: when [choose_preferred] returns, it returns one of its two
    arguments or [None], never another trace; and it returns [None] exactly
    when the process levels of the two traces have the same rank and the
    source format of one of them is not in [format_preference]. *)
Theorem choose_preferred_result (tr1 tr2 : StationTrace)
    (process_level_preference format_preference : list string)
    (chosen : option StationTrace) :
  choose_preferred tr1 tr2 process_level_preference format_preference
  = Ok chosen ->
  (chosen = Some tr1 \/ chosen = Some tr2 \/ chosen = None) /\
  (chosen = None <->
   (exists i, level_rank process_level_preference tr1 i /\
              level_rank process_level_preference tr2 i) /\
   str_in (source_format (standard (stats tr1))) format_preference &&
   str_in (source_format (standard (stats tr2))) format_preference = false).
Proof.
  unfold level_rank, choose_preferred.
  destruct (REV_PROCESS_LEVELS (process_level (standard (stats tr1))))
    as [v1|e]; [|discriminate].
  cbn [bind]. destruct (index v1 process_level_preference) as [i1|e] eqn:I1';
    [|discriminate].
  cbn [bind].
  destruct (REV_PROCESS_LEVELS (process_level (standard (stats tr2))))
    as [v2|e]; [|discriminate].
  cbn [bind]. destruct (index v2 process_level_preference) as [i2|e] eqn:I2';
    [|discriminate].
  cbn [bind].
  assert (Hrank : forall P : Prop,
            ((exists i, (exists level, Ok v1 = Ok level /\
                           index level process_level_preference = Ok i) /\
                        (exists level, Ok v2 = Ok level /\
                           index level process_level_preference = Ok i)) /\ P)
            -> i1 = i2 /\ P).
  { intros P ((i & (l1 & E1 & I1) & (l2 & E2 & I2)) & HP).
    injection E1 as <-. injection E2 as <-. split; [congruence | exact HP]. }
  destruct (Nat.ltb_spec i1 i2) as [L12|L12].
  { intro H. injection H as <-. split; [auto|].
    split; [discriminate|]. intro C. apply Hrank in C. lia. }
  destruct (Nat.ltb_spec i2 i1) as [L21|L21].
  { intro H. injection H as <-. split; [auto|].
    split; [discriminate|]. intro C. apply Hrank in C. lia. }
  assert (i1 = i2) as <- by lia.
  destruct (str_in (source_format (standard (stats tr1))) format_preference &&
            str_in (source_format (standard (stats tr2))) format_preference)
    eqn:Efmt.
  - intro H.
    assert (Hsome : chosen = Some tr1 \/ chosen = Some tr2).
    { revert H.
      destruct (index (source_format (standard (stats tr1))) format_preference)
        as [j1|e]; [|discriminate].
      cbn [bind].
      destruct (index (source_format (standard (stats tr2))) format_preference)
        as [j2|e]; [|discriminate].
      cbn [bind].
      repeat match goal with
             | |- context [if ?c then _ else _] =>
                 destruct c; [intro H; injection H as <-; auto|]
             end.
      intro H; injection H as <-; auto. }
    split; [tauto|]. split.
    + intros ->. destruct Hsome as [C|C]; discriminate C.
    + intros [_ C]. discriminate C.
  - intro H. injection H as <-. split; [auto|]. split; [|reflexivity].
    intros _. split; [|reflexivity]. exists i1. split; [exists v1 | exists v2]; auto.
Qed.

Lemma choose_preferred_result_witness :
  choose_preferred raw_cosmos raw_smc ["V2"; "V1"; "V0"] ["cosmos"; "dmg"]
  = Ok None /\
  (exists i, level_rank ["V2"; "V1"; "V0"] raw_cosmos i /\
             level_rank ["V2"; "V1"; "V0"] raw_smc i) /\
  str_in (source_format (standard (stats raw_cosmos))) ["cosmos"; "dmg"] &&
  str_in (source_format (standard (stats raw_smc))) ["cosmos"; "dmg"] = false.
Proof.
  split; [reflexivity|].
  destruct (choose_preferred_result raw_cosmos raw_smc ["V2"; "V1"; "V0"]
              ["cosmos"; "dmg"] None eq_refl) as [_ H].
  exact (proj1 H eq_refl).
Defined.

(** ** Duplicates *)

Lemma id_eqb_sym (i1 i2 : string) :
  id_eqb i1 i2 = id_eqb i2 i1.
Proof. apply String.eqb_sym. Qed.

(** X12: the duplicate test is symmetric when the distance between the two
    points is the same in both directions, and a trace is a duplicate of
    itself whatever the distance function does. *)
Theorem are_duplicates_symmetric
    (gps2dist_azimuth : Q -> Q -> Q -> Q -> result Q)
    (tr1 tr2 : StationTrace) (max_dist_tolerance : Q) :
  gps2dist_azimuth (latitude (coordinates (stats tr1)))
                   (longitude (coordinates (stats tr1)))
                   (latitude (coordinates (stats tr2)))
                   (longitude (coordinates (stats tr2)))
  = gps2dist_azimuth (latitude (coordinates (stats tr2)))
                     (longitude (coordinates (stats tr2)))
                     (latitude (coordinates (stats tr1)))
                     (longitude (coordinates (stats tr1))) ->
  are_duplicates gps2dist_azimuth tr1 tr2 max_dist_tolerance
  = are_duplicates gps2dist_azimuth tr2 tr1 max_dist_tolerance /\
  are_duplicates gps2dist_azimuth tr1 tr1 max_dist_tolerance = Ok true.
Proof.
  intro Hsym. unfold are_duplicates. split.
  - rewrite (id_eqb_sym (trace_id tr2)), Hsym.
    rewrite (String.eqb_sym (station (stats tr2))),
      (String.eqb_sym (location (stats tr2))),
      (String.eqb_sym (channel (stats tr2))). reflexivity.
  - rewrite (proj2 (id_eqb_eq _ _) eq_refl). reflexivity.
Qed.

Lemma are_duplicates_symmetric_witness :
  are_duplicates example_gps2dist (dup_heap 0%nat) (dup_heap 1%nat) 500
  = are_duplicates example_gps2dist (dup_heap 1%nat) (dup_heap 0%nat) 500.
Proof.
  apply (are_duplicates_symmetric example_gps2dist (dup_heap 0%nat)
           (dup_heap 1%nat) 500).
  reflexivity.
Defined.

Lemma list_remove_length (h : Heap) (x : ref) (l : list ref) :
  (List.length (list_remove h x l) <= List.length l)%nat.
Proof.
  induction l as [|y l IH]; simpl; [lia|].
  destruct (Nat.eqb y x || trace_eqb (h y) (h x)); simpl; lia.
Qed.

Lemma find_duplicate_In (gps2dist_azimuth : Q -> Q -> Q -> Q -> result Q)
    (h : Heap) (max_dist_tolerance : Q) (x y : ref) (kept : list ref) :
  find_duplicate gps2dist_azimuth h max_dist_tolerance x kept = Ok (Some y) ->
  In y kept /\
  are_duplicates gps2dist_azimuth (h x) (h y) max_dist_tolerance = Ok true.
Proof.
  induction kept as [|z kept IH]; [discriminate|].
  cbn [find_duplicate].
  destruct (are_duplicates gps2dist_azimuth (h x) (h z) max_dist_tolerance)
    as [[|]|e] eqn:E; cbn [bind]; try discriminate.
  - intro H. injection H as <-. split; [left; reflexivity | exact E].
  - intro H. destruct (IH H) as [Hin Hd]. split; [right; exact Hin | exact Hd].
Qed.

Lemma dedup_step_length (gps2dist_azimuth : Q -> Q -> Q -> Q -> result Q)
    (h : Heap) (max_dist_tolerance : Q)
    (process_level_preference format_preference : list string)
    (kept res : list ref) (x : ref) :
  dedup_step gps2dist_azimuth h max_dist_tolerance process_level_preference
             format_preference kept x = Ok res ->
  (List.length res <= S (List.length kept))%nat /\ res <> [].
Proof.
  unfold dedup_step.
  destruct (find_duplicate gps2dist_azimuth h max_dist_tolerance x kept)
    as [[y|]|e] eqn:Efind; cbn [bind]; try discriminate.
  - destruct (choose_preferred (h x) (h y) process_level_preference
                format_preference) as [chosen|e]; cbn [bind]; [|discriminate].
    destruct (is_trace h chosen x); intro H; injection H as <-.
    + rewrite length_app. pose proof (list_remove_length h y kept). simpl.
      split; [lia|]. intro C. apply app_eq_nil in C. destruct C as [_ C].
      discriminate C.
    + split; [lia|]. apply find_duplicate_In in Efind. destruct Efind as [Hin _].
      intros ->. destruct Hin.
  - intro H. injection H as <-. rewrite length_app. simpl. split; [lia|].
    intro C. apply app_eq_nil in C. destruct C as [_ C]. discriminate C.
Qed.

Lemma dedup_length (gps2dist_azimuth : Q -> Q -> Q -> Q -> result Q)
    (h : Heap) (max_dist_tolerance : Q)
    (process_level_preference format_preference : list string)
    (trs kept res : list ref) :
  dedup gps2dist_azimuth h max_dist_tolerance process_level_preference
        format_preference trs kept = Ok res ->
  (List.length res <= List.length kept + List.length trs)%nat /\
  (kept ++ trs <> [] -> res <> []).
Proof.
  revert kept. induction trs as [|x trs IH]; intros kept H.
  - injection H as <-. rewrite app_nil_r. simpl. split; [lia | auto].
  - cbn [dedup] in H.
    destruct (dedup_step gps2dist_azimuth h max_dist_tolerance
                process_level_preference format_preference kept x)
      as [kept'|e] eqn:Estep; [|discriminate H].
    cbn [bind] in H. apply dedup_step_length in Estep. destruct Estep as [Hlen Hne].
    destruct (IH _ H) as [Hlen' Hne']. simpl. split; [lia|].
    intros _. apply Hne'. intro C. apply app_eq_nil in C. destruct C as [C _].
    exact (Hne C).
Qed.

(** X13: what [__handle_duplicates] leaves is a list of one-trace streams,
    each trace one of those it was given; there are no more of them than
    traces given and, when there was a trace, at least one. The traces
    themselves change in the stamped tag only. *)
Theorem handle_duplicates_bounds
    (gps2dist_azimuth : Q -> Q -> Q -> Q -> result Q) (config : DuplicateConfig)
    (h : Heap) (streams : list StationStream)
    (max_dist_tolerance : option Q)
    (process_level_preference format_preference : option (list string))
    (h1 : Heap) (streams1 : list StationStream) :
  handle_duplicates gps2dist_azimuth config h streams max_dist_tolerance
    process_level_preference format_preference = Ok (h1, streams1) ->
  agree h h1 /\
  (forall st, In st streams1 ->
     exists r, traces st = [r] /\ In r (flat_map traces streams)) /\
  (List.length streams1 <= List.length (flat_map traces streams))%nat /\
  (flat_map traces streams <> [] -> streams1 <> []).
Proof.
  unfold handle_duplicates. intro H.
  pose proof (gather_agree h streams) as Hag.
  destruct (gather_stream_parameters h streams) as [h' params].
  cbn [fst] in Hag.
  destruct (dedup gps2dist_azimuth h' _ _ _ (flat_map traces streams) [])
    as [kept|e] eqn:Ededup; [|discriminate H].
  cbn [bind] in H. injection H as <- <-.
  pose proof (dedup_In _ _ _ _ _ _ _ _ Ededup) as Hin.
  destruct (dedup_length _ _ _ _ _ _ _ _ Ededup) as [Hlen Hne].
  unfold insert_stream_parameters. rewrite map_map.
  split; [exact Hag|]. split; [|split].
  - intros st Hst. apply in_map_iff in Hst. destruct Hst as (r & <- & Hr).
    exists r. rewrite insert_one_new by discriminate. split; [reflexivity|].
    destruct (Hin r Hr) as [[]|H]. exact H.
  - rewrite length_map. simpl in Hlen. exact Hlen.
  - intros Hn C. apply map_eq_nil in C. exact (Hne Hn C).
Qed.

Lemma handle_duplicates_bounds_witness :
  exists h1 streams1,
    handle_duplicates example_gps2dist example_config levels_heap
      [new_stream [0%nat]; new_stream [1%nat]] None None None
    = Ok (h1, streams1) /\
    (List.length streams1 <= 2)%nat /\ streams1 <> [].
Proof.
  do 2 eexists. split; [vm_compute; reflexivity|].
  edestruct (handle_duplicates_bounds example_gps2dist example_config levels_heap
               [new_stream [0%nat]; new_stream [1%nat]] None None None)
    as (_ & _ & Hlen & Hne).
  - vm_compute. reflexivity.
  - split; [exact Hlen | apply Hne; discriminate].
Defined.

(** ** What a constructed collection guarantees *)

Lemma ingest_In (h : Heap) (drop_non_free : bool)
    (streams newstreams : list StationStream) :
  ingest h drop_non_free streams = Ok newstreams ->
  forall s, In s newstreams ->
    In s streams /\
    (drop_non_free = true -> traces s <> [] /\ free_field (first_trace h s) = true).
Proof.
  revert newstreams. induction streams as [|x streams IH]; intros newstreams H s Hs.
  - injection H as <-. destruct Hs.
  - cbn [ingest] in H.
    destruct (if drop_non_free
              then match traces x with
                   | [] => Raise IndexError
                   | r :: _ => Ok (free_field (h r))
                   end
              else Ok true) as [keep|e] eqn:Ekeep; [|discriminate H].
    cbn [bind] in H.
    destruct (ingest h drop_non_free streams) as [rest|e]; [|discriminate H].
    cbn [bind] in H. injection H as <-.
    assert (In s rest -> In s (x :: streams) /\
            (drop_non_free = true ->
             traces s <> [] /\ free_field (first_trace h s) = true)) as Hrest.
    { intro Hin. destruct (IH rest eq_refl s Hin) as [H1 H2].
      split; [right; exact H1 | exact H2]. }
    destruct keep; [|exact (Hrest Hs)].
    destruct Hs as [<-|Hs]; [|exact (Hrest Hs)].
    split; [left; reflexivity|]. intros ->. unfold first_trace.
    destruct (traces x) as [|r l]; [discriminate Ekeep|].
    injection Ekeep as Ekeep. split; [discriminate | exact Ekeep].
Qed.

Lemma handle_duplicates_traces
    (gps2dist_azimuth : Q -> Q -> Q -> Q -> result Q) (config : DuplicateConfig)
    (h : Heap) (streams : list StationStream)
    (max_dist_tolerance : option Q)
    (process_level_preference format_preference : option (list string))
    (h1 : Heap) (streams1 : list StationStream) :
  handle_duplicates gps2dist_azimuth config h streams max_dist_tolerance
    process_level_preference format_preference = Ok (h1, streams1) ->
  agree h h1 /\
  forall r, In r (flat_map traces streams1) -> In r (flat_map traces streams).
Proof.
  unfold handle_duplicates. intro H.
  pose proof (gather_agree h streams) as Hag.
  destruct (gather_stream_parameters h streams) as [h' params].
  cbn [fst] in Hag.
  destruct (dedup gps2dist_azimuth h' _ _ _ (flat_map traces streams) [])
    as [kept|e] eqn:Ededup; [|discriminate H].
  cbn [bind] in H. injection H as <- <-. split; [exact Hag|].
  intros r Hr. apply in_flat_map in Hr. destruct Hr as (st & Hst & Hr).
  unfold insert_stream_parameters in Hst. rewrite map_map in Hst.
  apply in_map_iff in Hst. destruct Hst as (x & <- & Hx).
  rewrite insert_one_new in Hr by discriminate. cbn [traces] in Hr.
  destruct Hr as [<-|[]].
  destruct (dedup_In _ _ _ _ _ _ _ _ Ededup x Hx) as [[]|H]. exact H.
Qed.

(** The steps of the constructor, when it returns. *)
Lemma StreamCollection_init_steps
    (gps2dist_azimuth : Q -> Q -> Q -> Q -> result Q) (config : DuplicateConfig)
    (h : Heap) (streams : list StationStream) (drop_non_free handle_dups : bool)
    (max_dist_tolerance : option Q)
    (process_level_preference format_preference : option (list string))
    (h' : Heap) (groups : list StationStream) :
  StreamCollection_init gps2dist_azimuth config h streams drop_non_free
    handle_dups max_dist_tolerance process_level_preference format_preference
  = Ok (h', groups) ->
  exists newstreams h1 streams1,
    ingest h drop_non_free streams = Ok newstreams /\
    agree h h1 /\
    (forall r, In r (flat_map traces streams1) ->
               In r (flat_map traces newstreams)) /\
    group_by_net_sta_inst h1 streams1 = Ok (h', groups) /\
    validate groups = Ok tt.
Proof.
  unfold StreamCollection_init. intro H.
  destruct (ingest h drop_non_free streams) as [newstreams|e]; [|discriminate H].
  cbn [bind] in H. exists newstreams.
  destruct (if handle_dups && (0 <? List.length newstreams)%nat
            then handle_duplicates gps2dist_azimuth config h newstreams
                   max_dist_tolerance process_level_preference format_preference
            else Ok (h, newstreams)) as [[h1 streams1]|e] eqn:Ededup;
    [|discriminate H].
  cbn [bind fst snd] in H. exists h1, streams1.
  destruct (group_by_net_sta_inst h1 streams1) as [[h2 G]|e]; [|discriminate H].
  cbn [bind snd] in H.
  destruct (validate G) as [[]|e] eqn:Eval; [|discriminate H].
  cbn [bind] in H. injection H as <- <-.
  split; [reflexivity|].
  destruct (handle_dups && (0 <? List.length newstreams)%nat).
  - destruct (handle_duplicates_traces _ _ _ _ _ _ _ _ _ Ededup) as [Hag Hin].
    auto.
  - injection Ededup as <- <-. split; [apply agree_refl | auto].
Qed.

Lemma agree_free_field (h h' : Heap) :
  agree h h' -> forall r, free_field (h' r) = free_field (h r).
Proof. intros H r. destruct (H r) as [t ->]. reflexivity. Qed.

Lemma group_by_net_sta_inst_groups (h h' : Heap)
    (streams groups : list StationStream) :
  group_by_net_sta_inst h streams = Ok (h', groups) ->
  agree h h' /\
  forall g, In g groups -> In (traces g) (grouped_traces h (flat_map traces streams)).
Proof.
  intro H. destruct (group_by_net_sta_inst_spec h streams) as (G & Hrun & _ & Htr).
  rewrite Hrun in H. injection H as <- <-. split; [apply gather_agree|].
  intros g Hg. rewrite <- Htr. apply in_map. exact Hg.
Qed.

Lemma mapM_In {A B : Type} (f : A -> result B) (l : list A) (ys : list B) :
  mapM f l = Ok ys -> forall x, In x l -> exists y, In y ys /\ f x = Ok y.
Proof.
  revert ys. induction l as [|a l IH]; intros ys H x Hx; [destruct Hx|].
  cbn [mapM] in H. destruct (f a) as [b|e] eqn:Ea; [|discriminate H].
  cbn [bind] in H. destruct (mapM f l) as [bs|e]; [|discriminate H].
  cbn [bind] in H. injection H as <-. destruct Hx as [<-|Hx].
  - exists b. split; [left; reflexivity | exact Ea].
  - destruct (IH bs eq_refl x Hx) as (y & Hy & E). exists y.
    split; [right; exact Hy | exact E].
Qed.

Lemma validate_labels (streams : list StationStream) :
  validate streams = Ok tt ->
  forall g g', In g streams -> In g' streams -> stream_label g = stream_label g'.
Proof.
  unfold validate. intros H g g' Hg Hg'.
  destruct (mapM stream_label streams) as [labels|e] eqn:E; [|discriminate H].
  cbn [bind] in H.
  destruct (1 <? List.length (nodup string_dec labels))%nat eqn:Elen;
    [discriminate H|].
  apply Nat.ltb_ge in Elen.
  pose proof (proj1 (nodup_short labels) Elen) as Hsame.
  destruct (mapM_In _ _ _ E g Hg) as (y & Hy & ->).
  destruct (mapM_In _ _ _ E g' Hg') as (y' & Hy' & ->).
  f_equal. apply Hsame; assumption.
Qed.

(** X14: when the constructor returns, no group is empty; every trace of
    a group comes from one of the streams given (one whose first trace is
    free-field, when [drop_non_free] is set); the traces of a group have
    the same network, station, instrument code and free-field flag, and the
    same location where the network uses it; all groups have the same
    label; and the traces differ from what they were in the stamped tag
    only. *)
Theorem StreamCollection_init_invariants
    (gps2dist_azimuth : Q -> Q -> Q -> Q -> result Q) (config : DuplicateConfig)
    (h : Heap) (streams : list StationStream) (drop_non_free handle_dups : bool)
    (max_dist_tolerance : option Q)
    (process_level_preference format_preference : option (list string))
    (h' : Heap) (groups : list StationStream) :
  StreamCollection_init gps2dist_azimuth config h streams drop_non_free
    handle_dups max_dist_tolerance process_level_preference format_preference
  = Ok (h', groups) ->
  agree h h' /\
  (forall g, In g groups ->
     traces g <> [] /\
     (forall r, In r (traces g) ->
        exists s, In s streams /\ In r (traces s) /\
                  (drop_non_free = true ->
                   free_field (first_trace h s) = true)) /\
     (forall r r', In r (traces g) -> In r' (traces g) ->
        network (stats (h' r)) = network (stats (h' r')) /\
        station (stats (h' r)) = station (stats (h' r')) /\
        slice02 (channel (stats (h' r))) = slice02 (channel (stats (h' r'))) /\
        free_field (h' r) = free_field (h' r') /\
        (str_in (network (stats (h' r))) NETWORKS_USING_LOCATION = true ->
         location (stats (h' r)) = location (stats (h' r'))))) /\
  (forall g g', In g groups -> In g' groups -> stream_label g = stream_label g').
Proof.
  intro H. apply StreamCollection_init_steps in H.
  destruct H as (newstreams & h1 & streams1 & Hing & Hag1 & Hsub & Hgroup & Hval).
  destruct (group_by_net_sta_inst_groups _ _ _ _ Hgroup) as [Hag2 Hgroups].
  split; [exact (agree_trans _ _ _ Hag1 Hag2)|].
  split; [|exact (validate_labels _ Hval)].
  intros g Hg. specialize (Hgroups g Hg).
  assert (Hmem : forall r, In r (traces g) -> In r (flat_map traces streams1)).
  { intros r Hr. apply (Permutation_in _ (grouped_traces_Permutation h1 _)).
    apply in_concat. exists (traces g). auto. }
  split; [exact (grouped_traces_nonempty _ _ _ Hgroups)|]. split.
  - intros r Hr. apply Hmem, Hsub, in_flat_map in Hr.
    destruct Hr as (s & Hs & Hr).
    destruct (ingest_In _ _ _ _ Hing s Hs) as [Hin Hfree].
    exists s. split; [exact Hin|]. split; [exact Hr|].
    intro Hd. exact (proj2 (Hfree Hd)).
  - intros r r' Hr Hr'.
    assert (same_net_sta_inst h1 r r' = true /\
            (uses_location h1 r = true -> same_location h1 r r' = true))
      as [Hsame Hloc].
    { apply (grouped_traces_iff h1 (flat_map traces streams1)); auto.
      exists (traces g). auto. }
    rewrite <- (agree_same_net_sta_inst _ _ Hag2) in Hsame.
    apply same_net_sta_inst_true in Hsame.
    destruct Hsame as (Hn & Hs & Hc & Hf). repeat split; try assumption.
    intro Hu. rewrite <- (agree_uses_location _ _ Hag2),
                <- (agree_same_location _ _ Hag2) in Hloc.
    apply String.eqb_eq. apply Hloc. exact Hu.
Qed.

Lemma StreamCollection_init_invariants_witness :
  exists h' groups,
    StreamCollection_init example_gps2dist example_config pair_heap pair_groups
      true true None None None = Ok (h', groups) /\
    forall g, In g groups -> traces g <> [].
Proof.
  do 2 eexists. split; [vm_compute; reflexivity|].
  edestruct (StreamCollection_init_invariants example_gps2dist example_config
               pair_heap pair_groups true true None None None) as (_ & H & _).
  - vm_compute. reflexivity.
  - intros g Hg. exact (proj1 (H g Hg)).
Defined.

(** X15: a collection made by [from_traces] holds only traces it was given,
    and only free-field ones. *)
Theorem from_traces_free_field
    (gps2dist_azimuth : Q -> Q -> Q -> Q -> result Q) (config : DuplicateConfig)
    (h : Heap) (trs : list ref) (h' : Heap) (groups : list StationStream) :
  from_traces gps2dist_azimuth config h trs = Ok (h', groups) ->
  forall g r, In g groups -> In r (traces g) ->
    In r trs /\ free_field (h r) = true /\ free_field (h' r) = true.
Proof.
  unfold from_traces. intros H g r Hg Hr.
  apply StreamCollection_init_steps in H.
  destruct H as (newstreams & h1 & streams1 & Hing & Hag1 & Hsub & Hgroup & _).
  destruct (group_by_net_sta_inst_groups _ _ _ _ Hgroup) as [Hag2 Hgroups].
  assert (Hin : In r (flat_map traces newstreams)).
  { apply Hsub. apply (Permutation_in _ (grouped_traces_Permutation h1 _)).
    apply in_concat. exists (traces g). auto. }
  apply in_flat_map in Hin. destruct Hin as (s & Hs & Hrs).
  destruct (ingest_In _ _ _ _ Hing s Hs) as [Hin Hfree].
  destruct (Hfree eq_refl) as [_ Hff].
  apply in_map_iff in Hin. destruct Hin as (x & <- & Hx).
  cbn [traces new_stream] in Hrs. destruct Hrs as [<-|[]].
  unfold first_trace in Hff. cbn [traces new_stream hd] in Hff.
  split; [exact Hx|]. split; [exact Hff|].
  rewrite (agree_free_field _ _ (agree_trans _ _ _ Hag1 Hag2)). exact Hff.
Qed.

Lemma from_traces_free_field_witness :
  exists h' groups,
    from_traces example_gps2dist example_config site_heap [0%nat; 1%nat]
    = Ok (h', groups) /\
    forall g r, In g groups -> In r (traces g) -> r = 0%nat.
Proof.
  do 2 eexists. split; [vm_compute; reflexivity|].
  intros g r Hg Hr.
  edestruct (from_traces_free_field example_gps2dist example_config site_heap
               [0%nat; 1%nat]) as (Hin & Hfree & _);
    [vm_compute; reflexivity | exact Hg | exact Hr |].
  destruct Hin as [<-|[<-|[]]]; [reflexivity | discriminate Hfree].
Defined.

(** ** Selection by a literal code *)

Lemma upper_char_literal (c : ascii) :
  Ascii.eqb (upper_char c) "*" = Ascii.eqb c "*" /\
  Ascii.eqb (upper_char c) "?" = Ascii.eqb c "?" /\
  Ascii.eqb (upper_char c) "[" = Ascii.eqb c "[".
Proof.
  destruct c as [[] [] [] [] [] [] [] []]; repeat split; reflexivity.
Qed.

Lemma literal_upper (pat : string) : literal (upper pat) = literal pat.
Proof.
  induction pat as [|c pat IH]; [reflexivity|].
  cbn [upper literal].
  destruct (upper_char_literal c) as (-> & -> & ->). rewrite IH. reflexivity.
Qed.

Lemma glob_literal (pat name : string) :
  literal pat = true -> glob pat name = String.eqb pat name.
Proof.
  revert name. induction pat as [|p pat IH]; intros name H.
  - destruct name; reflexivity.
  - cbn [literal] in H. apply andb_true_iff in H. destruct H as [H Hl].
    apply andb_true_iff in H. destruct H as [H _].
    apply andb_true_iff in H. destruct H as [Hstar Hq].
    apply negb_true_iff in Hstar, Hq.
    cbn [glob]. rewrite Hstar. destruct name as [|c name]; [reflexivity|].
    rewrite Hq. cbn [orb String.eqb]. rewrite (IH _ Hl).
    reflexivity.
Qed.

(** X16: [select] by an instrument code without wildcard characters keeps
    the groups whose instrument code is that code, whatever the case of
    the letters, and builds the new collection from them. *)
Theorem select_instrument_literal
    (gps2dist_azimuth : Q -> Q -> Q -> Q -> result Q) (config : DuplicateConfig)
    (h : Heap) (streams : list StationStream) (instrument : string) :
  literal instrument = true ->
  select gps2dist_azimuth config h streams None None (Some instrument)
  = StreamCollection_init gps2dist_azimuth config h
      (filter (fun st => String.eqb (upper instrument) (upper (get_inst h st)))
              streams)
      true true None None None.
Proof.
  intro H. unfold select. f_equal. apply filter_ext. intro st.
  cbn [opt_match andb]. unfold fnmatch. apply glob_literal.
  rewrite literal_upper. exact H.
Qed.

Lemma select_instrument_literal_witness :
  select example_gps2dist example_config pair_heap pair_streams None None (Some "bn")
  = StreamCollection_init example_gps2dist example_config pair_heap
      [new_stream [2%nat]] true true None None None.
Proof.
  rewrite (select_instrument_literal example_gps2dist example_config pair_heap
             pair_streams "bn"); reflexivity.
Defined.

(** ** Colocation only fails traces *)

Lemma fails_more_refl (h : Heap) : fails_more h h.
Proof.
  intro r. split; [|auto]. exists (tag (stats (h r))).
  rewrite set_tag_same. reflexivity.
Qed.

Lemma fails_more_trans (h1 h2 h3 : Heap) :
  fails_more h1 h2 -> fails_more h2 h3 -> fails_more h1 h3.
Proof.
  intros H12 H23 r.
  destruct (H12 r) as ([t Ht] & Hd & Hp & Hf).
  destruct (H23 r) as ([t' Ht'] & Hd' & Hp' & Hf').
  split; [|split; [|split]].
  - exists t'. rewrite Ht'. unfold set_tag. cbn [stats]. rewrite Ht.
    reflexivity.
  - congruence.
  - intros k Hk. rewrite (Hp' k Hk). apply Hp. exact Hk.
  - auto.
Qed.

Lemma agree_fails_more (h h' : Heap) : agree h h' -> fails_more h h'.
Proof.
  intros H r. destruct (H r) as [t Ht]. rewrite Ht.
  split; [exists t; reflexivity | auto].
Qed.

Lemma fail_fails_more (h : Heap) (r : ref) (reason : string) :
  fails_more h (heap_set h r (fail (h r) "select_colocated" reason)).
Proof.
  intro x. unfold heap_set. destruct (Nat.eqb_spec x r) as [->|_];
    [|apply fails_more_refl].
  unfold fail, setParameter, hasParameter. cbn [stats data parameters].
  split; [|split; [|split]].
  - exists (tag (stats (h r))). rewrite set_tag_same. reflexivity.
  - reflexivity.
  - intros k Hk. apply dict_get_set_other. congruence.
  - intros _. unfold dict_has. rewrite dict_get_set_same. reflexivity.
Qed.

Lemma fail_stream_fails_more (reason : string) (st : StationStream) (h : Heap) :
  fails_more h (fail_stream reason h st).
Proof.
  unfold fail_stream. revert h.
  induction (traces st) as [|r l IH]; intro h; [apply fails_more_refl|].
  cbn [fold_left]. eapply fails_more_trans; [apply fail_fails_more | apply IH].
Qed.

Lemma fail_streams_fails_more (reason : string) (sts : list StationStream)
    (h : Heap) :
  fails_more h (fold_left (fail_stream reason) sts h).
Proof.
  revert h. induction sts as [|st sts IH]; intro h; [apply fails_more_refl|].
  cbn [fold_left].
  eapply fails_more_trans; [apply fail_stream_fails_more | apply IH].
Qed.

Lemma StreamCollection_init_agree
    (gps2dist_azimuth : Q -> Q -> Q -> Q -> result Q) (config : DuplicateConfig)
    (h : Heap) (streams : list StationStream) (drop_non_free handle_dups : bool)
    (max_dist_tolerance : option Q)
    (process_level_preference format_preference : option (list string))
    (h' : Heap) (groups : list StationStream) :
  StreamCollection_init gps2dist_azimuth config h streams drop_non_free
    handle_dups max_dist_tolerance process_level_preference format_preference
  = Ok (h', groups) ->
  agree h h'.
Proof.
  intro H. apply StreamCollection_init_steps in H.
  destruct H as (newstreams & h1 & streams1 & _ & Hag1 & _ & Hgroup & _).
  destruct (group_by_net_sta_inst_groups _ _ _ _ Hgroup) as [Hag2 _].
  exact (agree_trans _ _ _ Hag1 Hag2).
Qed.

Lemma foldM_invariant {A B : Type} (P : A -> A -> Prop) (f : A -> B -> result A)
    (l : list B) :
  (forall a, P a a) ->
  (forall a b c, P a b -> P b c -> P a c) ->
  (forall a x a', f a x = Ok a' -> P a a') ->
  forall a a', foldM f l a = Ok a' -> P a a'.
Proof.
  intros Hrefl Htrans Hstep. induction l as [|x l IH]; intros a a' H.
  - injection H as <-. apply Hrefl.
  - cbn [foldM] in H. destruct (f a x) as [a1|e] eqn:E; [|discriminate H].
    cbn [bind] in H. exact (Htrans _ _ _ (Hstep _ _ _ E) (IH _ _ H)).
Qed.

Lemma colocated_group_fails_more
    (gps2dist_azimuth : Q -> Q -> Q -> Q -> result Q) (config : DuplicateConfig)
    (streams : list StationStream) (preference : list string)
    (h : Heap) (group : list nat) (h' : Heap) :
  colocated_group gps2dist_azimuth config streams preference h group = Ok h' ->
  fails_more h h'.
Proof.
  unfold colocated_group.
  destruct (1 <? List.length group)%nat;
    [|intro H; injection H as <-; apply fails_more_refl].
  destruct (first_preferred preference _) as [keep|].
  - apply (foldM_invariant fails_more).
    + apply fails_more_refl.
    + apply fails_more_trans.
    + intros a tf a' H.
      destruct (select gps2dist_azimuth config a streams None None (Some tf))
        as [[h1 sel]|e] eqn:Esel; [|discriminate H].
      cbn [bind fst snd] in H. injection H as <-.
      eapply fails_more_trans; [|apply fail_streams_fails_more].
      apply agree_fails_more.
      exact (StreamCollection_init_agree _ _ _ _ _ _ _ _ _ _ _ Esel).
  - intro H. injection H as <-. revert h.
    induction group as [|g group IH]; intro h; [apply fails_more_refl|].
    cbn [fold_left].
    eapply fails_more_trans; [apply fail_stream_fails_more | apply IH].
Qed.

Lemma filter_length_le {A : Type} (f g : A -> bool) (l : list A) :
  (forall x, f x = true -> g x = true) ->
  (List.length (filter f l) <= List.length (filter g l))%nat.
Proof.
  intro H. induction l as [|x l IH]; simpl; [lia|].
  destruct (f x) eqn:E.
  - rewrite (H x E). simpl. lia.
  - destruct (g x); simpl; lia.
Qed.

Lemma fails_more_passed (h h' : Heap) (st : StationStream) :
  fails_more h h' -> passed h' st = true -> passed h st = true.
Proof.
  intros H. unfold passed. rewrite !negb_true_iff. intro Hp.
  apply not_true_is_false. intro C. apply existsb_exists in C.
  destruct C as (r & Hr & Hf).
  assert (existsb (fun r => hasParameter (h' r) "failure") (traces st) = true) as C'.
  { apply existsb_exists. exists r. split; [exact Hr|].
    destruct (H r) as (_ & _ & _ & Hkeep). auto. }
  congruence.
Qed.

(** The traces outside a list are as they were. *)
Lemma gather_out (streams : list StationStream) (h : Heap) (r : ref) :
  ~ In r (flat_map traces streams) ->
  fst (gather_stream_parameters h streams) r = h r.
Proof.
  induction streams as [|s streams IH] using rev_ind; intro Hr; [reflexivity|].
  rewrite gather_snoc.
  destruct (gather_stream_parameters h streams) as [h' d] eqn:E.
  rewrite gather_step_heap. cbn [fst] in IH.
  rewrite flat_map_app in Hr. cbn [flat_map] in Hr. rewrite app_nil_r in Hr.
  rewrite stamp_out by (intro H; apply Hr; apply in_or_app; right; exact H).
  apply IH. intro H. apply Hr. apply in_or_app. left. exact H.
Qed.

Lemma StreamCollection_init_out
    (gps2dist_azimuth : Q -> Q -> Q -> Q -> result Q) (config : DuplicateConfig)
    (h : Heap) (streams : list StationStream) (drop_non_free handle_dups : bool)
    (max_dist_tolerance : option Q)
    (process_level_preference format_preference : option (list string))
    (h' : Heap) (groups : list StationStream) :
  StreamCollection_init gps2dist_azimuth config h streams drop_non_free
    handle_dups max_dist_tolerance process_level_preference format_preference
  = Ok (h', groups) ->
  (forall r, In r (flat_map traces groups) -> In r (flat_map traces streams)) /\
  (forall r, ~ In r (flat_map traces streams) -> h' r = h r).
Proof.
  unfold StreamCollection_init. intro H.
  destruct (ingest h drop_non_free streams) as [newstreams|e] eqn:Eing;
    [|discriminate H].
  cbn [bind] in H.
  assert (Hsub0 : forall r, In r (flat_map traces newstreams) ->
                            In r (flat_map traces streams)).
  { intros r Hr. apply in_flat_map in Hr. destruct Hr as (s & Hs & Hr).
    apply in_flat_map. exists s. split; [|exact Hr].
    exact (proj1 (ingest_In _ _ _ _ Eing s Hs)). }
  destruct (if handle_dups && (0 <? List.length newstreams)%nat
            then handle_duplicates gps2dist_azimuth config h newstreams
                   max_dist_tolerance process_level_preference format_preference
            else Ok (h, newstreams)) as [[h1 streams1]|e] eqn:Ededup;
    [|discriminate H].
  cbn [bind fst snd] in H.
  assert (Hsub1 : (forall r, In r (flat_map traces streams1) ->
                             In r (flat_map traces newstreams)) /\
                  (forall r, ~ In r (flat_map traces newstreams) -> h1 r = h r)).
  { destruct (handle_dups && (0 <? List.length newstreams)%nat).
    - split; [exact (proj2 (handle_duplicates_traces _ _ _ _ _ _ _ _ _ Ededup))|].
      unfold handle_duplicates in Ededup.
      pose proof (gather_out newstreams h) as Hout.
      destruct (gather_stream_parameters h newstreams) as [h0 params].
      cbn [fst] in Hout.
      destruct (dedup gps2dist_azimuth h0 _ _ _ _ []) as [kept|e];
        [|discriminate Ededup].
      cbn [bind] in Ededup. injection Ededup as <- _. exact Hout.
    - injection Ededup as <- <-. split; auto. }
  destruct Hsub1 as [Hsub1 Hout1].
  destruct (group_by_net_sta_inst h1 streams1) as [[h2 G]|e] eqn:Egroup;
    [|discriminate H].
  cbn [bind snd] in H. destruct (validate G) as [[]|e]; [|discriminate H].
  cbn [bind] in H. injection H as <- <-.
  destruct (group_by_net_sta_inst_spec h1 streams1) as (G' & Hrun & _ & Htr).
  rewrite Hrun in Egroup. injection Egroup as <- <-.
  split.
  - intros r Hr. apply Hsub0, Hsub1.
    apply (Permutation_in _ (grouped_traces_Permutation h1 _)).
    rewrite <- Htr, <- flat_map_concat_map. exact Hr.
  - intros r Hr. rewrite gather_out; [apply Hout1|]; intro C; apply Hr; auto.
Qed.

Lemma fail_stream_out (reason : string) (st : StationStream) (h : Heap) (r : ref) :
  ~ In r (traces st) -> fail_stream reason h st r = h r.
Proof.
  unfold fail_stream. revert h.
  induction (traces st) as [|x l IH]; intros h Hr; [reflexivity|].
  cbn [fold_left]. rewrite IH by (intro H; apply Hr; right; exact H).
  unfold heap_set. destruct (Nat.eqb_spec r x) as [->|_]; [|reflexivity].
  exfalso. apply Hr. left. reflexivity.
Qed.

Lemma fail_streams_out (reason : string) (sts : list StationStream) (h : Heap)
    (r : ref) :
  ~ In r (flat_map traces sts) -> fold_left (fail_stream reason) sts h r = h r.
Proof.
  revert h. induction sts as [|st sts IH]; intros h Hr; [reflexivity|].
  cbn [fold_left]. cbn [flat_map] in Hr.
  rewrite IH by (intro H; apply Hr; apply in_or_app; right; exact H).
  apply fail_stream_out. intro H. apply Hr. apply in_or_app. left. exact H.
Qed.

Lemma colocated_group_out
    (gps2dist_azimuth : Q -> Q -> Q -> Q -> result Q) (config : DuplicateConfig)
    (streams : list StationStream) (preference : list string)
    (h : Heap) (group : list nat) (h' : Heap) :
  colocated_group gps2dist_azimuth config streams preference h group = Ok h' ->
  forall r, ~ In r (flat_map traces streams) -> h' r = h r.
Proof.
  unfold colocated_group.
  destruct (1 <? List.length group)%nat;
    [|intro H; injection H as <-; reflexivity].
  destruct (first_preferred preference _) as [keep|].
  - apply (foldM_invariant
             (fun a b : Heap => forall r, ~ In r (flat_map traces streams) -> b r = a r)).
    + reflexivity.
    + intros a b c Hab Hbc r Hr. rewrite (Hbc r Hr). exact (Hab r Hr).
    + intros a tf a' H r Hr.
      destruct (select gps2dist_azimuth config a streams None None (Some tf))
        as [[h1 sel]|e] eqn:Esel; [|discriminate H].
      cbn [bind fst snd] in H. injection H as <-.
      unfold select in Esel. apply StreamCollection_init_out in Esel.
      destruct Esel as [Hsub Hout].
      assert (Hnot :
                ~ In r (flat_map traces
                          (filter (fun st =>
                             opt_match (nth 0 (split "." (get_net_sta a st)) "") None &&
                             opt_match (nth 1 (split "." (get_net_sta a st)) "") None &&
                             opt_match (get_inst a st) (Some tf)) streams))).
      { intro C. apply Hr. apply in_flat_map in C. destruct C as (s & Hs & C).
        apply filter_In in Hs. apply in_flat_map. exists s. tauto. }
      rewrite fail_streams_out by (intro C; exact (Hnot (Hsub r C))).
      exact (Hout r Hnot).
  - intro H. injection H as <-. intros r Hr. revert h.
    induction group as [|g group IH]; intro h; [reflexivity|].
    cbn [fold_left]. rewrite IH. apply fail_stream_out.
    intro C. apply Hr. destruct (Nat.lt_ge_cases g (List.length streams)) as [Hg|Hg].
    + apply in_flat_map. exists (nth g streams (new_stream [])).
      split; [apply nth_In; exact Hg | exact C].
    + rewrite nth_overflow in C by exact Hg. destruct C.
Qed.

(** X17: [select_colocated] only fails traces, and only traces of the
    collection: when it returns, every trace has the data, the header (but
    for the stamped tag) and the parameters (but for ['failure']) it had,
    and a trace that had failed still has; a trace that is in no group of
    the collection is as it was; so the number of groups that passed does
    not grow and the number that failed does not shrink. *)
Theorem select_colocated_only_fails
    (gps2dist_azimuth : Q -> Q -> Q -> Q -> result Q) (config : DuplicateConfig)
    (h : Heap) (streams : list StationStream) (preference : list string)
    (h' : Heap) :
  select_colocated gps2dist_azimuth config h streams preference = Ok h' ->
  fails_more h h' /\
  (forall r, ~ In r (flat_map traces streams) -> h' r = h r) /\
  (n_passed h' streams <= n_passed h streams)%nat /\
  (n_failed h streams <= n_failed h' streams)%nat /\
  n_passed h' streams + n_failed h' streams = List.length streams.
Proof.
  unfold select_colocated. intro H.
  assert (Hf : fails_more h h').
  { revert H. apply (foldM_invariant fails_more).
    - apply fails_more_refl.
    - apply fails_more_trans.
    - intros a g a'. apply colocated_group_fails_more. }
  assert (Hout : forall r, ~ In r (flat_map traces streams) -> h' r = h r).
  { revert H.
    apply (foldM_invariant
             (fun a b : Heap => forall r, ~ In r (flat_map traces streams) -> b r = a r)).
    - reflexivity.
    - intros a b c Hab Hbc r Hr. rewrite (Hbc r Hr). exact (Hab r Hr).
    - intros a g a'. apply colocated_group_out. }
  assert (Hle : (n_passed h' streams <= n_passed h streams)%nat).
  { unfold n_passed. apply filter_length_le. intro st.
    exact (fails_more_passed _ _ st Hf). }
  split; [exact Hf|]. split; [exact Hout|]. split; [exact Hle|].
  pose proof (filter_length_le (passed h') (fun _ => true) streams
                (fun _ _ => eq_refl)) as Hbound.
  rewrite (filter_all (fun _ : StationStream => true)) in Hbound by reflexivity.
  unfold n_failed. fold (n_passed h' streams) in Hbound. split; lia.
Qed.

Lemma select_colocated_only_fails_witness :
  exists h',
    select_colocated example_gps2dist example_config pair_heap pair_streams
      ["HN?"; "BN?"] = Ok h' /\
    (n_passed h' pair_streams <= n_passed pair_heap pair_streams)%nat.
Proof.
  eexists. split; [vm_compute; reflexivity|].
  edestruct (select_colocated_only_fails example_gps2dist example_config
               pair_heap pair_streams ["HN?"; "BN?"]) as (_ & _ & H & _).
  - vm_compute. reflexivity.
  - exact H.
Defined.

Section OneGroupPerStation.
Variable A : Type.
Variable same : A -> A -> bool.
Hypothesis same_sym : forall x y, same x y = same y x.
Hypothesis same_trans :
  forall x y z, same x y = true -> same y z = true -> same x z = true.

Lemma filter_apart (l : list A) (x : A) :
  ForallOrdPairs (fun a b => same a b = false) l ->
  (List.length (filter (same x) l) <= 1)%nat.
Proof.
  induction 1 as [|a l Ha _ IH]; simpl; [lia|].
  destruct (same x a) eqn:Exa; [|exact IH].
  rewrite filter_none; [simpl; lia|].
  intros b Hb. rewrite Forall_forall in Ha. specialize (Ha b Hb).
  destruct (same x b) eqn:Exb; [|reflexivity].
  rewrite same_sym in Exa. rewrite (same_trans _ _ _ Exa Exb) in Ha.
  discriminate Ha.
Qed.

Lemma positions_length (l : list A) (x : A) :
  List.length (positions same l x) = List.length (filter (same x) l).
Proof.
  unfold positions, enumerate.
  rewrite <- (nth_filter_enumerate (same x) x l []), !length_map.
  reflexivity.
Qed.
End OneGroupPerStation.

(** X18: a collection in which no two groups have the same network and
    station has no colocated instruments: [select_colocated] returns with
    every trace as it was. *)
Theorem select_colocated_one_group_per_station
    (gps2dist_azimuth : Q -> Q -> Q -> Q -> result Q) (config : DuplicateConfig)
    (h : Heap) (streams : list StationStream) (preference : list string) :
  ForallOrdPairs (fun s s' => get_net_sta h s <> get_net_sta h s') streams ->
  select_colocated gps2dist_azimuth config h streams preference = Ok h.
Proof.
  intro Hapart. unfold select_colocated.
  set (same := fun stream1 stream2 : StationStream =>
                 String.eqb (get_net_sta h stream1) (get_net_sta h stream2)).
  assert (Hrefl : forall x, same x x = true)
    by (intro x; apply String.eqb_refl).
  assert (Hsym : forall x y, same x y = same y x)
    by (intros x y; apply String.eqb_sym).
  assert (Htrans : forall x y z, same x y = true -> same y z = true ->
                                 same x z = true).
  { unfold same. intros x y z Hxy Hyz. apply String.eqb_eq in Hxy, Hyz.
    apply String.eqb_eq. congruence. }
  rewrite (match_list_positions _ same Hrefl Hsym Htrans).
  assert (Hshort : forall x, (List.length (positions same streams x) <= 1)%nat).
  { intro x. rewrite positions_length. apply (filter_apart _ same Hsym Htrans).
    clear -Hapart. induction Hapart as [|a l Ha _ IH]; constructor; [|exact IH].
    rewrite Forall_forall in *. intros b Hb. apply String.eqb_neq.
    exact (Ha b Hb). }
  induction (leaders same [] streams) as [|x L IH]; [reflexivity|].
  cbn [map foldM]. unfold colocated_group at 1.
  destruct (Nat.ltb_spec 1 (List.length (positions same streams x))) as [C|_].
  - specialize (Hshort x). lia.
  - cbn [bind]. exact IH.
Qed.

Lemma select_colocated_one_group_per_station_witness :
  select_colocated example_gps2dist example_config colocated_heap
    [new_stream [1%nat]; new_stream [2%nat]] ["HN?"; "BN?"]
  = Ok colocated_heap.
Proof.
  apply select_colocated_one_group_per_station.
  constructor; [|repeat constructor].
  constructor; [|constructor].
  intro E. discriminate E.
Defined.

(** ** Escaping for LaTeX *)

Lemma string_app_assoc (a b c : string) :
  ((a ++ b) ++ c)%string = (a ++ b ++ c)%string.
Proof. induction a as [|x a IH]; simpl; [reflexivity | rewrite IH; reflexivity]. Qed.

Lemma replace_app (old : ascii) (new a b : string) :
  replace old new (a ++ b)%string
  = (replace old new a ++ replace old new b)%string.
Proof.
  induction a as [|c a IH]; [reflexivity|].
  cbn [String.append replace]. rewrite IH.
  destruct (Ascii.eqb c old); [|reflexivity].
  symmetry. apply string_app_assoc.
Qed.

Lemma str_for_latex_app (a b : string) :
  str_for_latex (a ++ b)%string = (str_for_latex a ++ str_for_latex b)%string.
Proof. unfold str_for_latex. rewrite !replace_app. reflexivity. Qed.

Lemma str_for_latex_char (c : ascii) :
  str_for_latex (String c EmptyString) = latex_char c.
Proof. destruct c as [[] [] [] [] [] [] [] []]; reflexivity. Qed.

Lemma latex_char_count (c : ascii) :
  count_char "~" (latex_char c) = 0%nat /\ count_char "^" (latex_char c) = 0%nat.
Proof. destruct c as [[] [] [] [] [] [] [] []]; split; reflexivity. Qed.

Lemma count_char_app (c : ascii) (a b : string) :
  count_char c (a ++ b)%string = (count_char c a + count_char c b)%nat.
Proof.
  induction a as [|x a IH]; [reflexivity|]. simpl. rewrite IH. lia.
Qed.

(** X19: [str_for_latex] escapes character by character: the nine
    replacements in a row give what replacing every character by its
    escape at once gives, so the escape of a concatenation is the
    concatenation of the escapes; the result holds no tilde and no caret;
    and a string without any of the nine characters is returned as it is. *)
Theorem str_for_latex_characters (s1 s2 : string) :
  str_for_latex s1 = string_flat_map latex_char s1 /\
  str_for_latex (s1 ++ s2)%string = (str_for_latex s1 ++ str_for_latex s2)%string /\
  count_char "~" (str_for_latex s1) = 0%nat /\
  count_char "^" (str_for_latex s1) = 0%nat /\
  ((forall c, In c (list_ascii_of_string "_$&%#}{~^") -> count_char c s1 = 0%nat) ->
   str_for_latex s1 = s1).
Proof.
  assert (Hmap : forall s, str_for_latex s = string_flat_map latex_char s).
  { induction s as [|c s IH]; [reflexivity|].
    change (String c s) with (String c EmptyString ++ s)%string.
    rewrite str_for_latex_app, str_for_latex_char, IH. reflexivity. }
  split; [apply Hmap|]. split; [apply str_for_latex_app|].
  rewrite Hmap. split; [|split].
  - induction s1 as [|c s IH]; [reflexivity|]. cbn [string_flat_map].
    rewrite count_char_app, IH, (proj1 (latex_char_count c)). reflexivity.
  - induction s1 as [|c s IH]; [reflexivity|]. cbn [string_flat_map].
    rewrite count_char_app, IH, (proj2 (latex_char_count c)). reflexivity.
  - induction s1 as [|c s IH]; intro H; [reflexivity|].
    cbn [string_flat_map]. rewrite IH.
    + assert (latex_char c = String c EmptyString) as ->; [|reflexivity].
      unfold latex_char.
      repeat match goal with
             | |- context [Ascii.eqb c ?x] =>
                 destruct (Ascii.eqb_spec c x) as [->|_];
                 [exfalso;
                  assert (Hc : count_char x (String x s) = 0%nat)
                    by (apply H; simpl; tauto);
                  cbn [count_char] in Hc; rewrite Ascii.eqb_refl in Hc;
                  discriminate Hc|]
             end.
      reflexivity.
    + intros x Hx. specialize (H x Hx). cbn [count_char] in H. lia.
Qed.

(** ** The provenance document *)

Lemma digits_only_app (a b : string) :
  digits_only (a ++ b)%string = digits_only a && digits_only b.
Proof.
  induction a as [|c a IH]; [reflexivity|]. simpl. rewrite IH.
  apply andb_assoc.
Qed.

Lemma string_of_uint_digits (d : Decimal.uint) :
  digits_only (NilEmpty.string_of_uint d) = true.
Proof. induction d; simpl; auto. Qed.

Lemma zeros_digits (n : nat) : digits_only (zeros n) = true.
Proof. induction n; simpl; auto. Qed.

Lemma zero_padded_digits (width n : nat) :
  digits_only (zero_padded width n) = true.
Proof.
  unfold zero_padded, str_of_nat.
  rewrite digits_only_app, zeros_digits, string_of_uint_digits. reflexivity.
Qed.

Lemma number_of_zeros (m : nat) (s : string) (d : Decimal.uint) :
  NilEmpty.uint_of_string s = Some d ->
  number_of (zeros m ++ s)%string = Nat.of_uint d.
Proof.
  intro H. unfold number_of.
  assert (exists d', NilEmpty.uint_of_string (zeros m ++ s)%string = Some d' /\
                     Nat.of_uint d' = Nat.of_uint d) as (d' & -> & E);
    [|exact E].
  induction m as [|m (d' & IH & E)]; [exists d; auto|].
  exists (Decimal.D0 d'). cbn [zeros String.append NilEmpty.uint_of_string].
  rewrite IH. split; [reflexivity | exact E].
Qed.

Lemma number_of_zero_padded (width n : nat) :
  number_of (zero_padded width n) = n.
Proof.
  unfold zero_padded, str_of_nat.
  rewrite (number_of_zeros _ _ _ (NilEmpty.usu (Nat.to_uint n))).
  apply DecimalNat.Unsigned.of_to.
Qed.

Lemma digits_prefix_unique (a a' b b' : string) :
  digits_only a = true -> digits_only a' = true ->
  (a ++ String "_" b)%string = (a' ++ String "_" b')%string -> a = a'.
Proof.
  revert a'. induction a as [|c a IH]; intros [|c' a'] Ha Ha' H; simpl in *.
  - reflexivity.
  - injection H as <- _. discriminate Ha'.
  - injection H as -> _. discriminate Ha.
  - injection H as <- H. apply andb_true_iff in Ha, Ha'.
    f_equal. apply IH; tauto.
Qed.

Lemma activity_id_sequence (j k : nat) (c c' : string) :
  ("seis_prov:" ++ activity_id j c)%string
  = ("seis_prov:" ++ activity_id k c')%string -> j = k.
Proof.
  unfold activity_id. cbn [String.append]. intro H. injection H as H.
  apply digits_prefix_unique in H; try apply zero_padded_digits.
  rewrite <- (number_of_zero_padded 3 j), <- (number_of_zero_padded 3 k), H.
  reflexivity.
Qed.

Lemma numbered_In (sequence : nat) (known : list provdict) (id : string) :
  In id (numbered sequence known) ->
  exists k c, (sequence <= k)%nat /\ id = ("seis_prov:" ++ activity_id k c)%string.
Proof.
  revert sequence. induction known as [|p known IH]; intros s H; [destruct H|].
  destruct H as [<-|H].
  - exists s, (activity_code p). split; [lia | reflexivity].
  - destruct (IH _ H) as (k & c & Hk & E). exists k, c. split; [lia | exact E].
Qed.

Lemma numbered_NoDup (sequence : nat) (known : list provdict) :
  NoDup (numbered sequence known).
Proof.
  revert sequence. induction known as [|p known IH]; intro s; [constructor|].
  cbn [numbered]. constructor; [|apply IH].
  intro H. apply numbered_In in H. destruct H as (k & c & Hk & E).
  apply activity_id_sequence in E. lia.
Qed.

Lemma numbered_length (sequence : nat) (known : list provdict) :
  List.length (numbered sequence known) = List.length known.
Proof.
  revert sequence. induction known as [|p known IH]; intro s; [reflexivity|].
  simpl. rewrite IH. reflexivity.
Qed.

Lemma add_activities_numbered (strftime : Z -> string) (provenance : list provdict) :
  forall (pr : ProvDocument) (sequence : nat),
  exists activities,
    add_activities strftime pr sequence provenance = Ok (pr ++ activities) /\
    map record_id activities = numbered sequence (known_activities provenance) /\
    Forall (fun r => record_kind r = prov_activity) activities.
Proof.
  induction provenance as [|p provenance IH]; intros pr s.
  - exists []. rewrite app_nil_r. repeat split. constructor.
  - cbn [add_activities known_activities filter]. unfold dict_has.
    destruct (dict_get (prov_id p) ACTIVITIES) as [[code label]|] eqn:E;
      cbn [negb].
    + unfold get_activity. rewrite E. cbn [bind].
      match goal with
      | |- context [add_activities _ (pr ++ [?r]) _ _] =>
          destruct (IH (pr ++ [r]) (S s)) as (acts & Hrun & Hids & Hkind);
          exists (r :: acts)
      end.
      rewrite Hrun, <- app_assoc. split; [reflexivity|]. split.
      * cbn [map record_id numbered]. unfold activity_code. rewrite E.
        fold (known_activities provenance). rewrite Hids. reflexivity.
      * constructor; [reflexivity | exact Hkind].
    + apply IH.
Qed.

(** X20: [getProvenanceDocument] never raises. Its document holds the
    person, the software and the waveform, and then one activity for every
    entry of the provenance whose identifier is in [ACTIVITIES], in the
    order of the provenance; the other entries are left out. The
    activities are numbered from 1 without gaps, and no two of them have
    the same identifier. *)
Theorem getProvenanceDocument_activities
    (username : string) (config_user : option (dict string)) (version : string)
    (strftime : Z -> string) (tr : StationTrace) (provenance : list provdict) :
  exists person software waveform activities,
    getProvenanceDocument username config_user version strftime tr provenance
    = Ok ([person; software; waveform] ++ activities) /\
    map record_kind [person; software; waveform]
    = [prov_agent; prov_agent; prov_entity] /\
    Forall (fun r => record_kind r = prov_activity) activities /\
    map record_id activities = numbered 1 (known_activities provenance) /\
    List.length activities = List.length (known_activities provenance) /\
    NoDup (map record_id activities).
Proof.
  unfold getProvenanceDocument, getAllProvenance.
  match goal with
  | |- context [add_activities _ ?pr _ _] =>
      destruct (add_activities_numbered strftime provenance pr 1)
        as (acts & Hrun & Hids & Hkind)
  end.
  do 3 eexists. exists acts. split; [exact Hrun|].
  split; [reflexivity|]. split; [exact Hkind|]. split; [exact Hids|].
  split.
  - rewrite <- (length_map record_id), Hids. apply numbered_length.
  - rewrite Hids. apply numbered_NoDup.
Qed.

(** ** Gathering and inserting the parameters of streams *)

Lemma stamp_tag (trs : list ref) (t : string) (h : Heap) (r : ref) :
  tag (stats (stamp h t trs r))
  = if existsb (Nat.eqb r) trs then t else tag (stats (h r)).
Proof.
  destruct (existsb (Nat.eqb r) trs) eqn:E.
  - apply stamp_in. apply existsb_exists in E. destruct E as (x & Hx & E).
    apply Nat.eqb_eq in E. subst x. exact Hx.
  - rewrite stamp_out; [reflexivity|]. intro Hin.
    assert (existsb (Nat.eqb r) trs = true) as C.
    { apply existsb_exists. exists r. split; [exact Hin | apply Nat.eqb_refl]. }
    congruence.
Qed.

(** X21: [gather_stream_parameters] keys the parameters by identifier and
    stamps the tags on the traces, and the last stream wins: the
    parameters kept under an identifier are those of the last stream with
    that identifier that has any, and the tag of a trace is that of the last
    stream that holds it (an untagged stream stamps the empty string); a
    trace that no stream holds keeps its tag. *)
Theorem gather_stream_parameters_last_wins (h : Heap)
    (streams : list StationStream) (sid : string) (r : ref) :
  let h1 := fst (gather_stream_parameters h streams) in
  let stream_params := snd (gather_stream_parameters h streams) in
  dict_get sid stream_params
  = option_map st_parameters
      (find (fun s => String.eqb (get_id h s) sid &&
                      (0 <? List.length (st_parameters s))%nat)
            (rev streams)) /\
  tag (stats (h1 r))
  = match find (fun s => existsb (Nat.eqb r) (traces s)) (rev streams) with
    | Some s => stream_tag_string s
    | None => tag (stats (h r))
    end.
Proof.
  cbv zeta. induction streams as [|s streams IH] using rev_ind;
    [split; reflexivity|].
  rewrite gather_snoc, rev_app_distr. cbn [rev app find].
  pose proof (gather_agree h streams) as Hag.
  destruct (gather_stream_parameters h streams) as [h' d].
  cbn [fst snd] in *. destruct IH as [IHp IHt]. split.
  - rewrite gather_step_params, (agree_get_id _ _ Hag).
    destruct (0 <? List.length (st_parameters s))%nat;
      [|rewrite andb_false_r; exact IHp].
    rewrite andb_true_r. destruct (String.eqb_spec (get_id h s) sid) as [<-|Hne].
    + rewrite dict_get_set_same. reflexivity.
    + rewrite dict_get_set_other by exact Hne. exact IHp.
  - rewrite gather_step_heap, stamp_tag.
    destruct (existsb (Nat.eqb r) (traces s)); [reflexivity | exact IHt].
Qed.

Lemma insert_one_twice (h : Heap) (params : dict (dict pyvalue))
    (st : StationStream) :
  insert_one h params (insert_one h params st) = insert_one h params st.
Proof.
  unfold insert_one at 2.
  destruct (0 <? List.length (traces st))%nat eqn:E.
  - unfold insert_one. cbn [traces st_parameters st_tag]. rewrite E.
    replace (get_id h (mkStream (traces st) _ _)) with (get_id h st)
      by (apply get_id_hd; reflexivity).
    unfold first_trace. cbn [traces].
    destruct (dict_get (get_id h st) params);
      destruct (String.eqb (tag (stats (h (hd 0%nat (traces st))))) "");
      reflexivity.
  - unfold insert_one. rewrite E. reflexivity.
Qed.

(** X22: [insert_stream_parameters] sets parameters and tags and nothing
    else: the streams keep their traces; a stream whose identifier has no
    entry keeps its parameters, and one whose first trace has an empty tag
    keeps its tag; a stream without traces is returned as it is; and
    inserting twice is inserting once. (The tag of the first trace is the
    one [gather_stream_parameters] stamped.) *)
Theorem insert_stream_parameters_idempotent (h : Heap)
    (streams : list StationStream) (stream_params : dict (dict pyvalue)) :
  let inserted := insert_stream_parameters h streams stream_params in
  insert_stream_parameters h inserted stream_params = inserted /\
  map traces inserted = map traces streams /\
  Forall2 (fun st st' =>
             (dict_get (get_id h st) stream_params = None ->
              st_parameters st' = st_parameters st) /\
             (tag (stats (first_trace h st)) = "" -> st_tag st' = st_tag st) /\
             (traces st = [] -> st' = st))
          streams inserted.
Proof.
  cbv zeta. split; [|split].
  - unfold insert_stream_parameters. rewrite map_map. apply map_ext.
    intro st. apply insert_one_twice.
  - apply insert_traces.
  - unfold insert_stream_parameters.
    induction streams as [|st streams IH]; [constructor|].
    cbn [map]. constructor; [|exact IH].
    unfold insert_one.
    destruct (traces st) as [|x l] eqn:E; cbn [List.length Nat.ltb Nat.leb].
    + repeat split; reflexivity.
    + change (0 <? S (List.length l))%nat with true. cbn iota.
      cbn [st_parameters st_tag]. repeat split.
      * intros ->. reflexivity.
      * intros ->. reflexivity.
      * discriminate.
Qed.

(** ** Splitting a station by location *)

Section ClassShape.
Variable A : Type.
Variable same : A -> A -> bool.
Hypothesis same_refl : forall x, same x x = true.
Hypothesis same_sym : forall x y, same x y = same y x.
Hypothesis same_trans :
  forall x y z, same x y = true -> same y z = true -> same x z = true.

Lemma hd_default (d d' : A) (l : list A) : l <> [] -> hd d l = hd d' l.
Proof. destruct l; [contradiction | reflexivity]. Qed.

Lemma filter_head (l : list A) (x d y : A) :
  In x l -> same (hd d (filter (same x) l)) y = same x y.
Proof.
  intro Hx. rewrite (hd_default d y).
  - apply (class_head _ same same_refl same_sym same_trans). exact Hx.
  - intro E. assert (In x (filter (same x) l)) as H
      by (apply filter_In; split; [exact Hx | apply same_refl]).
    rewrite E in H. destruct H.
Qed.

(** Every class is what the test of its first member keeps of the list,
    and the first members of two classes are apart. *)
Lemma classes_shape (l : list A) (d : A) :
  Forall (fun c => c <> [] /\ c = filter (same (hd d c)) l) (classes same l) /\
  ForallOrdPairs (fun c c' => same (hd d c) (hd d c') = false) (classes same l).
Proof.
  unfold classes.
  pose proof (leaders_apart _ same same_sym l []) as Hapart.
  assert (Hin : forall x, In x (leaders same [] l) -> In x l)
    by (intros x Hx; exact (proj1 (leaders_In _ same _ _ _ Hx))).
  induction (leaders same [] l) as [|x L IH]; [split; constructor|].
  inversion Hapart as [|? ? Hx HL]; subst.
  destruct (IH HL (fun y Hy => Hin y (or_intror Hy))) as [IH1 IH2].
  pose proof (Hin x (or_introl eq_refl)) as Hxl.
  cbn [map]. split.
  - constructor; [|exact IH1]. split.
    + intro E. assert (In x (filter (same x) l)) as H
        by (apply filter_In; split; [exact Hxl | apply same_refl]).
      rewrite E in H. destruct H.
    + apply filter_ext. intro y. symmetry. apply filter_head. exact Hxl.
  - constructor; [|exact IH2].
    apply Forall_forall. intros c Hc. apply in_map_iff in Hc.
    destruct Hc as (y & <- & Hy).
    rewrite Forall_forall in Hx.
    rewrite (filter_head l x d _ Hxl), same_sym,
      (filter_head l y d _ (Hin y (or_intror Hy))), same_sym.
    exact (Hx y Hy).
Qed.
End ClassShape.

(** X23: [split_station] raises [IndexError] on an empty list. Otherwise it
    returns new streams, none empty, that hold the traces it was given,
    each once: a single stream with all of them, in their order, unless the
    network of the first trace uses the location code; and for such a
    network one stream per location, each with the traces of its location in
    their order, no two streams for the same location. *)
Theorem split_station_contract (h : Heap) (grouped_trace_list : list ref) :
  grouped_trace_list <> [] ->
  split_station h [] = Raise IndexError /\
  exists streams,
    split_station h grouped_trace_list = Ok streams /\
    Permutation (flat_map traces streams) grouped_trace_list /\
    Forall (fun st => traces st <> [] /\ st_parameters st = [] /\ st_tag st = None)
           streams /\
    (str_in (network (stats (h (hd 0%nat grouped_trace_list))))
            NETWORKS_USING_LOCATION = false ->
     streams = [new_stream grouped_trace_list]) /\
    (str_in (network (stats (h (hd 0%nat grouped_trace_list))))
            NETWORKS_USING_LOCATION = true ->
     Forall (fun st =>
               traces st
               = filter (fun r => String.eqb (location (stats (first_trace h st)))
                                             (location (stats (h r))))
                        grouped_trace_list) streams /\
     ForallOrdPairs (fun st st' => location (stats (first_trace h st))
                                   <> location (stats (first_trace h st')))
                    streams).
Proof.
  intro Hne. split; [reflexivity|].
  exists (map new_stream (split_traces h grouped_trace_list)).
  split; [exact (split_station_spec h _ Hne)|].
  assert (Hflat : forall cs, flat_map traces (map new_stream cs) = List.concat cs).
  { induction cs as [|c cs IH]; [reflexivity|]. cbn [map flat_map]. rewrite IH.
    reflexivity. }
  rewrite Hflat. split; [apply split_traces_Permutation|].
  unfold split_traces, uses_location.
  destruct (classes_shape _ (same_location h) (same_location_refl h)
              (same_location_sym h) (same_location_trans h)
              grouped_trace_list 0%nat) as [Hshape Hapart].
  destruct (str_in (network (stats (h (hd 0%nat grouped_trace_list))))
                   NETWORKS_USING_LOCATION).
  - split; [|split; [discriminate|]].
    + apply Forall_map. revert Hshape. apply Forall_impl.
      intros c [Hc _]. repeat split; try reflexivity. exact Hc.
    + intros _. split.
      * apply Forall_map. revert Hshape. apply Forall_impl.
        intros c [_ Hc]. exact Hc.
      * clear Hshape.
        induction Hapart as [|c cs Hc _ IH]; cbn [map]; constructor; [|exact IH].
        apply Forall_map. revert Hc. apply Forall_impl.
        intros c' Hcc'. unfold first_trace. cbn [traces new_stream].
        apply String.eqb_neq. exact Hcc'.
  - split; [|split; [reflexivity | discriminate]].
    constructor; [|constructor]. repeat split; try reflexivity. exact Hne.
Qed.

Lemma split_station_contract_witness :
  exists streams,
    split_station reclamation_heap [0%nat; 1%nat; 2%nat; 3%nat] = Ok streams /\
    Permutation (flat_map traces streams) [0%nat; 1%nat; 2%nat; 3%nat].
Proof.
  destruct (split_station_contract reclamation_heap [0%nat; 1%nat; 2%nat; 3%nat])
    as (_ & streams & H1 & H2 & _); [discriminate|].
  exists streams. split; [exact H1 | exact H2].
Defined.

(** ** The preferred of two duplicates *)

Lemma data_eqb_refl (d : list Q) : data_eqb d d = true.
Proof.
  induction d as [|x d IH]; [reflexivity|]. simpl. rewrite Qeq_bool_refl. exact IH.
Qed.

Lemma trace_eqb_refl (tr : StationTrace) : trace_eqb tr tr = true.
Proof.
  unfold trace_eqb, stats_eqb, standard_eqb, coordinates_eqb.
  rewrite !String.eqb_refl, !Z.eqb_refl, !Qeq_bool_refl, data_eqb_refl.
  reflexivity.
Qed.

Lemma trace_eqb_level (tr1 tr2 : StationTrace) :
  process_level (standard (stats tr1)) <> process_level (standard (stats tr2)) ->
  trace_eqb tr1 tr2 = false.
Proof.
  intro H. apply String.eqb_neq in H.
  unfold trace_eqb, stats_eqb, standard_eqb. rewrite H. cbn [andb].
  rewrite !andb_false_r. reflexivity.
Qed.

Lemma level_rank_functional (process_level_preference : list string)
    (tr1 tr2 : StationTrace) (i1 i2 : nat) :
  level_rank process_level_preference tr1 i1 ->
  level_rank process_level_preference tr2 i2 ->
  i1 <> i2 ->
  process_level (standard (stats tr1)) <> process_level (standard (stats tr2)).
Proof.
  intros (l1 & E1 & I1) (l2 & E2 & I2) Hne E. rewrite E in E1. congruence.
Qed.

Lemma choose_preferred_lower_rank (tr1 tr2 : StationTrace)
    (process_level_preference format_preference : list string) (i1 i2 : nat) :
  level_rank process_level_preference tr1 i1 ->
  level_rank process_level_preference tr2 i2 ->
  (i1 < i2)%nat ->
  choose_preferred tr1 tr2 process_level_preference format_preference
  = Ok (Some tr1) /\
  choose_preferred tr2 tr1 process_level_preference format_preference
  = Ok (Some tr1).
Proof.
  intros (l1 & E1 & I1) (l2 & E2 & I2) Hlt. unfold choose_preferred.
  rewrite E1, E2. cbn [bind]. rewrite I1, I2. cbn [bind].
  destruct (Nat.ltb_spec i1 i2); [|lia].
  destruct (Nat.ltb_spec i2 i1); [lia|]. split; reflexivity.
Qed.

Lemma dedup_pair (gps2dist_azimuth : Q -> Q -> Q -> Q -> result Q)
    (h : Heap) (tolerance : Q) (levels formats : list string)
    (r1 r2 : ref) (i1 i2 : nat) :
  are_duplicates gps2dist_azimuth (h r1) (h r2) tolerance = Ok true ->
  are_duplicates gps2dist_azimuth (h r2) (h r1) tolerance = Ok true ->
  level_rank levels (h r1) i1 -> level_rank levels (h r2) i2 -> (i1 < i2)%nat ->
  dedup gps2dist_azimuth h tolerance levels formats [r1; r2] [] = Ok [r1] /\
  dedup gps2dist_azimuth h tolerance levels formats [r2; r1] [] = Ok [r1].
Proof.
  intros D12 D21 L1 L2 Hlt.
  destruct (choose_preferred_lower_rank (h r1) (h r2) levels formats
              i1 i2 L1 L2 Hlt) as [C12 C21].
  assert (Hneq : trace_eqb (h r1) (h r2) = false).
  { apply trace_eqb_level.
    apply (level_rank_functional levels _ _ i1 i2 L1 L2). lia. }
  split.
  - cbn [dedup]. unfold dedup_step. cbn [find_duplicate bind app].
    rewrite D21. cbn [bind]. rewrite C21. cbn [bind is_trace].
    rewrite Hneq. reflexivity.
  - cbn [dedup]. unfold dedup_step. cbn [find_duplicate bind app].
    rewrite D12. cbn [bind]. rewrite C12. cbn [bind is_trace].
    rewrite trace_eqb_refl. cbn [list_remove]. rewrite Nat.eqb_refl.
    reflexivity.
Qed.

(** X24: of two traces that are duplicates of each other and whose process
    levels have different ranks in the preference list, duplicate removal
    keeps the one of better rank, in whichever order the two arrive. *)
Theorem handle_duplicates_prefers_level
    (gps2dist_azimuth : Q -> Q -> Q -> Q -> result Q) (config : DuplicateConfig)
    (h : Heap) (s1 s2 : StationStream) (r1 r2 : ref)
    (max_dist_tolerance : option Q)
    (process_level_preference format_preference : option (list string))
    (i1 i2 : nat) :
  let tolerance := or_default max_dist_tolerance (cfg_max_dist_tolerance config) in
  let levels := or_default process_level_preference
                           (cfg_process_level_preference config) in
  traces s1 = [r1] -> traces s2 = [r2] ->
  are_duplicates gps2dist_azimuth (h r1) (h r2) tolerance = Ok true ->
  are_duplicates gps2dist_azimuth (h r2) (h r1) tolerance = Ok true ->
  level_rank levels (h r1) i1 -> level_rank levels (h r2) i2 -> (i1 < i2)%nat ->
  (exists h1 streams,
     handle_duplicates gps2dist_azimuth config h [s1; s2] max_dist_tolerance
       process_level_preference format_preference = Ok (h1, streams) /\
     map traces streams = [[r1]]) /\
  (exists h1 streams,
     handle_duplicates gps2dist_azimuth config h [s2; s1] max_dist_tolerance
       process_level_preference format_preference = Ok (h1, streams) /\
     map traces streams = [[r1]]).
Proof.
  cbv zeta. intros T1 T2 D12 D21 L1 L2 Hlt.
  assert (Hstep : forall h1, agree h h1 ->
            dedup gps2dist_azimuth h1
              (or_default max_dist_tolerance (cfg_max_dist_tolerance config))
              (or_default process_level_preference
                          (cfg_process_level_preference config))
              (or_default format_preference (cfg_format_preference config))
              [r1; r2] [] = Ok [r1] /\
            dedup gps2dist_azimuth h1
              (or_default max_dist_tolerance (cfg_max_dist_tolerance config))
              (or_default process_level_preference
                          (cfg_process_level_preference config))
              (or_default format_preference (cfg_format_preference config))
              [r2; r1] [] = Ok [r1]).
  { intros h1 Hag. destruct (Hag r1) as [t1 Hr1], (Hag r2) as [t2 Hr2].
    apply (dedup_pair _ _ _ _ _ _ _ i1 i2); rewrite ?Hr1, ?Hr2; assumption. }
  split.
  - unfold handle_duplicates.
    pose proof (gather_agree h [s1; s2]) as Hag.
    destruct (gather_stream_parameters h [s1; s2]) as [h1 params].
    cbn [flat_map]. rewrite T1, T2. cbn [app].
    rewrite (proj1 (Hstep h1 Hag)). cbn [bind].
    do 2 eexists. split; [reflexivity|]. apply insert_traces.
  - unfold handle_duplicates.
    pose proof (gather_agree h [s2; s1]) as Hag.
    destruct (gather_stream_parameters h [s2; s1]) as [h1 params].
    cbn [flat_map]. rewrite T1, T2. cbn [app].
    rewrite (proj2 (Hstep h1 Hag)). cbn [bind].
    do 2 eexists. split; [reflexivity|]. apply insert_traces.
Qed.

Lemma handle_duplicates_prefers_level_witness :
  exists h1 streams,
    handle_duplicates example_gps2dist example_config levels_heap
      [new_stream [0%nat]; new_stream [1%nat]] None None None = Ok (h1, streams) /\
    map traces streams = [[1%nat]].
Proof.
  destruct (handle_duplicates_prefers_level example_gps2dist example_config
              levels_heap (new_stream [1%nat]) (new_stream [0%nat])
              1%nat 0%nat None None None 0%nat 2%nat) as [_ H];
    try reflexivity.
  - exists "V2". split; reflexivity.
  - exists "V0". split; reflexivity.
  - lia.
  - exact H.
Defined.

(** ** The table of the provenance *)

Lemma frame_steps (str : pyobj -> string) (strftime : Z -> string)
    (provenance : list provdict) :
  forall (df : ProvDataFrame) (index : nat),
  (Forall (fun p => dict_has (prov_id p) ACTIVITIES = true) provenance ->
   exists df',
     foldM (frame_step str strftime) provenance (df, index)
     = Ok (df', (index + List.length provenance)%nat) /\
     column_Index df'
     = column_Index df
       ++ List.concat (map (fun ip => repeat (fst ip)
                                        (List.length (prov_attributes (snd ip))))
                           (combine (seq index (List.length provenance)) provenance)) /\
     column_Process_Attribute df'
     = column_Process_Attribute df
       ++ flat_map (fun p => map fst (prov_attributes p)) provenance /\
     List.length (column_Process_Step df')
     = (List.length (column_Process_Step df)
        + List.length (flat_map prov_attributes provenance))%nat /\
     List.length (column_Process_Value df')
     = (List.length (column_Process_Value df)
        + List.length (flat_map prov_attributes provenance))%nat) /\
  (~ Forall (fun p => dict_has (prov_id p) ACTIVITIES = true) provenance ->
   foldM (frame_step str strftime) provenance (df, index) = Raise KeyError).
Proof.
  induction provenance as [|p provenance IH]; intros df index.
  - split.
    + intros _. exists df. rewrite Nat.add_0_r, !app_nil_r, !Nat.add_0_r.
      repeat split; reflexivity.
    + intro H. exfalso. apply H. constructor.
  - cbn [foldM].
    destruct (frame_step str strftime (df, index) p) as [[d i]|e] eqn:Estep;
      unfold frame_step in Estep;
      destruct (dict_get (prov_id p) ACTIVITIES) as [[code label]|] eqn:E;
      try discriminate Estep; cbn [bind].
    + injection Estep as <- <-.
      match goal with
      | |- context [foldM _ provenance (?d, S index)] =>
          destruct (IH d (S index)) as [IHok IHerr]
      end.
      split.
      * intro H. inversion H as [|? ? _ Hrest]; subst.
        destruct (IHok Hrest) as (df' & Hrun & Hi & Ha & Hs & Hv).
        exists df'. rewrite Hrun. cbn [List.length].
        rewrite Nat.add_succ_r. split; [reflexivity|].
        cbn [column_Index column_Process_Attribute column_Process_Step
             column_Process_Value] in Hi, Ha, Hs, Hv.
        cbn [seq combine map List.concat flat_map fst snd].
        rewrite Hi, Ha, Hs, Hv, <- !app_assoc, !length_app, repeat_length, length_map.
        repeat split; try reflexivity; lia.
      * intro H. apply IHerr. intro C. apply H. constructor; [|exact C].
        unfold dict_has. rewrite E. reflexivity.
    + injection Estep as <-. split; [|reflexivity].
      intro H. inversion H as [|? ? C _]; subst. unfold dict_has in C.
      rewrite E in C. discriminate C.
Qed.

(** X25: [getProvDataFrame] raises [KeyError] as soon as an entry of the
    provenance has an identifier that is not in [ACTIVITIES] (where
    [getProvenanceDocument] leaves such an entry out). Otherwise its four
    columns have one row per attribute of every entry, in order: the
    attribute names are the keys, and the rows of the entry at position [i],
    counted from 0, have Index [i]. *)
Theorem getProvDataFrame_rows (str : pyobj -> string) (strftime : Z -> string)
    (provenance : list provdict) :
  (Forall (fun p => dict_has (prov_id p) ACTIVITIES = true) provenance ->
   exists df,
     getProvDataFrame str strftime provenance = Ok df /\
     column_Index df
     = List.concat (map (fun ip => repeat (fst ip)
                                     (List.length (prov_attributes (snd ip))))
                        (enumerate provenance)) /\
     column_Process_Attribute df
     = flat_map (fun p => map fst (prov_attributes p)) provenance /\
     List.length (column_Process_Step df)
     = List.length (flat_map prov_attributes provenance) /\
     List.length (column_Process_Value df)
     = List.length (flat_map prov_attributes provenance) /\
     List.length (column_Index df)
     = List.length (flat_map prov_attributes provenance)) /\
  (~ Forall (fun p => dict_has (prov_id p) ACTIVITIES = true) provenance ->
   getProvDataFrame str strftime provenance = Raise KeyError).
Proof.
  unfold getProvDataFrame, getAllProvenance.
  destruct (frame_steps str strftime provenance (mkFrame [] [] [] []) 0)
    as [Hok Herr].
  split.
  - intro H. destruct (Hok H) as (df & Hrun & Hi & Ha & Hs & Hv).
    exists df. rewrite Hrun. cbn [bind fst]. split; [reflexivity|].
    cbn [column_Index column_Process_Attribute column_Process_Step
         column_Process_Value app List.length Nat.add] in Hi, Ha, Hs, Hv.
    split; [exact Hi|]. split; [exact Ha|]. split; [exact Hs|].
    split; [exact Hv|].
    rewrite Hi. unfold enumerate. clear.
    generalize 0%nat. induction provenance as [|p l IH]; intro s; [reflexivity|].
    cbn [List.length seq combine map List.concat flat_map fst snd].
    rewrite !length_app, repeat_length, IH. reflexivity.
  - intro H. rewrite (Herr H). reflexivity.
Qed.

Lemma getProvDataFrame_rows_witness :
  exists df,
    getProvDataFrame (fun _ => "") (fun _ => "")
      [mkProv "detrend" [("detrending_method", PyStr "linear")];
       mkProv "taper" [("side", PyStr "both"); ("taper_width", PyFloat (Some 0.05%Q))]]
    = Ok df /\
    column_Index df = [0%nat; 1%nat; 1%nat].
Proof.
  edestruct (getProvDataFrame_rows (fun _ => "") (fun _ => "")
               [mkProv "detrend" [("detrending_method", PyStr "linear")];
                mkProv "taper" [("side", PyStr "both");
                                ("taper_width", PyFloat (Some 0.05%Q))]])
    as [H _].
  destruct H as (df & H1 & H2 & _).
  - repeat constructor.
  - exists df. split; [exact H1 | exact H2].
Defined.

(** ** Colocated instruments that are not in the preference list *)

Lemma foldM_app {A B : Type} (f : A -> B -> result A) (l1 l2 : list B) (a : A) :
  foldM f (l1 ++ l2) a = (a1 <- foldM f l1 a ;; foldM f l2 a1).
Proof.
  revert a. induction l1 as [|x l1 IH]; intro a; [reflexivity|].
  cbn [app foldM]. destruct (f a x) as [a'|e]; [|reflexivity].
  cbn [bind]. apply IH.
Qed.

Lemma first_preferred_none (preference group_insts : list string) :
  (forall pref inst, In pref preference -> In inst group_insts ->
                     re_match (slice02 pref) inst = false) ->
  first_preferred preference group_insts = None.
Proof.
  induction preference as [|pref preference IH]; intro H; [reflexivity|].
  cbn [first_preferred]. rewrite filter_none.
  - apply IH. intros p i Hp Hi. apply H; [right; exact Hp | exact Hi].
  - intros i Hi. apply H; [left; reflexivity | exact Hi].
Qed.

Lemma fails_more_get (h h' : Heap) (st : StationStream) :
  fails_more h h' ->
  get_inst h' st = get_inst h st /\ get_net_sta h' st = get_net_sta h st.
Proof.
  intro H. unfold get_inst, get_net_sta, first_trace.
  destruct (H (hd 0%nat (traces st))) as ([t Ht] & _). rewrite Ht.
  split; reflexivity.
Qed.

Lemma fail_stream_in (reason : string) (st : StationStream) (h : Heap) (r : ref) :
  In r (traces st) -> hasParameter (fail_stream reason h st r) "failure" = true.
Proof.
  unfold fail_stream. revert h.
  induction (traces st) as [|x l IH]; intros h Hr; [destruct Hr|].
  cbn [fold_left]. destruct (in_dec Nat.eq_dec r l) as [Hin|Hout].
  - apply IH. exact Hin.
  - destruct Hr as [->|Hr]; [|contradiction].
    pose proof (fail_stream_out reason (new_stream l)
                  (heap_set h r (fail (h r) "select_colocated" reason)) r Hout)
      as E.
    unfold fail_stream in E. cbn [traces new_stream] in E. rewrite E.
    unfold heap_set. rewrite Nat.eqb_refl.
    unfold hasParameter, fail, setParameter, dict_has. cbn [parameters].
    rewrite dict_get_set_same. reflexivity.
Qed.

Lemma fail_group_in (reason : string) (streams : list StationStream)
    (group : list nat) (h : Heap) (g : nat) (r : ref) :
  In g group -> In r (traces (nth g streams (new_stream []))) ->
  hasParameter
    (fold_left (fun h' g => fail_stream reason h' (nth g streams (new_stream [])))
               group h r) "failure" = true.
Proof.
  revert h. induction group as [|x group IH]; intros h Hg Hr; [destruct Hg|].
  cbn [fold_left]. destruct Hg as [->|Hg].
  - assert (fails_more (fail_stream reason h (nth g streams (new_stream [])))
              (fold_left (fun h' g => fail_stream reason h'
                                        (nth g streams (new_stream [])))
                         group
                         (fail_stream reason h (nth g streams (new_stream [])))))
      as Hf.
    { generalize (fail_stream reason h (nth g streams (new_stream []))).
      clear. induction group as [|y group IH]; intro h; [apply fails_more_refl|].
      cbn [fold_left].
      eapply fails_more_trans; [apply fail_stream_fails_more | apply IH]. }
    destruct (Hf r) as (_ & _ & _ & Hkeep). apply Hkeep.
    apply fail_stream_in. exact Hr.
  - apply IH; assumption.
Qed.

(** X26: for a preference list whose entries start with two characters
    that are literal in a regular expression, a station with more than one
    group none of whose instrument codes starts with the first two
    characters of an entry has all its groups failed: when
    [select_colocated] returns, every trace of such a group carries a
    failure. *)
Theorem select_colocated_no_match
    (gps2dist_azimuth : Q -> Q -> Q -> Q -> result Q) (config : DuplicateConfig)
    (h : Heap) (streams : list StationStream) (preference : list string)
    (h' : Heap) (s : StationStream) :
  (forall pref, In pref preference -> regex_literal (slice02 pref) = true) ->
  select_colocated gps2dist_azimuth config h streams preference = Ok h' ->
  In s streams ->
  (1 < List.length
         (filter (fun s' => String.eqb (get_net_sta h s) (get_net_sta h s'))
                 streams))%nat ->
  (forall pref s', In pref preference -> In s' streams ->
     get_net_sta h s' = get_net_sta h s ->
     re_match (slice02 pref) (get_inst h s') = false) ->
  (forall r, In r (traces s) -> hasParameter (h' r) "failure" = true) /\
  (traces s <> [] -> passed h' s = false).
Proof.
  intros _ Hrun Hs Hmany Hnone.
  assert (Hall : forall r, In r (traces s) -> hasParameter (h' r) "failure" = true).
  2: { split; [exact Hall|]. intro Hne. unfold passed. apply negb_false_iff.
       apply existsb_exists. destruct (traces s) as [|r l]; [contradiction|].
       exists r. split; [left; reflexivity | apply Hall; left; reflexivity]. }
  intros r Hr. revert Hrun. unfold select_colocated.
  set (same := fun stream1 stream2 : StationStream =>
                 String.eqb (get_net_sta h stream1) (get_net_sta h stream2)).
  assert (Hrefl : forall x, same x x = true)
    by (intro x; apply String.eqb_refl).
  assert (Hsym : forall x y, same x y = same y x)
    by (intros x y; apply String.eqb_sym).
  assert (Htrans : forall x y z, same x y = true -> same y z = true ->
                                 same x z = true).
  { unfold same. intros x y z Hxy Hyz. apply String.eqb_eq in Hxy, Hyz.
    apply String.eqb_eq. congruence. }
  rewrite (match_list_positions _ same Hrefl Hsym Htrans).
  (* the leader of the station of [s] *)
  pose proof (leaders_cover _ same Hrefl streams [] s Hs) as Hcover.
  cbn [existsb orb] in Hcover. apply existsb_exists in Hcover.
  destruct Hcover as (x & Hx & Hsx).
  assert (Hclass : filter (same s) streams = filter (same x) streams).
  { apply filter_ext. intro y.
    apply (same_congr _ same Hsym Htrans). exact Hsx. }
  destruct (in_split _ _ Hx) as (L1 & L2 & HL). rewrite HL, map_app, foldM_app.
  cbn [map foldM].
  destruct (foldM (colocated_group gps2dist_azimuth config streams preference)
                  (map (positions same streams) L1) h) as [a1|e] eqn:E1;
    [|discriminate].
  cbn [bind].
  assert (Hf1 : fails_more h a1).
  { revert E1. apply (foldM_invariant fails_more).
    - apply fails_more_refl.
    - apply fails_more_trans.
    - intros a g a'. apply colocated_group_fails_more. }
  destruct (colocated_group gps2dist_azimuth config streams preference a1
              (positions same streams x)) as [a2|e] eqn:E2; [|discriminate].
  cbn [bind]. intro E3.
  assert (Hf3 : fails_more a2 h').
  { revert E3. apply (foldM_invariant fails_more).
    - apply fails_more_refl.
    - apply fails_more_trans.
    - intros a g a'. apply colocated_group_fails_more. }
  destruct (Hf3 r) as (_ & _ & _ & Hkeep). apply Hkeep. clear Hkeep Hf3 E3 E1.
  (* the group of the station fails all its members *)
  assert (Hnth : map (fun g => nth g streams (new_stream []))
                     (positions same streams x) = filter (same x) streams).
  { unfold positions, enumerate.
    exact (nth_filter_enumerate (same x) (new_stream []) streams []). }
  unfold colocated_group in E2.
  rewrite (positions_length _ same), <- Hclass in E2.
  assert (Hmany' : (1 <? List.length (filter (same s) streams))%nat = true)
    by (apply Nat.ltb_lt; exact Hmany).
  rewrite Hmany' in E2.
  rewrite first_preferred_none in E2.
  - injection E2 as <-.
    assert (In s (filter (same x) streams)) as Hin.
    { rewrite <- Hclass. apply filter_In. split; [exact Hs | apply Hrefl]. }
    rewrite <- Hnth in Hin. apply in_map_iff in Hin.
    destruct Hin as (g & Hg & Hgin).
    apply (fail_group_in _ _ _ _ g); [exact Hgin | rewrite Hg; exact Hr].
  - intros pref inst Hp Hi. apply in_map_iff in Hi. destruct Hi as (g & <- & Hg).
    assert (In (nth g streams (new_stream [])) (filter (same x) streams)) as Hin.
    { rewrite <- Hnth.
      exact (in_map (fun i => nth i streams (new_stream [])) _ _ Hg). }
    rewrite <- Hclass in Hin. apply filter_In in Hin. destruct Hin as [Hin Hsame].
    rewrite (proj1 (fails_more_get _ _ _ Hf1)).
    apply Hnone; [exact Hp | exact Hin|].
    unfold same in Hsame. apply String.eqb_eq in Hsame. congruence.
Qed.

Lemma select_colocated_no_match_witness :
  exists h',
    select_colocated example_gps2dist example_config pair_heap pair_streams
      ["HH?"; "BH?"] = Ok h' /\
    passed h' (new_stream [2%nat]) = false.
Proof.
  eexists. split; [vm_compute; reflexivity|].
  edestruct (select_colocated_no_match example_gps2dist example_config pair_heap
               pair_streams ["HH?"; "BH?"]) as [_ H].
  - intros pref [<-|[<-|[]]]; reflexivity.
  - vm_compute. reflexivity.
  - right. left. reflexivity.
  - vm_compute. lia.
  - intros pref s' [<-|[<-|[]]] [<-|[<-|[]]] _; reflexivity.
  - apply H. discriminate.
Defined.

(** ** Two duplicates of equal process level *)

Lemma dedup_pair_tie (gps2dist_azimuth : Q -> Q -> Q -> Q -> result Q)
    (h : Heap) (tolerance : Q) (levels formats : list string)
    (r1 r2 : ref) (i : nat) :
  are_duplicates gps2dist_azimuth (h r2) (h r1) tolerance = Ok true ->
  level_rank levels (h r1) i -> level_rank levels (h r2) i ->
  (str_in (source_format (standard (stats (h r2)))) formats &&
   str_in (source_format (standard (stats (h r1)))) formats = false ->
   dedup gps2dist_azimuth h tolerance levels formats [r1; r2] [] = Ok [r1]) /\
  (forall j,
     format_rank formats (h r1) j -> format_rank formats (h r2) j ->
     (starttime (stats (h r1)) = 0%Z <-> starttime (stats (h r2)) = 0%Z) ->
     npts (stats (h r1)) = npts (stats (h r2)) ->
     (sampling_rate (stats (h r1)) == sampling_rate (stats (h r2)))%Q ->
     dedup gps2dist_azimuth h tolerance levels formats [r1; r2] [] = Ok [r2]).
Proof.
  intros D21 L1 L2. split.
  - intro Hfmt. cbn [dedup]. unfold dedup_step. cbn [find_duplicate bind app].
    rewrite D21. cbn [bind].
    assert (choose_preferred (h r2) (h r1) levels formats = Ok None) as ->.
    { destruct L1 as (l1 & E1 & I1), L2 as (l2 & E2 & I2).
      unfold choose_preferred. rewrite E2, E1. cbn [bind]. rewrite I2, I1.
      cbn [bind]. rewrite Nat.ltb_irrefl, Hfmt. reflexivity. }
    reflexivity.
  - intros j J1 J2 Hstart Hnpts Hrate.
    cbn [dedup]. unfold dedup_step. cbn [find_duplicate bind app].
    rewrite D21. cbn [bind].
    rewrite (choose_preferred_tied_ranks (h r2) (h r1) levels formats i j L2 L1 J2 J1).
    assert ((if Z.eqb (starttime (stats (h r2))) 0 &&
                negb (Z.eqb (starttime (stats (h r1))) 0) then h r1
             else if negb (Z.eqb (starttime (stats (h r2))) 0) &&
                     Z.eqb (starttime (stats (h r1))) 0 then h r2
             else if (npts (stats (h r1)) <? npts (stats (h r2)))%Z then h r2
             else if (npts (stats (h r2)) <? npts (stats (h r1)))%Z then h r1
             else if Qlt_bool (sampling_rate (stats (h r2)))
                              (sampling_rate (stats (h r1))) then h r1
             else h r2) = h r2) as ->.
    { destruct (Z.eqb_spec (starttime (stats (h r2))) 0) as [S2|S2],
               (Z.eqb_spec (starttime (stats (h r1))) 0) as [S1|S1];
        cbn [andb negb]; try tauto.
      all: rewrite Hnpts, Z.ltb_irrefl.
      all: assert (Qlt_bool (sampling_rate (stats (h r2)))
                            (sampling_rate (stats (h r1))) = false) as ->
          by (apply Qlt_bool_false_iff; rewrite Hrate; apply Qle_refl).
      all: reflexivity. }
    cbn [bind is_trace]. rewrite trace_eqb_refl. cbn [list_remove].
    rewrite Nat.eqb_refl. reflexivity.
Qed.

(** X27: of two traces the second of which is a duplicate of the first, with
    process levels of the same rank, duplicate removal keeps the first when
    the source format of one of them is not in [format_preference], and the
    second when they tie on every key of the cascade. *)
Theorem handle_duplicates_tie_order
    (gps2dist_azimuth : Q -> Q -> Q -> Q -> result Q) (config : DuplicateConfig)
    (h : Heap) (s1 s2 : StationStream) (r1 r2 : ref)
    (max_dist_tolerance : option Q)
    (process_level_preference format_preference : option (list string))
    (i : nat) :
  let tolerance := or_default max_dist_tolerance (cfg_max_dist_tolerance config) in
  let levels := or_default process_level_preference
                           (cfg_process_level_preference config) in
  let formats := or_default format_preference (cfg_format_preference config) in
  traces s1 = [r1] -> traces s2 = [r2] ->
  are_duplicates gps2dist_azimuth (h r2) (h r1) tolerance = Ok true ->
  level_rank levels (h r1) i -> level_rank levels (h r2) i ->
  (str_in (source_format (standard (stats (h r2)))) formats &&
   str_in (source_format (standard (stats (h r1)))) formats = false ->
   exists h1 streams,
     handle_duplicates gps2dist_azimuth config h [s1; s2] max_dist_tolerance
       process_level_preference format_preference = Ok (h1, streams) /\
     map traces streams = [[r1]]) /\
  (forall j,
     format_rank formats (h r1) j -> format_rank formats (h r2) j ->
     (starttime (stats (h r1)) = 0%Z <-> starttime (stats (h r2)) = 0%Z) ->
     npts (stats (h r1)) = npts (stats (h r2)) ->
     (sampling_rate (stats (h r1)) == sampling_rate (stats (h r2)))%Q ->
     exists h1 streams,
       handle_duplicates gps2dist_azimuth config h [s1; s2] max_dist_tolerance
         process_level_preference format_preference = Ok (h1, streams) /\
       map traces streams = [[r2]]).
Proof.
  cbv zeta. intros T1 T2 D21 L1 L2.
  pose proof (gather_agree h [s1; s2]) as Hag.
  unfold handle_duplicates.
  destruct (gather_stream_parameters h [s1; s2]) as [h1 params].
  cbn [fst] in Hag. cbn [flat_map]. rewrite T1, T2. cbn [app].
  destruct (Hag r1) as [t1 Hr1], (Hag r2) as [t2 Hr2].
  destruct (dedup_pair_tie gps2dist_azimuth h1
              (or_default max_dist_tolerance (cfg_max_dist_tolerance config))
              (or_default process_level_preference
                          (cfg_process_level_preference config))
              (or_default format_preference (cfg_format_preference config))
              r1 r2 i) as [Hfirst Hlast];
    try (rewrite ?Hr1, ?Hr2; assumption).
  split.
  - intro Hfmt. rewrite Hfirst by (rewrite Hr1, Hr2; exact Hfmt).
    cbn [bind]. do 2 eexists. split; [reflexivity | apply insert_traces].
  - intros j J1 J2 Hstart Hnpts Hrate.
    rewrite (Hlast j) by (rewrite ?Hr1, ?Hr2; assumption).
    cbn [bind]. do 2 eexists. split; [reflexivity | apply insert_traces].
Qed.

Lemma handle_duplicates_tie_order_witness :
  exists h1 streams,
    handle_duplicates example_gps2dist example_config tie_heap
      [new_stream [0%nat]; new_stream [1%nat]] None None None = Ok (h1, streams) /\
    map traces streams = [[1%nat]].
Proof.
  destruct (handle_duplicates_tie_order example_gps2dist example_config tie_heap
              (new_stream [0%nat]) (new_stream [1%nat]) 0%nat 1%nat
              None None None 2%nat) as [_ H]; try reflexivity.
  - exists "V0". split; reflexivity.
  - exists "V0". split; reflexivity.
  - apply (H 0%nat); try reflexivity. split; discriminate.
Defined.

(** ** What a selection holds *)

(** X28: the collection [select] returns holds only traces of the groups
    that match the criteria, and the call changes no trace outside these
    groups. *)
Theorem select_traces
    (gps2dist_azimuth : Q -> Q -> Q -> Q -> result Q) (config : DuplicateConfig)
    (h : Heap) (streams : list StationStream)
    (network_pat station_pat instrument_pat : option string)
    (h' : Heap) (selected : list StationStream) :
  select gps2dist_azimuth config h streams network_pat station_pat instrument_pat
  = Ok (h', selected) ->
  let matches st :=
    opt_match (nth 0 (split "." (get_net_sta h st)) "") network_pat &&
    opt_match (nth 1 (split "." (get_net_sta h st)) "") station_pat &&
    opt_match (get_inst h st) instrument_pat in
  (forall g r, In g selected -> In r (traces g) ->
     exists st, In st streams /\ matches st = true /\ In r (traces st)) /\
  (forall r, (forall st, In st streams -> matches st = true -> ~ In r (traces st)) ->
     h' r = h r) /\
  agree h h'.
Proof.
  unfold select. intro H. cbv zeta.
  pose proof (StreamCollection_init_agree _ _ _ _ _ _ _ _ _ _ _ H) as Hag.
  apply StreamCollection_init_out in H. destruct H as [Hsub Hout].
  split; [|split; [|exact Hag]].
  - intros g r Hg Hr.
    assert (In r (flat_map traces selected)) as Hin
      by (apply in_flat_map; exists g; auto).
    apply Hsub, in_flat_map in Hin. destruct Hin as (st & Hst & Hrst).
    apply filter_In in Hst. exists st. tauto.
  - intros r Hr. apply Hout. intro C. apply in_flat_map in C.
    destruct C as (st & Hst & Hrst). apply filter_In in Hst.
    exact (Hr st (proj1 Hst) (proj2 Hst) Hrst).
Qed.

Lemma select_traces_witness :
  exists h' selected,
    select example_gps2dist example_config pair_heap pair_streams
      None None (Some "BN") = Ok (h', selected) /\
    h' 0%nat = pair_heap 0%nat.
Proof.
  assert (exists h' selected,
            select example_gps2dist example_config pair_heap pair_streams
              None None (Some "BN") = Ok (h', selected)) as (h' & selected & E)
    by (do 2 eexists; vm_compute; reflexivity).
  exists h', selected. split; [exact E|].
  destruct (select_traces example_gps2dist example_config pair_heap pair_streams
              None None (Some "BN") h' selected E) as (_ & H & _).
  apply H. intros st [<-|[<-|[]]] Hm; [discriminate Hm|].
  intros [C|[]]. discriminate C.
Defined.
